(** * JetStream account ledger, template dispatcher and recovery scanner

    A shallow embedding of [server/jetstream.go]: the per-server resource
    ledger ([jetStream]), the per-account state ([jsAccount]), stream
    templates and their dispatcher, account enable/disable with the
    recovery scan, and the properties the specification states about them.

    Conventions.
    - Go [int64] values are integers in [Z]; every [+], [-] and [*] of
      the source on [int64] goes through [Int64.wrap] (two's complement).
    - Go [int] is 64 bits wide; the source only compares such values, so
      they are plain [Z].  [uint32] is [N].
    - Objects reached through pointers ([*jsAccount], [*StreamTemplate])
      live in stores indexed by locations, so that two handles to the same
      object see the same updates.
    - Every operation runs to completion: the locks of the source are not
      modelled, and an operation is one transition of the [World].
    - A pointer that the source dereferences without a test is an
      [option]; the operations that can reach a nil one end in an
      [Outcome], which tells a return from a panic. *)

From Stdlib Require Import ZArith NArith Lia Ascii String.
From stdpp Require Import base option list gmap strings.

Open Scope Z_scope.

(** ** Machine integers *)

Module Int64.

Definition modulus : Z := 2 ^ 64.
Definition min_int : Z := - 2 ^ 63.
Definition max_int : Z := 2 ^ 63 - 1.

Definition in_range (z : Z) : Prop := min_int <= z <= max_int.

(** Two's complement reduction to 64 bits. *)
Definition wrap (z : Z) : Z := (z + 2 ^ 63) mod modulus - 2 ^ 63.

Definition add (a b : Z) : Z := wrap (a + b).
Definition sub (a b : Z) : Z := wrap (a - b).
Definition mul (a b : Z) : Z := wrap (a * b).

End Int64.

(** ** Errors and log lines *)

(** [fmt.Errorf] values.  A message without verbs is [Errorf]; the
    formatted ones keep their format string and the argument. *)
Inductive error : Type :=
| Errorf (msg : string)
| ErrorfInt (fmt : string) (n : Z)
| ErrorfStr (fmt : string) (s : string)
| ErrorfErr (fmt : string) (e : error)
| ErrNoSysAccount.

#[global] Instance error_eq_dec : EqDecision error.
Proof. solve_decision. Defined.

(** Dereferencing a nil pointer makes the Go runtime panic.  Nothing in
    the sources recovers from a panic, so the call in which it happens
    and all its callers are abandoned at that point: a call that can
    panic either returns a value or does not return at all.  The world
    that comes with [Panics] is the state at the faulting statement. *)
Inductive Outcome (A : Type) : Type :=
| Returns (a : A)
| Panics.

Arguments Returns {A} a.
Arguments Panics {A}.

Inductive LogLevel := LDebug | LNotice | LWarn.

#[global] Instance LogLevel_eq_dec : EqDecision LogLevel.
Proof. solve_decision. Defined.

(** A log line: its level and its format string (the arguments of the
    format are not kept). *)
Definition LogEntry : Type := LogLevel * string.

(** ** Configuration records *)

(** [JetStreamConfig]: the server's budget, in bytes. *)
Record JetStreamConfig := mkJetStreamConfig {
  cfg_MaxMemory : Z;
  cfg_MaxStore : Z;
  cfg_StoreDir : string;
}.

Record JetStreamAccountLimits := mkLimits {
  MaxMemory : Z;
  MaxStore : Z;
  MaxStreams : Z;
  MaxConsumers : Z;
}.

#[global] Instance JetStreamConfig_eq_dec : EqDecision JetStreamConfig.
Proof. solve_decision. Defined.
#[global] Instance JetStreamAccountLimits_eq_dec : EqDecision JetStreamAccountLimits.
Proof. solve_decision. Defined.

Inductive StorageType := MemoryStorage | FileStorage.

#[global] Instance StorageType_eq_dec : EqDecision StorageType.
Proof. solve_decision. Defined.

(** [StreamConfig] is declared in a file that is not part of the sources;
    these are the fields [jetstream.go] reads and writes. *)
Record StreamConfig := mkStreamConfig {
  sc_Name : string;
  sc_Subjects : list string;
  sc_Storage : StorageType;
  sc_MaxBytes : Z;
  sc_Replicas : Z;
  sc_MaxConsumers : Z;
  sc_Template : string;
}.

#[global] Instance StreamConfig_eq_dec : EqDecision StreamConfig.
Proof. solve_decision. Defined.

Definition sc_set_Name (n : string) (c : StreamConfig) : StreamConfig :=
  mkStreamConfig n (sc_Subjects c) (sc_Storage c) (sc_MaxBytes c)
                 (sc_Replicas c) (sc_MaxConsumers c) (sc_Template c).
Definition sc_set_Subjects (s : list string) (c : StreamConfig) : StreamConfig :=
  mkStreamConfig (sc_Name c) s (sc_Storage c) (sc_MaxBytes c)
                 (sc_Replicas c) (sc_MaxConsumers c) (sc_Template c).
Definition sc_set_MaxConsumers (n : Z) (c : StreamConfig) : StreamConfig :=
  mkStreamConfig (sc_Name c) (sc_Subjects c) (sc_Storage c) (sc_MaxBytes c)
                 (sc_Replicas c) n (sc_Template c).
Definition sc_set_Template (t : string) (c : StreamConfig) : StreamConfig :=
  mkStreamConfig (sc_Name c) (sc_Subjects c) (sc_Storage c) (sc_MaxBytes c)
                 (sc_Replicas c) (sc_MaxConsumers c) t.

(** [ConsumerConfig] is declared outside the sources too; recovery only
    decodes it and hands it to [AddConsumer]. *)
Record ConsumerConfig := mkConsumerConfig {
  cc_Durable : string;
  cc_DeliverSubject : string;
}.

#[global] Instance ConsumerConfig_eq_dec : EqDecision ConsumerConfig.
Proof. solve_decision. Defined.

(** [Config] is a pointer ([*StreamConfig]): it is nil in a value that
    was decoded from a document without a [config] member. *)
Record StreamTemplateConfig := mkStreamTemplateConfig {
  tc_Name : string;
  tc_Config : option StreamConfig;
  tc_MaxStreams : N;
}.

#[global] Instance StreamTemplateConfig_eq_dec : EqDecision StreamTemplateConfig.
Proof. solve_decision. Defined.

(** ** The request subjects exported to every account *)

Definition JetStreamEnabled : string := "$JS.ENABLED".
Definition JetStreamInfo : string := "$JS.INFO".
Definition JetStreamCreateTemplate : string := "$JS.TEMPLATE.*.CREATE".
Definition JetStreamListTemplates : string := "$JS.TEMPLATES.LIST".
Definition JetStreamTemplateInfo : string := "$JS.TEMPLATE.*.INFO".
Definition JetStreamDeleteTemplate : string := "$JS.TEMPLATE.*.DELETE".
Definition JetStreamCreateStream : string := "$JS.STREAM.*.CREATE".
Definition JetStreamListStreams : string := "$JS.STREAM.LIST".
Definition JetStreamStreamInfo : string := "$JS.STREAM.*.INFO".
Definition JetStreamDeleteStream : string := "$JS.STREAM.*.DELETE".
Definition JetStreamPurgeStream : string := "$JS.STREAM.*.PURGE".
Definition JetStreamDeleteMsg : string := "$JS.STREAM.*.MSG.DELETE".
Definition JetStreamCreateConsumer : string := "$JS.STREAM.*.CONSUMER.*.CREATE".
Definition JetStreamCreateEphemeralConsumer : string :=
  "$JS.STREAM.*.EPHEMERAL.CONSUMER.CREATE".
Definition JetStreamConsumers : string := "$JS.STREAM.*.CONSUMERS".
Definition JetStreamConsumerInfo : string := "$JS.STREAM.*.CONSUMER.*.INFO".
Definition JetStreamDeleteConsumer : string := "$JS.STREAM.*.CONSUMER.*.DELETE".

Definition allJsExports : list string :=
  [ JetStreamEnabled; JetStreamInfo; JetStreamCreateTemplate;
    JetStreamListTemplates; JetStreamTemplateInfo; JetStreamDeleteTemplate;
    JetStreamCreateStream; JetStreamListStreams; JetStreamStreamInfo;
    JetStreamDeleteStream; JetStreamPurgeStream; JetStreamDeleteMsg;
    JetStreamCreateConsumer; JetStreamCreateEphemeralConsumer;
    JetStreamConsumers; JetStreamConsumerInfo; JetStreamDeleteConsumer ].

#[global] Arguments allJsExports : simpl never.

(** ** Names *)

Definition dot : ascii := "."%char.
Definition underscore : ascii := "_"%char.

(** [strings.ReplaceAll(name, ".", "_")]: both patterns are one byte
    long, so the replacement works byte by byte. *)
Fixpoint CanonicalName (name : string) : string :=
  match name with
  | EmptyString => EmptyString
  | String c rest =>
      String (if Ascii.eqb c dot then underscore else c) (CanonicalName rest)
  end.

Fixpoint ContainsAny (s : string) (chars : list ascii) : bool :=
  match s with
  | EmptyString => false
  | String c rest => bool_decide (c ∈ chars) || ContainsAny rest chars
  end.

Definition isValidName (name : string) : bool :=
  if decide (name = "") then false
  else negb (ContainsAny name [dot; "*"%char; ">"%char]).

(** [encoding/hex]: two lowercase digits per byte. *)
Definition hex_digit (n : nat) : ascii :=
  nth n ["0"; "1"; "2"; "3"; "4"; "5"; "6"; "7";
         "8"; "9"; "a"; "b"; "c"; "d"; "e"; "f"]%char "0"%char.

Fixpoint hex_EncodeToString (src : string) : string :=
  match src with
  | EmptyString => EmptyString
  | String c rest =>
      let n := nat_of_ascii c in
      String (hex_digit (n / 16)) (String (hex_digit (n mod 16))
             (hex_EncodeToString rest))
  end.

(** [strings.Join]. *)
Fixpoint strings_Join (elems : list string) (sep : string) : string :=
  match elems with
  | [] => ""
  | [e] => e
  | e :: rest => e +:+ sep +:+ strings_Join rest sep
  end.

(** The elements of a path: the text between its slashes, [cur] being
    the element read so far. *)
Fixpoint path_elements (p : string) (cur : string) : list string :=
  match p with
  | EmptyString => [cur]
  | String c rest =>
      if Ascii.eqb c "/" then cur :: path_elements rest ""
      else path_elements rest (cur +:+ String c "")
  end.

(** One element of [path.Clean]'s scan.  [out] holds the elements kept
    so far, the last one first.  An empty element and [.] are dropped;
    [..] takes back the last element kept unless there is none or it is a
    [..] itself, in which case it is kept in a relative path and dropped
    in a rooted one. *)
Definition path_clean_step (rooted : bool) (out : list string) (e : string)
    : list string :=
  if bool_decide (e = "") || bool_decide (e = ".") then out
  else if bool_decide (e = "..") then
    match out with
    | top :: rest =>
        if bool_decide (top = "..") then e :: out else rest
    | [] => if rooted then [] else [e]
    end
  else e :: out.

(** [path.Clean]: the shortest path that names the same file by purely
    lexical processing. *)
Definition path_Clean (p : string) : string :=
  match p with
  | EmptyString => "."
  | String c _ =>
      let rooted := Ascii.eqb c "/" in
      let out := rev (fold_left (path_clean_step rooted) (path_elements p "") []) in
      match rooted, out with
      | true, _ => "/" +:+ strings_Join out "/"
      | false, [] => "."
      | false, _ => strings_Join out "/"
      end
  end.

(** [path.Join]: the elements from the first one that is not empty on,
    separated by slashes, and the result cleaned; the empty string when
    every element is empty. *)
Fixpoint path_Join (elems : list string) : string :=
  match elems with
  | [] => ""
  | e :: rest =>
      if bool_decide (e = "") then path_Join rest
      else path_Clean (strings_Join elems "/")
  end.

#[global] Arguments path_Join : simpl never.

(** Modelled from the spec: the file and directory names of the on-disk
    layout (section 6.2); the constants are declared outside the sources. *)
Definition JetStreamMetaFile : string := "meta.inf".
Definition JetStreamMetaFileSum : string := "meta.sum".
Definition streamsDir : string := "streams".
Definition tmplsDir : string := "templates".
Definition msgDir : string := "msgs".
Definition consumerDir : string := "consumers".

(** ** Objects *)

Definition loc : Type := positive.

(** A stream handle ([*Stream]): the account state it lives in and its
    configuration.  The type is declared outside the sources. *)
Record Stream := mkStream {
  stream_jsa : loc;
  stream_config : StreamConfig;
}.

(** A consumer handle ([*Consumer]), declared outside the sources. *)
Record Consumer := mkConsumer {
  consumer_stream : string;
  consumer_config : ConsumerConfig;
}.

(** The two [TemplateStore] implementations. *)
Inductive TemplateStore :=
| templateFileStore (storeDir : string)
| templateMemStore.

#[global] Instance TemplateStore_eq_dec : EqDecision TemplateStore.
Proof. solve_decision. Defined.

Definition newTemplateFileStore (storeDir : string) : TemplateStore :=
  templateFileStore storeDir.
Definition newTemplateMemStore : TemplateStore := templateMemStore.

(** [jetStream]: the server-wide ledger.  [accounts] is keyed by the
    account (its name); the value is the address of its [jsAccount]. *)
Record jetStream := mkJetStream {
  js_config : JetStreamConfig;
  js_accounts : gmap string loc;
  js_memReserved : Z;
  js_storeReserved : Z;
}.

(** [jsAccount].  [templates] is a Go map that is [nil] until the first
    template is added, hence the [option]. *)
Record jsAccount := mkJsAccount {
  jsa_account : string;
  jsa_limits : JetStreamAccountLimits;
  jsa_memReserved : Z;
  jsa_memUsed : Z;
  jsa_storeReserved : Z;
  jsa_storeUsed : Z;
  jsa_storeDir : string;
  jsa_streams : gmap string Stream;
  jsa_templates : option (gmap string loc);
  jsa_store : option TemplateStore;
}.

(** [StreamTemplate]: [tc] tells whether the template still holds its
    internal client. *)
Record StreamTemplate := mkStreamTemplate {
  t_tc : bool;
  t_jsa : option loc;
  t_cfg : StreamTemplateConfig;
  t_streams : list string;
}.

(** The part of [Account] that JetStream uses: the server back-pointer
    (set or nil), the [js] pointer and the service imports. *)
Record Account := mkAccount {
  acc_srv : bool;
  acc_js : option loc;
  acc_imports : gset string;
}.

Definition jsa_set_limits (l : JetStreamAccountLimits) (j : jsAccount) : jsAccount :=
  mkJsAccount (jsa_account j) l (jsa_memReserved j) (jsa_memUsed j)
    (jsa_storeReserved j) (jsa_storeUsed j) (jsa_storeDir j) (jsa_streams j)
    (jsa_templates j) (jsa_store j).
Definition jsa_set_streams (s : gmap string Stream) (j : jsAccount) : jsAccount :=
  mkJsAccount (jsa_account j) (jsa_limits j) (jsa_memReserved j) (jsa_memUsed j)
    (jsa_storeReserved j) (jsa_storeUsed j) (jsa_storeDir j) s
    (jsa_templates j) (jsa_store j).
Definition jsa_set_templates (t : option (gmap string loc)) (j : jsAccount) : jsAccount :=
  mkJsAccount (jsa_account j) (jsa_limits j) (jsa_memReserved j) (jsa_memUsed j)
    (jsa_storeReserved j) (jsa_storeUsed j) (jsa_storeDir j) (jsa_streams j)
    t (jsa_store j).
Definition jsa_set_store (s : option TemplateStore) (j : jsAccount) : jsAccount :=
  mkJsAccount (jsa_account j) (jsa_limits j) (jsa_memReserved j) (jsa_memUsed j)
    (jsa_storeReserved j) (jsa_storeUsed j) (jsa_storeDir j) (jsa_streams j)
    (jsa_templates j) s.

Definition t_set_tc (b : bool) (t : StreamTemplate) : StreamTemplate :=
  mkStreamTemplate b (t_jsa t) (t_cfg t) (t_streams t).
Definition t_set_streams (s : list string) (t : StreamTemplate) : StreamTemplate :=
  mkStreamTemplate (t_tc t) (t_jsa t) (t_cfg t) s.

Definition acc_set_js (j : option loc) (a : Account) : Account :=
  mkAccount (acc_srv a) j (acc_imports a).
Definition acc_set_imports (i : gset string) (a : Account) : Account :=
  mkAccount (acc_srv a) (acc_js a) i.

Definition js_set_accounts (m : gmap string loc) (js : jetStream) : jetStream :=
  mkJetStream (js_config js) m (js_memReserved js) (js_storeReserved js).

(** ** The resource ledger (callers hold the ledger lock) *)

Definition dynamicAccountLimits (js : jetStream) : JetStreamAccountLimits :=
  mkLimits (cfg_MaxMemory (js_config js)) (cfg_MaxStore (js_config js)) (-1) (-1).

Definition sufficientResources (js : jetStream)
    (limits : option JetStreamAccountLimits) : option error :=
  match limits with
  | None => None
  | Some limits =>
      if Int64.add (js_memReserved js) (MaxMemory limits)
           >? cfg_MaxMemory (js_config js)
      then Some (Errorf "insufficient memory resources available")
      else if Int64.add (js_storeReserved js) (MaxStore limits)
                >? cfg_MaxStore (js_config js)
      then Some (Errorf "insufficient storage resources available")
      else None
  end.

Definition reserveResources (js : jetStream)
    (limits : option JetStreamAccountLimits) : jetStream :=
  match limits with
  | None => js
  | Some limits =>
      let mem := if MaxMemory limits >? 0
                 then Int64.add (js_memReserved js) (MaxMemory limits)
                 else js_memReserved js in
      let store := if MaxStore limits >? 0
                   then Int64.add (js_storeReserved js) (MaxStore limits)
                   else js_storeReserved js in
      mkJetStream (js_config js) (js_accounts js) mem store
  end.

Definition releaseResources (js : jetStream)
    (limits : option JetStreamAccountLimits) : jetStream :=
  match limits with
  | None => js
  | Some limits =>
      let mem := if MaxMemory limits >? 0
                 then Int64.sub (js_memReserved js) (MaxMemory limits)
                 else js_memReserved js in
      let store := if MaxStore limits >? 0
                   then Int64.sub (js_storeReserved js) (MaxStore limits)
                   else js_storeReserved js in
      mkJetStream (js_config js) (js_accounts js) mem store
  end.

(** The composite literal leaves [MaxStreams] and [MaxConsumers] at their
    zero value. *)
Definition diffCheckedLimits (a b : JetStreamAccountLimits) : JetStreamAccountLimits :=
  mkLimits (Int64.sub (MaxMemory b) (MaxMemory a))
           (Int64.sub (MaxStore b) (MaxStore a)) 0 0.

(** [checkLimits] writes [config.MaxConsumers] through its pointer
    argument, so the function returns the configuration as the caller
    sees it afterwards, next to the error. *)
Definition checkLimits (jsa : jsAccount) (config : StreamConfig)
    : StreamConfig * option error :=
  if (MaxStreams (jsa_limits jsa) >? 0)
     && (Z.of_nat (size (jsa_streams jsa)) >=? MaxStreams (jsa_limits jsa))
  then (config, Some (Errorf "maximum number of streams reached"))
  else if negb (sc_Replicas config =? 1)
  then (config, Some (ErrorfInt "replicas setting of %d not allowed"
                                (sc_Replicas config)))
  else if (sc_MaxConsumers config >? 0)
          && (sc_MaxConsumers config >? MaxConsumers (jsa_limits jsa))
  then (config, Some (Errorf "maximum consumers exceeds account limit"))
  else
    let config := sc_set_MaxConsumers (MaxConsumers (jsa_limits jsa)) config in
    if sc_MaxBytes config >? 0 then
      let mb := Int64.mul (sc_MaxBytes config) (sc_Replicas config) in
      match sc_Storage config with
      | MemoryStorage =>
          if Int64.add (jsa_memReserved jsa) mb >? MaxMemory (jsa_limits jsa)
          then (config, Some (Errorf "insufficient memory resources available"))
          else (config, None)
      | FileStorage =>
          if Int64.add (jsa_storeReserved jsa) mb >? MaxStore (jsa_limits jsa)
          then (config, Some (Errorf "insufficient storage resources available"))
          else (config, None)
      end
    else (config, None).

(** ** The world the operations run in *)

Section Model.

(** The state of the collaborators (file system, broker, stream and
    consumer stores), about which nothing is assumed. *)
Context {Ext : Type}.

(** Calls into the parts of the repository that are not in the sources,
    recorded with their outcome. *)
Inductive Call :=
| CallAddStream (account : string) (cfg : StreamConfig) (err : option error)
| CallStreamDelete (name : string) (err : option error)
| CallStreamStop (name : string)
| CallProcessInboundJetStreamMsg (name subject : string)
| CallAddConsumer (stream : string) (cfg : ConsumerConfig) (err : option error)
| CallReadStoredState (stream : string) (cfg : ConsumerConfig) (err : option error)
| CallStoreStore (store : TemplateStore) (template : string) (err : option error)
| CallStoreDelete (store : TemplateStore) (template : string) (err : option error)
| CallCloseConnection (template : string).

Record World := mkWorld {
  w_js : option jetStream;               (* s.js *)
  w_accounts : gmap string Account;      (* the accounts, by name *)
  w_jsas : gmap loc jsAccount;           (* the jsAccount objects *)
  w_tmpls : gmap loc StreamTemplate;     (* the StreamTemplate objects *)
  w_log : list LogEntry;
  w_calls : list Call;
  w_ext : Ext;
}.

Definition set_js (x : option jetStream) (w : World) : World :=
  mkWorld x (w_accounts w) (w_jsas w) (w_tmpls w) (w_log w) (w_calls w) (w_ext w).
Definition set_accounts (x : gmap string Account) (w : World) : World :=
  mkWorld (w_js w) x (w_jsas w) (w_tmpls w) (w_log w) (w_calls w) (w_ext w).
Definition set_jsas (x : gmap loc jsAccount) (w : World) : World :=
  mkWorld (w_js w) (w_accounts w) x (w_tmpls w) (w_log w) (w_calls w) (w_ext w).
Definition set_tmpls (x : gmap loc StreamTemplate) (w : World) : World :=
  mkWorld (w_js w) (w_accounts w) (w_jsas w) x (w_log w) (w_calls w) (w_ext w).
Definition set_log (x : list LogEntry) (w : World) : World :=
  mkWorld (w_js w) (w_accounts w) (w_jsas w) (w_tmpls w) x (w_calls w) (w_ext w).
Definition set_calls (x : list Call) (w : World) : World :=
  mkWorld (w_js w) (w_accounts w) (w_jsas w) (w_tmpls w) (w_log w) x (w_ext w).
Definition set_ext (x : Ext) (w : World) : World :=
  mkWorld (w_js w) (w_accounts w) (w_jsas w) (w_tmpls w) (w_log w) (w_calls w) x.

(** Zero values, read through a handle that was never written. *)
Definition zeroAccount : Account := mkAccount false None ∅.
Definition zeroJsAccount : jsAccount :=
  mkJsAccount "" (mkLimits 0 0 0 0) 0 0 0 0 "" ∅ None None.
Definition zeroStreamConfig : StreamConfig :=
  mkStreamConfig "" [] MemoryStorage 0 0 0 "".
Definition zeroTemplate : StreamTemplate :=
  mkStreamTemplate false None (mkStreamTemplateConfig "" None 0%N) [].

Definition getAccount (a : string) (w : World) : Account :=
  default zeroAccount (w_accounts w !! a).
Definition jsaAt (l : loc) (w : World) : jsAccount :=
  default zeroJsAccount (w_jsas w !! l).
Definition tmplAt (t : loc) (w : World) : StreamTemplate :=
  default zeroTemplate (w_tmpls w !! t).

Definition updAccount (a : string) (f : Account -> Account) (w : World) : World :=
  set_accounts (<[a := f (getAccount a w)]> (w_accounts w)) w.
Definition updJsa (l : loc) (f : jsAccount -> jsAccount) (w : World) : World :=
  set_jsas (<[l := f (jsaAt l w)]> (w_jsas w)) w.
Definition updTmpl (t : loc) (f : StreamTemplate -> StreamTemplate) (w : World) : World :=
  set_tmpls (<[t := f (tmplAt t w)]> (w_tmpls w)) w.

(** *** A state monad over the world *)

Definition M (A : Type) : Type := World -> World * A.

Definition ret {A} (a : A) : M A := fun w => (w, a).
Definition bind {A B} (m : M A) (k : A -> M B) : M B :=
  fun w => let (w', a) := m w in k a w'.
Definition modify (f : World -> World) : M unit := fun w => (f w, tt).

Notation "'do' x <- m ; k" := (bind m (fun x => k))
  (at level 10, x name, m at level 100, k at level 200).
Notation "'do_' m ; k" := (bind m (fun _ => k))
  (at level 10, m at level 100, k at level 200).

Definition logf (lvl : LogLevel) (fmt : string) : M unit :=
  modify (fun w => set_log (w_log w ++ [(lvl, fmt)]) w).
Definition Warnf := logf LWarn.
Definition Noticef := logf LNotice.
Definition Debugf := logf LDebug.

(** Runs a collaborator and records the call with its outcome; the
    record of calls is the model's own, a collaborator cannot edit it. *)
Definition invoke {A} (mk : A -> Call) (f : World -> World * A) : M A :=
  fun w => let (w', r) := f w in (set_calls (w_calls w ++ [mk r]) w', r).

(** A collaborator that only sees its own state. *)
Definition onExt {A} (f : Ext -> Ext * A) : World -> World * A :=
  fun w => let (ext, r) := f (w_ext w) in (set_ext ext w, r).

Definition err_of {A} (r : error + A) : option error :=
  match r with inl e => Some e | inr _ => None end.

(** *** Collaborators *)

Inductive StatResult :=
| StatNotExist            (* an error for which os.IsNotExist holds *)
| StatError               (* any other error *)
| StatOk (isDir : bool).

(** What [jetstream.go] calls and the sources do not define: the
    standard library (hashing, files, JSON), the broker, and the stream,
    consumer and template-store code of the repository. *)
Record Externals := mkExternals {
  sha256_Sum256 : string -> string;
  sha256_Size : forall s, String.length (sha256_Sum256 s) = 32%nat;
  (* the 8-byte HighwayHash sum of [data] under [key] *)
  highwayhash_Sum64 : string -> string -> string;

  os_Stat : string -> Ext -> StatResult;
  ioutil_ReadFile : string -> Ext -> error + string;
  ioutil_ReadDir : string -> Ext -> list string;
  os_MkdirAll : string -> Ext -> Ext * option error;
  os_Rename : string -> string -> Ext -> Ext;

  json_Unmarshal_StreamTemplateConfig : string -> error + StreamTemplateConfig;
  json_Unmarshal_StreamConfig : string -> error + StreamConfig;
  json_Unmarshal_ConsumerConfig : string -> error + ConsumerConfig;

  (* whether the broker refuses the service import *)
  serviceImportError : string -> string -> Ext -> option error;
  eventsEnabled : Ext -> bool;
  processSub : string -> nat -> Ext -> Ext * option error;

  checkStreamCfg : StreamConfig -> error + StreamConfig;
  AddStream : string -> StreamConfig -> World -> World * (error + Stream);
  Stream_Delete : Stream -> World -> World * option error;
  Stream_stop : Stream -> World -> World;
  Stream_processInboundJetStreamMsg :
    Stream -> string -> string -> string -> World -> World;
  Stream_AddConsumer :
    Stream -> ConsumerConfig -> World -> World * (error + Consumer);
  Consumer_readStoredState : Consumer -> World -> World * option error;
  (* the two stores persist and forget a template by its configuration *)
  TemplateStore_Store :
    TemplateStore -> StreamTemplateConfig -> Ext -> Ext * option error;
  TemplateStore_Delete :
    TemplateStore -> StreamTemplateConfig -> Ext -> Ext * option error;
}.

Context (E : Externals).

(** Modelled from the spec: [Account.AddServiceImport] and
    [Account.removeServiceImport] are not in the sources; an import that
    the broker accepts is recorded under its subject, and removing it
    forgets the subject (sections 4.7 and 6.3). *)
Definition AddServiceImport (a export : string) : M (option error) :=
  fun w =>
    match serviceImportError E a export (w_ext w) with
    | Some err => (w, Some err)
    | None =>
        (updAccount a (fun acc => acc_set_imports ({[export]} ∪ acc_imports acc) acc) w,
         None)
    end.

Definition removeServiceImport (a export : string) : M unit :=
  modify (updAccount a (fun acc => acc_set_imports (acc_imports acc ∖ {[export]}) acc)).

(** *** Lookups *)

Definition lookupAccount (js : jetStream) (a : string) : option loc :=
  js_accounts js !! a.

Definition LookupStream (a name : string) (w : World) : error + Stream :=
  match acc_js (getAccount a w) with
  | None => inl (Errorf "jetstream not enabled")
  | Some jsa =>
      match jsa_streams (jsaAt jsa w) !! name with
      | Some mset => inr mset
      | None => inl (Errorf "stream not found")
      end
  end.

Definition checkForJetStream (a : string) (w : World) : error + loc :=
  let acc := getAccount a w in
  if negb (acc_srv acc) then inl (Errorf "jetstream account not registered")
  else match acc_js acc with
       | None => inl (Errorf "jetstream not enabled for account")
       | Some jsa => inr jsa
       end.

Definition LookupStreamTemplate (a name : string) (w : World) : error + loc :=
  match checkForJetStream a w with
  | inl err => inl err
  | inr jsa =>
      match jsa_templates (jsaAt jsa w) with
      | None => inl (Errorf "no template found")
      | Some templates =>
          match templates !! name with
          | Some t => inr t
          | None => inl (Errorf "no template found")
          end
      end
  end.

(** *** Templates *)

Definition resolves (a : string) (w : World) (sname : string) : bool :=
  match LookupStream a sname w with inr _ => true | inl _ => false end.

(** Keeps the names of [t.streams] that [LookupStream] finds. *)
Definition validateStreams (a : string) (t : loc) : M unit :=
  modify (fun w =>
    updTmpl t (t_set_streams (List.filter (resolves a w) (t_streams (tmplAt t w)))) w).

(** "Will add a stream to a template, this is for recovery." *)
Definition addStreamNameToTemplate (jsa : loc) (tname mname : string)
    : M (option error) :=
  fun w =>
    match jsa_templates (jsaAt jsa w) with
    | None => (w, Some (Errorf "no template found"))
    | Some templates =>
        match templates !! tname with
        | None => (w, Some (Errorf "no template found"))
        | Some t =>
            (updTmpl t (fun tm => t_set_streams (t_streams tm ++ [mname]) tm) w, None)
        end
    end.


(** The loop at the end of [Delete]: every stream is deleted, the last
    error is kept. *)
Fixpoint deleteStreams (streams : list Stream) (lastErr : option error)
    : M (option error) :=
  match streams with
  | [] => ret lastErr
  | mset :: rest =>
      do err <- invoke (CallStreamDelete (sc_Name (stream_config mset)))
                       (Stream_Delete E mset);
      deleteStreams rest (match err with Some _ => err | None => lastErr end)
  end.

(** The streams of [t.streams] that [LookupStream] finds, in order. *)
Definition lookupStreams (a : string) (names : list string) (w : World) : list Stream :=
  omap (fun name => match LookupStream a name w with
                    | inr mset => Some mset
                    | inl _ => None
                    end) names.

(** [StreamTemplate.Delete] for a non-nil [t].  The deferred function
    closes the client on every way out. *)
Definition Delete (t : loc) : M (option error) :=
  fun w =>
    let tm := tmplAt t w in
    let jsa := t_jsa tm in
    let c := t_tc tm in
    let tname := tc_Name (t_cfg tm) in
    let w := updTmpl t (t_set_tc false) w in
    let closing : M unit :=
      if c then modify (fun w => set_calls (w_calls w ++ [CallCloseConnection tname]) w)
      else ret tt in
    let leave (r : option error) : M (option error) := do_ closing; ret r in
    match jsa with
    | None => leave (Some (Errorf "jetstream not enabled")) w
    | Some jsa =>
        match jsa_templates (jsaAt jsa w) with
        | None => leave (Some (Errorf "no template found")) w
        | Some templates =>
            match templates !! tname with
            | None => leave (Some (Errorf "no template found")) w
            | Some _ =>
                let w := updJsa jsa (jsa_set_templates (Some (delete tname templates))) w in
                let acc := jsa_account (jsaAt jsa w) in
                let streams := lookupStreams acc (t_streams (tmplAt t w)) w in
                let cascade : M (option error) :=
                  do r <- deleteStreams streams None; leave r in
                match jsa_store (jsaAt jsa w) with
                | None => cascade w
                | Some store =>
                    (do err <- invoke (CallStoreDelete store tname)
                                      (onExt (TemplateStore_Delete E store (t_cfg tm)));
                     match err with
                     | Some err =>
                         leave (Some (ErrorfErr "error deleting template from store: %v" err))
                     | None => cascade
                     end) w
                end
            end
        end
    end.

Definition DeleteStreamTemplate (a name : string) : M (option error) :=
  fun w =>
    match LookupStreamTemplate a name w with
    | inl err => (w, Some err)
    | inr t => Delete t w
    end.

(** The subscription loop of [createTemplateSubscriptions]. *)
Fixpoint subscribeAll (a tname : string) (subjects : list string) (sid : nat)
    : M (option error) :=
  match subjects with
  | [] => ret None
  | subject :: rest =>
      do err <- onExt (processSub E subject sid);
      match err with
      | Some err => do_ DeleteStreamTemplate a tname; ret (Some err)
      | None => subscribeAll a tname rest (S sid)
      end
  end.

(** [createTemplateSubscriptions] for a non-nil [t]; [a] is the account
    the template's client is registered with.  The loop ranges over
    [t.Config.Subjects], which dereferences [t.Config]. *)
Definition createTemplateSubscriptions (a : string) (t : loc)
    : M (Outcome (option error)) :=
  fun w =>
    let tm := tmplAt t w in
    if negb (t_tc tm) then (w, Returns (Some (Errorf "template not enabled")))
    else if negb (eventsEnabled E (w_ext w)) then (w, Returns (Some ErrNoSysAccount))
    else
      match tc_Config (t_cfg tm) with
      | None => (w, Panics)
      | Some config =>
          (do err <- subscribeAll a (tc_Name (t_cfg tm)) (sc_Subjects config) 1;
           ret (Returns err)) w
      end.

(** The end of [AddStreamTemplate], after the template has been put in
    the map: subscribe, then persist. *)
Definition subscribeAndStore (a : string) (jsa t : loc) (tcopy : StreamTemplateConfig)
    : M (Outcome (error + loc)) :=
  (* Setup the internal subscriptions to trap the messages. *)
  do err <- createTemplateSubscriptions a t;
  match err with
  | Panics => ret Panics
  | Returns (Some err) => ret (Returns (inl err))
  | Returns None =>
      fun w =>
        match jsa_store (jsaAt jsa w) with
        | None => (w, Returns (inr t))   (* unreachable: the store is set with the map *)
        | Some store =>
            (do err <- invoke (CallStoreStore store (tc_Name tcopy))
                              (onExt (TemplateStore_Store E store tcopy));
             match err with
             | Some err => do_ Delete t; ret (Returns (inl err))
             | None => ret (Returns (inr t))
             end) w
        end
  end.

(** [AddStreamTemplate] for a non-nil [tc].  The test of
    [tc.Config.Name] dereferences [tc.Config]. *)
Definition AddStreamTemplate (a : string) (tc : StreamTemplateConfig)
    : M (Outcome (error + loc)) :=
  fun w0 =>
    let w := w0 in
    match checkForJetStream a w with
    | inl err => (w, Returns (inl err))
    | inr jsa =>
      match tc_Config tc with
      | None => (w, Panics)
      | Some config =>
        if negb (bool_decide (sc_Name config = ""))
        then (w, Returns (inl (Errorf "template config name should be empty")))
        else
          match checkStreamCfg E (sc_set_Name "_" config) with
          | inl err => (w, Returns (inl err))
          | inr cfg =>
              let tcopy := mkStreamTemplateConfig (tc_Name tc) (Some cfg) (tc_MaxStreams tc) in
              let t := fresh (dom (w_tmpls w)) in
              let w := set_tmpls (<[t := mkStreamTemplate true (Some jsa) tcopy []]>
                                    (w_tmpls w)) w in
              let register (templates : gmap string loc) (w : World) : World :=
                updJsa jsa (jsa_set_templates (Some (<[tc_Name tcopy := t]> templates))) w in
              match jsa_templates (jsaAt jsa w) with
              | None =>
                  (* Create the appropriate store *)
                  let store := match sc_Storage cfg with
                               | FileStorage => newTemplateFileStore (jsa_storeDir (jsaAt jsa w))
                               | MemoryStorage => newTemplateMemStore
                               end in
                  let w := updJsa jsa (jsa_set_store (Some store)) w in
                  subscribeAndStore a jsa t tcopy (register ∅ w)
              | Some templates =>
                  match templates !! tc_Name tcopy with
                  | Some _ =>
                      (* the new object is dropped *)
                      (w0, Returns (inl (ErrorfStr "template with name %q already exists"
                                                   (tc_Name tcopy))))
                  | None => subscribeAndStore a jsa t tcopy (register templates w)
                  end
              end
          end
      end
    end.

(** The dispatcher, for a non-nil [t].  It is the callback of the
    subscriptions of the template's client, so the client is there when
    it runs and the warnings reach the log.  The copy [cfg := *t.Config]
    dereferences [t.Config]. *)
Definition processInboundTemplateMsg (t : loc) (subject reply msg : string)
    : M (Outcome unit) :=
  fun w =>
    match t_jsa (tmplAt t w) with
    | None => (w, Returns tt)
    | Some jsa =>
        let cn := CanonicalName subject in
        match jsa_streams (jsaAt jsa w) !! cn with
        | Some _ => (w, Returns tt)
        | None =>
            let acc := jsa_account (jsaAt jsa w) in
            let tm := tmplAt t w in
            match tc_Config (t_cfg tm) with
            | None => (w, Panics)
            | Some config =>
            let cfg := sc_set_Template (tc_Name (t_cfg tm)) config in
            let atLimit :=
              Z.of_nat (length (t_streams tm)) >=? Z.of_N (tc_MaxStreams (t_cfg tm)) in
            if atLimit then
              (do_ Warnf "JetStream could not create stream for account %q on subject %q, at limit";
               ret (Returns tt)) w
            else
              let w := updTmpl t (fun tm => t_set_streams (t_streams tm ++ [cn]) tm) w in
              let cfg := sc_set_Subjects [subject] (sc_set_Name cn cfg) in
              (do r <- invoke (fun r => CallAddStream acc cfg (err_of r))
                              (AddStream E acc cfg);
               match r with
               | inl _ =>
                   do_ validateStreams acc t;
                   do_ Warnf "JetStream could not create stream for account %q on subject %q";
                   ret (Returns tt)
               | inr mset =>
                   do_ invoke (fun _ => CallProcessInboundJetStreamMsg cn subject)
                         (fun w => (Stream_processInboundJetStreamMsg E mset subject reply msg w, tt));
                   ret (Returns tt)
               end) w
            end
        end
    end.

(** *** Account life cycle *)

Fixpoint forEach {A} (f : A -> M unit) (l : list A) : M unit :=
  match l with
  | [] => ret tt
  | x :: rest => do_ f x; forEach f rest
  end.

(** A loop whose body may return from the enclosing function with an
    error. *)
Fixpoint forEachErr {A} (f : A -> M (option error)) (l : list A) : M (option error) :=
  match l with
  | [] => ret None
  | x :: rest =>
      do err <- f x;
      match err with
      | Some err => ret (Some err)
      | None => forEachErr f rest
      end
  end.

(** A loop whose body may panic. *)
Fixpoint forEachOutcome {A} (f : A -> M (Outcome unit)) (l : list A) : M (Outcome unit) :=
  match l with
  | [] => ret (Returns tt)
  | x :: rest =>
      do o <- f x;
      match o with
      | Panics => ret Panics
      | Returns _ => forEachOutcome f rest
      end
  end.

(** [jsAccount.delete].  Go ranges over the two maps in an unspecified
    order; the model takes the order of [map_to_list]. *)
Definition jsa_delete (jsa : loc) : M unit :=
  fun w =>
    let j := jsaAt jsa w in
    let streams := (map_to_list (jsa_streams j)).*2 in
    let acc := jsa_account j in
    let ts := match jsa_templates j with
              | None => []
              | Some templates =>
                  (fun t => tc_Name (t_cfg (tmplAt t w))) <$> (map_to_list templates).*2
              end in
    let w := updJsa jsa (jsa_set_templates None) w in
    (do_ forEach (fun ms => invoke (fun _ => CallStreamStop (sc_Name (stream_config ms)))
                                   (fun w => (Stream_stop E ms w, tt))) streams;
     forEach (fun t => do_ DeleteStreamTemplate acc t; ret tt) ts) w.

(** [jetStream.disableJetStream]; the receiver is the server's ledger. *)
Definition disableJetStream (jsa : option loc) : M (option error) :=
  fun w =>
    match jsa with
    | None => (w, Some (Errorf "jetstream not enabled for account"))
    | Some jsa =>
        let j := jsaAt jsa w in
        let w := set_js ((fun js =>
                    releaseResources
                      (js_set_accounts (delete (jsa_account j) (js_accounts js)) js)
                      (Some (jsa_limits j))) <$> w_js w) w in
        (do_ jsa_delete jsa; ret None) w
    end.

Definition DisableJetStream (a : string) : M (option error) :=
  fun w =>
    let s := acc_srv (getAccount a w) in
    let w := updAccount a (acc_set_js None) w in
    if negb s then (w, Some (Errorf "jetstream account not registered"))
    else
      match w_js w with
      | None => (w, Some (Errorf "jetstream not enabled"))
      | Some _ =>
          (* Remove service imports. *)
          (do_ forEach (removeServiceImport a) allJsExports;
           fun w => disableJetStream (w_js w ≫= fun js => lookupAccount js a) w) w
      end.

Definition UpdateJetStreamLimits (a : string) (limits : option JetStreamAccountLimits)
    : M (option error) :=
  fun w =>
    if negb (acc_srv (getAccount a w))
    then (w, Some (Errorf "jetstream account not registered"))
    else
      match w_js w with
      | None => (w, Some (Errorf "jetstream not enabled"))
      | Some js =>
          match lookupAccount js a with
          | None => (w, Some (Errorf "jetstream not enabled for account"))
          | Some jsa =>
              let limits := match limits with
                            | None => dynamicAccountLimits js
                            | Some limits => limits
                            end in
              (* Calculate the delta between what we have and what we want. *)
              let dl := diffCheckedLimits (jsa_limits (jsaAt jsa w)) limits in
              let jsaLimits := jsa_limits (jsaAt jsa w) in
              (* Check the limits against existing reservations. *)
              match sufficientResources js (Some dl) with
              | Some err => (w, Some err)
              | None =>
                  let js := releaseResources js (Some jsaLimits) in
                  let js := reserveResources js (Some limits) in
                  let w := set_js (Some js) w in
                  (* Update *)
                  (updJsa jsa (jsa_set_limits limits) w, None)
              end
          end
      end.

(** [highwayhash.New64] accepts 32-byte keys only; the hasher it
    returns maps the bytes written since the last [Reset] to their sum. *)
Definition highwayhash_New64 (key : string) : error + (string -> string) :=
  if (String.length key =? 32)%nat then inr (highwayhash_Sum64 E key)
  else inl (Errorf "highwayhash: invalid key size").

(** **** Recovery: one template directory

    The assignment [cfg.Config.Name = _EMPTY_] dereferences the [Config]
    of the decoded value. *)
Definition recoverTemplate (a tdir : string) (hh : string -> string) (fi : string)
    : M (Outcome unit) :=
  fun w =>
    let continue (m : M unit) : World * Outcome unit := (do_ m; ret (Returns tt)) w in
    let metafile := path_Join [tdir; fi; JetStreamMetaFile] in
    let metasum := path_Join [tdir; fi; JetStreamMetaFileSum] in
    match ioutil_ReadFile E metafile (w_ext w) with
    | inl _ => continue (Warnf "  Error reading StreamTemplate metafile %q: %v")
    | inr buf =>
        match os_Stat E metasum (w_ext w) with
        | StatNotExist => continue (Warnf "  Missing StreamTemplate checksum for %q")
        | _ =>
            match ioutil_ReadFile E metasum (w_ext w) with
            | inl _ => continue (Warnf "  Error reading StreamTemplate checksum %q: %v")
            | inr sum =>
                let checksum := hex_EncodeToString (hh buf) in
                if negb (bool_decide (checksum = sum))
                then continue (Warnf "  StreamTemplate checksums do not match %q vs %q")
                else
                  match json_Unmarshal_StreamTemplateConfig E buf with
                  | inl _ => continue (Warnf "  Error unmarshalling StreamTemplate metafile: %v")
                  | inr cfg =>
                      match tc_Config cfg with
                      | None => (w, Panics)
                      | Some config =>
                          let cfg := mkStreamTemplateConfig (tc_Name cfg)
                                       (Some (sc_set_Name "" config)) (tc_MaxStreams cfg) in
                          (do r <- AddStreamTemplate a cfg;
                           match r with
                           | Panics => ret Panics
                           | Returns (inl _) =>
                               do_ Warnf "  Error recreating StreamTemplate %q: %v";
                               ret (Returns tt)
                           | Returns (inr _) => ret (Returns tt)
                           end) w
                      end
                  end
            end
        end
    end.

(** **** Recovery: one consumer directory of a recovered stream *)
Definition recoverConsumer (odir : string) (mset : Stream) (ofi : string) : M unit :=
  fun w =>
    let metafile := path_Join [odir; ofi; JetStreamMetaFile] in
    let metasum := path_Join [odir; ofi; JetStreamMetaFileSum] in
    match os_Stat E metafile (w_ext w) with
    | StatNotExist => Warnf "    Missing Consumer Metafile %q" w
    | _ =>
        match ioutil_ReadFile E metafile (w_ext w) with
        | inl _ => Warnf "    Error reading consumer metafile %q: %v" w
        | inr buf =>
            match os_Stat E metasum (w_ext w) with
            | StatNotExist => Warnf "    Missing Consumer checksum for %q" w
            | _ =>
                match json_Unmarshal_ConsumerConfig E buf with
                | inl _ => Warnf "    Error unmarshalling Consumer metafile: %v" w
                | inr cfg =>
                    let sname := sc_Name (stream_config mset) in
                    (do r <- invoke (fun r => CallAddConsumer sname cfg (err_of r))
                                    (Stream_AddConsumer E mset cfg);
                     match r with
                     | inl _ => Warnf "    Error adding Consumer: %v"
                     | inr obs =>
                         do err <- invoke (CallReadStoredState sname cfg)
                                          (Consumer_readStoredState E obs);
                         match err with
                         | Some _ => Warnf "    Error restoring Consumer state: %v"
                         | None => ret tt
                         end
                     end) w
                end
            end
        end
    end.

(** **** Recovery: one stream directory, with its consumers *)
Definition recoverStream (a : string) (jsa : loc) (sdir : string) (fi : string)
    : M (option error) :=
  fun w =>
    let mdir := path_Join [sdir; fi] in
    let key := sha256_Sum256 E (path_Join [mdir; msgDir]) in
    match highwayhash_New64 key with
    | inl err => (w, Some err)
    | inr hh =>
        let continue (m : M unit) : World * option error := (do_ m; ret None) w in
        let metafile := path_Join [mdir; JetStreamMetaFile] in
        let metasum := path_Join [mdir; JetStreamMetaFileSum] in
        match os_Stat E metafile (w_ext w) with
        | StatNotExist => continue (Warnf "  Missing Stream metafile for %q")
        | _ =>
        match ioutil_ReadFile E metafile (w_ext w) with
        | inl _ => continue (Warnf "  Error reading metafile %q: %v")
        | inr buf =>
        match os_Stat E metasum (w_ext w) with
        | StatNotExist => continue (Warnf "  Missing Stream checksum for %q")
        | _ =>
        match ioutil_ReadFile E metasum (w_ext w) with
        | inl _ => continue (Warnf "  Error reading Stream metafile checksum %q: %v")
        | inr sum =>
            let checksum := hex_EncodeToString (hh buf) in
            if negb (bool_decide (checksum = sum))
            then continue (Warnf "  Stream metafile checksums do not match %q vs %q")
            else
              match json_Unmarshal_StreamConfig E buf with
              | inl _ => continue (Warnf "  Error unmarshalling Stream metafile: %v")
              | inr cfg =>
                  continue
                    (do_ (if bool_decide (sc_Template cfg = "") then ret tt
                          else
                            do err <- addStreamNameToTemplate jsa (sc_Template cfg) (sc_Name cfg);
                            match err with
                            | Some _ => Warnf "  Error adding Stream %q to Template %q: %v"
                            | None => ret tt
                            end);
                     do r <- invoke (fun r => CallAddStream a cfg (err_of r))
                                    (AddStream E a cfg);
                     match r with
                     | inl _ => Warnf "  Error recreating Stream %q: %v"
                     | inr mset =>
                         do_ Noticef "  Restored %s messages for Stream %q";
                         (* Now do Consumers. *)
                         let odir := path_Join [sdir; fi; consumerDir] in
                         fun w =>
                           let ofis := ioutil_ReadDir E odir (w_ext w) in
                           (do_ (if (0 <? length ofis)%nat
                                 then Noticef "  Recovering %d Consumers for Stream - %q"
                                 else ret tt);
                            forEach (recoverConsumer odir mset) ofis) w
                     end)
              end
        end end end end
    end.

(** **** The upgrade of an old directory layout *)
Definition upgradeStoreDir (storeDir sdir : string) : M (option error) :=
  fun w =>
    match os_Stat E sdir (w_ext w) with
    | StatNotExist =>
        (do_ Noticef "  Upgrading storage directory structure for %q";
         fun w =>
           let omdirs := ioutil_ReadDir E storeDir (w_ext w) in
           let (ext, err) := os_MkdirAll E sdir (w_ext w) in
           let w := set_ext ext w in
           match err with
           | Some err =>
               (w, Some (ErrorfErr "could not create storage streams directory - %v" err))
           | None =>
               (do_ forEach (fun fi =>
                       modify (fun w =>
                         set_ext (os_Rename E (path_Join [storeDir; fi])
                                              (path_Join [sdir; fi]) (w_ext w)) w))
                     omdirs;
                ret None) w
           end) w
    | _ => (w, None)
    end.

(** **** The template scan *)
Definition recoverTemplates (a storeDir : string) : M (Outcome (option error)) :=
  fun w =>
    let tdir := path_Join [storeDir; tmplsDir] in
    match os_Stat E tdir (w_ext w) with
    | StatOk true =>
        match highwayhash_New64 (sha256_Sum256 E tdir) with
        | inl err => (w, Returns (Some err))
        | inr hh =>
            let fis := ioutil_ReadDir E tdir (w_ext w) in
            (do o <- forEachOutcome (recoverTemplate a tdir hh) fis;
             match o with
             | Panics => ret Panics
             | Returns _ => ret (Returns None)
             end) w
        end
    | _ => (w, Returns None)
    end.

(** The tail of [Account.EnableJetStream]: everything after the account
    state has been stamped into the account. *)
Definition recoverState (a : string) (jsa : loc) : M (Outcome (option error)) :=
  fun w =>
    let storeDir := jsa_storeDir (jsaAt jsa w) in
    (* Do quick fixup here for new directory structure. *)
    let sdir := path_Join [storeDir; streamsDir] in
    (do err <- upgradeStoreDir storeDir sdir;
     match err with
     | Some err => ret (Returns (Some err))
     | None =>
         (* Restore any state here. *)
         do_ Noticef "  Recovering JetStream state for account %q";
         (* Check templates first since messsage sets will need proper ownership. *)
         do err <- recoverTemplates a storeDir;
         match err with
         | Panics => ret Panics
         | Returns (Some err) => ret (Returns (Some err))
         | Returns None =>
             fun w =>
               let fis := ioutil_ReadDir E sdir (w_ext w) in
               (do err <- forEachErr (recoverStream a jsa sdir) fis;
                match err with
                | Some err => ret (Returns (Some err))
                | None =>
                    do_ Noticef "JetStream state for account %q recovered";
                    ret (Returns None)
                end) w
         end
     end) w.

(** The import loop of [EnableJetStream] and its body. *)
Definition addServiceImportOf (a export : string) : M (option error) :=
  do err <- AddServiceImport a export;
  match err with
  | Some err =>
      ret (Some (ErrorfErr
        "Error setting up jetstream service imports for account: %v" err))
  | None => ret None
  end.

Definition addServiceImports (a : string) : M (option error) :=
  forEachErr (addServiceImportOf a) allJsExports.

Definition EnableJetStream (a : string) (limits : option JetStreamAccountLimits)
    : M (Outcome (option error)) :=
  fun w =>
    if negb (acc_srv (getAccount a w))
    then (w, Returns (Some (Errorf "jetstream account not registered")))
    else
      match w_js w with
      | None => (w, Returns (Some (Errorf "jetstream not enabled")))
      | Some js =>
          (* No limits means we dynamically set up limits. *)
          let limits := match limits with
                        | None => dynamicAccountLimits js
                        | Some limits => limits
                        end in
          (* Check the limits against existing reservations. *)
          match sufficientResources js (Some limits) with
          | Some err => (w, Returns (Some err))
          | None =>
              match js_accounts js !! a with
              | Some _ => (w, Returns (Some (Errorf "jetstream already enabled for account")))
              | None =>
                  let jsa := fresh (dom (w_jsas w)) in
                  let j := mkJsAccount a limits 0 0 0 0
                             (path_Join [cfg_StoreDir (js_config js); a]) ∅ None None in
                  let w := set_jsas (<[jsa := j]> (w_jsas w)) w in
                  let js := js_set_accounts (<[a := jsa]> (js_accounts js)) js in
                  let js := reserveResources js (Some limits) in
                  let w := set_js (Some js) w in
                  (* Stamp inside account as well. *)
                  let w := updAccount a (acc_set_js (Some jsa)) w in
                  (* Create the proper imports here. *)
                  (do err <- addServiceImports a;
                   match err with
                   | Some err => ret (Returns (Some err))
                   | None =>
                       do_ Debugf "Enabled JetStream for account %q";
                       do_ Debugf "  Max Memory:      %s";
                       do_ Debugf "  Max Storage:     %s";
                       recoverState a jsa
                   end) w
              end
          end
      end.

End Model.

Arguments World : clear implicits.
Arguments Externals : clear implicits.
Arguments M : clear implicits.

(** ** Decimal numbers: [parseSize], [parseInt64], [comma]

    The helpers that follow [jetstream.go] in the sources; recovery
    prints the number of restored messages with [comma]. *)

(** Ascii numbers 0-9 *)
Definition asciiZero : Z := 48.
Definition asciiNine : Z := 57.

(** A byte as the number it holds. *)
Definition byte_val (c : ascii) : Z := Z.of_nat (nat_of_ascii c).

(** The [goto] loop of [parseSize], from the byte at [i] on; [n] is the
    value read so far.  The arithmetic is that of [int], 64 bits wide. *)
Fixpoint parseSize_loop (d : string) (n : Z) : Z :=
  match d with
  | EmptyString => n
  | String dec rest =>
      if (byte_val dec <? asciiZero) || (byte_val dec >? asciiNine) then -1
      else parseSize_loop rest
             (Int64.add (Int64.mul n 10) (Int64.sub (byte_val dec) asciiZero))
  end.

Definition maxParseSizeLen : nat := 9.

(** [parseSize] expects decimal positive numbers and returns -1 to
    signal an error. *)
Definition parseSize (d : string) : Z :=
  let l := String.length d in
  if (l =? 0)%nat || (maxParseSizeLen <? l)%nat then -1
  else parseSize_loop d 0.

(** The [range] loop of [parseInt64]. *)
Fixpoint parseInt64_loop (d : string) (n : Z) : Z :=
  match d with
  | EmptyString => n
  | String dec rest =>
      if (byte_val dec <? asciiZero) || (byte_val dec >? asciiNine) then -1
      else parseInt64_loop rest
             (Int64.add (Int64.mul n 10) (Int64.sub (byte_val dec) asciiZero))
  end.

(** [parseInt64] expects decimal positive numbers and returns -1 to
    signal an error. *)
Definition parseInt64 (d : string) : Z :=
  if (String.length d =? 0)%nat then -1 else parseInt64_loop d 0.

(** [strconv.FormatInt(i, 10)] and [strconv.Itoa]: the decimal digits,
    the most significant first, without leading zeros, after a minus sign
    for a negative number.  An [int64] has at most 19 digits, which the 20
    rounds of [format_digits] cover. *)
Definition digit_char (n : Z) : ascii := ascii_of_nat (Z.to_nat (asciiZero + n)).

Fixpoint format_digits (fuel : nat) (n : Z) (acc : string) : string :=
  match fuel with
  | O => acc
  | S fuel =>
      let acc := String (digit_char (n mod 10)) acc in
      if n <? 10 then acc else format_digits fuel (n / 10) acc
  end.

Definition strconv_FormatInt (i : Z) : string :=
  if i <? 0 then String "-" (format_digits 20 (- i) "")
  else format_digits 20 i "".

(** The [switch] of [comma] on the length of a part. *)
Definition comma_pad (p : string) : string :=
  match String.length p with
  | 2%nat => "0" +:+ p
  | 1%nat => "00" +:+ p
  | _ => p
  end.

(** The loop of [comma]: [None] is the run-time panic of an index out
    of range.  Every round divides [v] by 1000, so 64 rounds are more than
    a 64-bit [v] can take; the bound stands for the loop's own
    termination. *)
Fixpoint comma_loop (fuel : nat) (v : Z) (parts : list string) (j : Z)
    : option (Z * list string * Z) :=
  match fuel with
  | O => None
  | S fuel =>
      if v >? 999 then
        if (j <? 0) || (Z.of_nat (length parts) <=? j) then None
        else
          comma_loop fuel (Z.quot v 1000)
            (<[Z.to_nat j := comma_pad (strconv_FormatInt (Z.rem v 1000))]> parts)
            (j - 1)
      else Some (v, parts, j)
  end.

(** [comma] "produces a string form of the given number in base 10
    with commas after every three orders of magnitude". *)
Definition comma (v : Z) : option string :=
  if v =? Int64.min_int then Some "-9,223,372,036,854,775,808"
  else
    let sign := if v <? 0 then "-" else "" in
    let v := if v <? 0 then Int64.sub 0 v else v in
    let parts := [""; ""; ""; ""; ""; ""; ""] in
    match comma_loop 64 v parts (Z.of_nat (length parts) - 1) with
    | None => None
    | Some (v, parts, j) =>
        if (j <? 0) || (Z.of_nat (length parts) <=? j) then None
        else
          let parts := <[Z.to_nat j := strconv_FormatInt v]> parts in
          Some (sign +:+ strings_Join (drop (Z.to_nat j) parts) ",")
    end.

(** ** A small concrete environment

    A file system given by two tables, a broker that refuses the imports
    of the listed accounts, and a stream registry that behaves as the
    callers of [AddStream] and [Stream.Delete] expect.  It instantiates
    the statements below on concrete runs. *)

Module Demo.

Record Disk := mkDisk {
  files : list (string * string);         (* path, contents *)
  dirs : list (string * list string);     (* path, entries *)
  refusedImports : list string;           (* accounts whose imports fail *)
  failingDeletes : list string;           (* streams whose store cannot be removed *)
  failingStores : list string;            (* templates that cannot be persisted or removed *)
}.

Definition assoc {A} (k : string) (l : list (string * A)) : option A :=
  snd <$> List.find (fun kv => bool_decide (kv.1 = k)) l.

Definition stat (p : string) (d : Disk) : StatResult :=
  match assoc p (dirs d), assoc p (files d) with
  | Some _, _ => StatOk true
  | None, Some _ => StatOk false
  | None, None => StatNotExist
  end.

Definition readFile (p : string) (d : Disk) : error + string :=
  match assoc p (files d) with
  | Some c => inr c
  | None => inl (Errorf "no such file or directory")
  end.

Definition readDir (p : string) (d : Disk) : list string :=
  default [] (assoc p (dirs d)).

Definition mkdirAll (p : string) (d : Disk) : Disk * option error :=
  (mkDisk (files d) ((p, []) :: dirs d) (refusedImports d) (failingDeletes d)
          (failingStores d), None).

(** A fixed 32-byte key and an additive checksum stand in for SHA-256
    and HighwayHash. *)
Definition key32 : string := "0123456789abcdef0123456789abcdef".

Fixpoint byteSum (s : string) : nat :=
  match s with
  | EmptyString => 0
  | String c rest => nat_of_ascii c + byteSum rest
  end.

Definition sum64 (key data : string) : string :=
  String (ascii_of_nat ((byteSum data) mod 256)) "0000000".

(** Metadata files hold the name of the entity; the other fields of the
    decoded configuration are fixed. *)
(** The text before the first [@], and the text after it. *)
Fixpoint beforeAt (s : string) : string :=
  match s with
  | EmptyString => EmptyString
  | String c rest => if Ascii.eqb c "@" then EmptyString else String c (beforeAt rest)
  end.

Fixpoint afterAt (s : string) : string :=
  match s with
  | EmptyString => EmptyString
  | String c rest => if Ascii.eqb c "@" then rest else afterAt rest
  end.

(** A stream's metadata file reads [name] or [name@template]. *)
Definition decodeStream (buf : string) : error + StreamConfig :=
  if bool_decide (buf = "") then inl (Errorf "unexpected end of JSON input")
  else inr (mkStreamConfig (beforeAt buf) [beforeAt buf] FileStorage 0 1 0 (afterAt buf)).

(** A template's metadata file holds its name; the cap is one stream. *)
Definition decodeTemplate (buf : string) : error + StreamTemplateConfig :=
  if bool_decide (buf = "") then inl (Errorf "unexpected end of JSON input")
  else inr (mkStreamTemplateConfig buf
              (Some (mkStreamConfig "_" [buf +:+ ".*"] FileStorage 0 1 0 "")) 1).

(** A decoder for documents that may lack the [config] member: a
    metadata file that ends in [!] stands for such a document. *)
Fixpoint withoutBang (s : string) : option string :=
  match s with
  | EmptyString => None
  | String c EmptyString => if Ascii.eqb c "!" then Some "" else None
  | String c rest => String c <$> withoutBang rest
  end.

Definition decodePartialTemplate (buf : string) : error + StreamTemplateConfig :=
  match withoutBang buf with
  | Some name => inr (mkStreamTemplateConfig name None 1)
  | None => decodeTemplate buf
  end.

Definition decodeConsumer (buf : string) : error + ConsumerConfig :=
  if bool_decide (buf = "") then inl (Errorf "unexpected end of JSON input")
  else inr (mkConsumerConfig buf "").

Definition importError (a export : string) (d : Disk) : option error :=
  if bool_decide (a ∈ refusedImports d)
  then Some (Errorf "service import not authorized") else None.

(** Registers the stream if the account is enabled, the name is legal
    and free, and the limits admit it. *)
Definition addStream (a : string) (cfg : StreamConfig) (w : World Disk)
    : World Disk * (error + Stream) :=
  match checkForJetStream a w with
  | inl err => (w, inl err)
  | inr jsa =>
      if negb (isValidName (sc_Name cfg)) then (w, inl (Errorf "invalid name"))
      else
        match jsa_streams (jsaAt jsa w) !! sc_Name cfg with
        | Some _ => (w, inl (Errorf "stream name already in use"))
        | None =>
            match checkLimits (jsaAt jsa w) cfg with
            | (_, Some err) => (w, inl err)
            | (cfg, None) =>
                let mset := mkStream jsa cfg in
                (updJsa jsa (fun j => jsa_set_streams (<[sc_Name cfg := mset]> (jsa_streams j)) j) w,
                 inr mset)
            end
        end
  end.

(** Takes the stream out of its registry; fails when the disk refuses. *)
Definition streamDelete (mset : Stream) (w : World Disk)
    : World Disk * option error :=
  let name := sc_Name (stream_config mset) in
  let w' := updJsa (stream_jsa mset)
              (fun j => jsa_set_streams (delete name (jsa_streams j)) j) w in
  (w', if bool_decide (name ∈ failingDeletes (w_ext w))
       then Some (ErrorfStr "could not remove stream %q" name) else None).

Definition storeOp (store : TemplateStore) (tc : StreamTemplateConfig) (d : Disk)
    : Disk * option error :=
  (d, if bool_decide (tc_Name tc ∈ failingStores d)
      then Some (Errorf "template store not writable") else None).

Definition key32_length (s : string) : String.length key32 = 32%nat := eq_refl.

Definition externalsWith (decodeT : string -> error + StreamTemplateConfig)
    : Externals Disk :=
  {| sha256_Sum256 := fun _ => key32;
     sha256_Size := key32_length;
     highwayhash_Sum64 := sum64;
     os_Stat := stat;
     ioutil_ReadFile := readFile;
     ioutil_ReadDir := readDir;
     os_MkdirAll := mkdirAll;
     os_Rename := fun _ _ d => d;
     json_Unmarshal_StreamTemplateConfig := decodeT;
     json_Unmarshal_StreamConfig := decodeStream;
     json_Unmarshal_ConsumerConfig := decodeConsumer;
     serviceImportError := importError;
     eventsEnabled := fun _ => true;
     processSub := fun _ _ d => (d, None);
     checkStreamCfg := fun cfg => inr cfg;
     AddStream := addStream;
     Stream_Delete := streamDelete;
     Stream_stop := fun _ w => w;
     Stream_processInboundJetStreamMsg := fun _ _ _ _ w => w;
     Stream_AddConsumer := fun mset cfg w =>
       (w, inr (mkConsumer (sc_Name (stream_config mset)) cfg));
     Consumer_readStoredState := fun _ w => (w, None);
     TemplateStore_Store := storeOp;
     TemplateStore_Delete := storeOp |}.

Definition externals : Externals Disk := externalsWith decodeTemplate.

(** The same collaborators with the decoder that accepts documents
    without a [config] member. *)
Definition externalsPartial : Externals Disk := externalsWith decodePartialTemplate.

Definition emptyDisk : Disk := mkDisk [] [] [] [] [].

(** A server with JetStream enabled and the given budget, and the
    accounts [A] and [B] registered with it. *)
Definition server (maxMemory maxStore : Z) (d : Disk) : World Disk :=
  mkWorld (Some (mkJetStream (mkJetStreamConfig maxMemory maxStore "/js") ∅ 0 0))
          (<["A" := mkAccount true None ∅]> (<["B" := mkAccount true None ∅]> ∅))
          ∅ ∅ [] [] d.

(** The contents of a valid checksum file for the metadata [buf]. *)
Definition checksum (buf : string) : string := hex_EncodeToString (sum64 key32 buf).

(** The store of account [A] after an earlier run: the stream [ORDERS]
    with a valid checksum and its consumer [C1], whose checksum file does
    not hold the hash of its metadata; and the stream [BROKEN], whose
    checksum file is wrong in the same way. *)
Definition diskWithBadSums : Disk :=
  mkDisk
    [ ("/js/A/streams/ORDERS/meta.inf", "ORDERS");
      ("/js/A/streams/ORDERS/meta.sum", checksum "ORDERS");
      ("/js/A/streams/ORDERS/consumers/C1/meta.inf", "C1");
      ("/js/A/streams/ORDERS/consumers/C1/meta.sum", "0000000000000000");
      ("/js/A/streams/BROKEN/meta.inf", "BROKEN");
      ("/js/A/streams/BROKEN/meta.sum", "0000000000000000") ]
    [ ("/js/A/streams", ["BROKEN"; "ORDERS"]);
      ("/js/A/streams/ORDERS/consumers", ["C1"]) ]
    [] [] [].

(** The store of account [A] with the template [T], whose cap is one
    stream, and two streams that name it. *)
Definition diskWithTwoStreamsOfT : Disk :=
  mkDisk
    [ ("/js/A/templates/T/meta.inf", "T");
      ("/js/A/templates/T/meta.sum", checksum "T");
      ("/js/A/streams/T_a/meta.inf", "T_a@T");
      ("/js/A/streams/T_a/meta.sum", checksum "T_a@T");
      ("/js/A/streams/T_b/meta.inf", "T_b@T");
      ("/js/A/streams/T_b/meta.sum", checksum "T_b@T") ]
    [ ("/js/A/templates", ["T"]);
      ("/js/A/streams", ["T_a"; "T_b"]) ]
    [] [] [].

(** The store of account [A] with the template [T] written without its
    stream configuration, and a checksum file that matches. *)
Definition diskWithPartialTemplate : Disk :=
  mkDisk
    [ ("/js/A/templates/T/meta.inf", "T!");
      ("/js/A/templates/T/meta.sum", checksum "T!") ]
    [ ("/js/A/templates", ["T"]);
      ("/js/A/streams", []) ]
    [] [] [].

(** The ledger of a world in which JetStream is enabled. *)
Definition ledger (w : World Disk) : jetStream :=
  default (mkJetStream (mkJetStreamConfig 0 0 "") ∅ 0 0) (w_js w).

(** Account [A] enabled with the dynamic limits, on an empty store. *)
Definition enabledA : World Disk :=
  (EnableJetStream externals "A" None (server 100 1000 emptyDisk)).1.

(** Account [A] enabled with a memory limit of 40. *)
Definition enabledA40 : World Disk :=
  (EnableJetStream externals "A" (Some (mkLimits 40 0 (-1) (-1)))
     (server 100 1000 emptyDisk)).1.

Definition memT : StreamTemplateConfig :=
  mkStreamTemplateConfig "MEM" (Some (mkStreamConfig "" ["mem.*"] MemoryStorage 0 1 0 "")) 4.

(** [A] with the template [MEM], after messages on [mem.a] and [mem.b]. *)
Definition withTemplate : World Disk := (AddStreamTemplate externals "A" memT enabledA).1.
Definition afterMemA : World Disk :=
  (processInboundTemplateMsg externals 1%positive "mem.a" "" "hello" withTemplate).1.
Definition afterMemB : World Disk :=
  (processInboundTemplateMsg externals 1%positive "mem.b" "" "hello" afterMemA).1.

(** The same world when the stores of both streams refuse to go. *)
Definition stubbornStreams : World Disk :=
  set_ext (mkDisk [] [] [] ["mem_a"; "mem_b"] []) afterMemB.

(** A server on which account [C], never enabled, imports [$JS.INFO]. *)
Definition withImport : World Disk :=
  mkWorld (Some (mkJetStream (mkJetStreamConfig 100 1000 "/js") ∅ 0 0))
          (<["C" := mkAccount true None {[JetStreamInfo]}]> ∅)
          ∅ ∅ [] [] emptyDisk.

(** The store of account [A] in which the metadata of the stream
    [ORDERS] was altered after its checksum was written. *)
Definition diskWithAlteredStream : Disk :=
  mkDisk
    [ ("/js/A/streams/ORDERS/meta.inf", "ORDERz");
      ("/js/A/streams/ORDERS/meta.sum", checksum "ORDERS") ]
    [ ("/js/A/streams", ["ORDERS"]) ]
    [] [] [].

(** [A] with the template [MEM] and its two streams, on a disk that
    cannot forget the template. *)
Definition stubbornStore : World Disk :=
  set_ext (mkDisk [] [] [] [] ["MEM"]) afterMemB.

End Demo.

(** * The vocabulary of the statements *)

Section Statements.

Context {Ext : Type} (E : Externals Ext).
Implicit Types (w : World Ext).

(** The two checks that come before the consumer check. *)
Definition passesStreamChecks (jsa : jsAccount) (config : StreamConfig) : Prop :=
  ~ (MaxStreams (jsa_limits jsa) > 0 /\
     Z.of_nat (size (jsa_streams jsa)) >= MaxStreams (jsa_limits jsa)) /\
  sc_Replicas config = 1.

(** The limits the account is enabled with. *)
Definition effectiveLimits (js : jetStream) (limits : option JetStreamAccountLimits)
    : JetStreamAccountLimits :=
  match limits with None => dynamicAccountLimits js | Some l => l end.

(** The limits fit what is left of the server's budget, in the 64-bit
    arithmetic of the code. *)
Definition fitsBudget (js : jetStream) (l : JetStreamAccountLimits) : Prop :=
  Int64.add (js_memReserved js) (MaxMemory l) <= cfg_MaxMemory (js_config js) /\
  Int64.add (js_storeReserved js) (MaxStore l) <= cfg_MaxStore (js_config js).

(** The checks made before the account is entered in the ledger: the
    account is registered with a server on which JetStream is enabled,
    its limits fit the budget, and the ledger does not hold it yet. *)
Definition admitted w (a : string) (limits : option JetStreamAccountLimits) : Prop :=
  acc_srv (getAccount a w) = true /\
  exists js, w_js w = Some js /\
    fitsBudget js (effectiveLimits js limits) /\
    js_accounts js !! a = None.

Definition importsAccepted w (a : string) : Prop :=
  forall export, export ∈ allJsExports -> serviceImportError E a export (w_ext w) = None.

(** The streams directory of the account exists or can be created. *)
Definition storeDirReady w (a : string) : Prop :=
  forall js, w_js w = Some js ->
    let sdir := path_Join [path_Join [cfg_StoreDir (js_config js); a]; streamsDir] in
    os_Stat E sdir (w_ext w) <> StatNotExist \/
    (os_MkdirAll E sdir (w_ext w)).2 = None.

(** The world right after the account has been entered in the ledger
    and stamped. *)
Definition registered w (a : string) (js : jetStream) (l : JetStreamAccountLimits)
    : World Ext :=
  let jsa := fresh (dom (w_jsas w)) in
  updAccount a (acc_set_js (Some jsa))
    (set_js (Some (reserveResources
                     (js_set_accounts (<[a := jsa]> (js_accounts js)) js) (Some l)))
       (set_jsas (<[jsa := mkJsAccount a l 0 0 0 0
                             (path_Join [cfg_StoreDir (js_config js); a]) ∅ None None]>
                    (w_jsas w)) w)).

(** The rest of [EnableJetStream], run on the registered world. *)
Definition afterRegistration (a : string) (jsa : loc)
    : M Ext (Outcome (option error)) :=
  fun w =>
    let (w, err) := addServiceImports E a w in
    match err with
    | Some err => (w, Returns (Some err))
    | None =>
        recoverState E a jsa
          (logf LDebug "  Max Storage:     %s"
             (logf LDebug "  Max Memory:      %s"
                (logf LDebug "Enabled JetStream for account %q" w).1).1).1
    end.

(** [w'] has the ledger of [w], and every account state has the limits
    it had in [w]. *)
Definition sameLedger w w' : Prop :=
  w_js w' = w_js w /\ forall l, jsa_limits (jsaAt l w') = jsa_limits (jsaAt l w).

(** The collaborators that work on the world do not write to the ledger
    or to the limits of an account. *)
Record ExternalsKeepLedger : Prop := {
  keep_AddStream : forall a cfg w, sameLedger w (AddStream E a cfg w).1;
  keep_Stream_Delete : forall mset w, sameLedger w (Stream_Delete E mset w).1;
  keep_Stream_stop : forall mset w, sameLedger w (Stream_stop E mset w);
  keep_Stream_processInboundJetStreamMsg :
    forall mset s r m w, sameLedger w (Stream_processInboundJetStreamMsg E mset s r m w);
  keep_Stream_AddConsumer : forall mset cfg w, sameLedger w (Stream_AddConsumer E mset cfg w).1;
  keep_Consumer_readStoredState :
    forall obs w, sameLedger w (Consumer_readStoredState E obs w).1;
}.

(** The reservations of the server, when JetStream is enabled on it. *)
Definition reservations w : option (Z * Z) :=
  (fun js => (js_memReserved js, js_storeReserved js)) <$> w_js w.

(** The name resolves to a live stream: the account [a] is enabled and
    its state holds a stream of that name. *)
Definition hasStream w (a name : string) : bool :=
  match acc_js (getAccount a w) with
  | Some jsa => bool_decide (is_Some (jsa_streams (jsaAt jsa w) !! name))
  | None => false
  end.

(** Every document the decoder accepts carries a stream configuration. *)
Definition DecoderFillsConfig : Prop :=
  forall buf cfg,
    json_Unmarshal_StreamTemplateConfig E buf = inr cfg -> is_Some (tc_Config cfg).

(** The entry [fi] of the templates directory [tdir] passes the checks of
    the scan on the disk [d] (its metadata file is readable, its checksum
    file exists and holds the hash of the metadata, the metadata decodes)
    and the decoded value has no stream configuration. *)
Definition templateWithoutConfig (tdir fi : string) (d : Ext) : Prop :=
  exists buf cfg,
    ioutil_ReadFile E (path_Join [tdir; fi; JetStreamMetaFile]) d = inr buf /\
    os_Stat E (path_Join [tdir; fi; JetStreamMetaFileSum]) d <> StatNotExist /\
    ioutil_ReadFile E (path_Join [tdir; fi; JetStreamMetaFileSum]) d
      = inr (hex_EncodeToString
               (highwayhash_Sum64 E (sha256_Sum256 E tdir) buf)) /\
    json_Unmarshal_StreamTemplateConfig E buf = inr cfg /\
    tc_Config cfg = None.


(** The error a sequence of deletions leaves: the last one that is not
    nil, or the one held before. *)
Definition lastError (results : list (option error)) (before : option error)
    : option error :=
  fold_left (fun acc e => match e with Some _ => e | None => acc end) results before.

Definition deletionCalls (streams : list Stream) (results : list (option error))
    : list Call :=
  zip_with (fun mset e => CallStreamDelete (sc_Name (stream_config mset)) e)
           streams results.

Definition withinCap (tm : StreamTemplate) : Prop :=
  Z.of_nat (length (t_streams tm)) <= Z.of_N (tc_MaxStreams (t_cfg tm)).

(** Every template holds at most [MaxStreams] names. *)
Definition tmplInv w : Prop := forall t, withinCap (tmplAt t w).

(** The collaborators that the template operations reach do not write
    to the template objects. *)
Record ExternalsKeepTemplates : Prop := {
  tkeep_AddStream : forall a cfg w, w_tmpls (AddStream E a cfg w).1 = w_tmpls w;
  tkeep_Stream_Delete : forall mset w, w_tmpls (Stream_Delete E mset w).1 = w_tmpls w;
  tkeep_Stream_processInboundJetStreamMsg :
    forall mset s r m w,
      w_tmpls (Stream_processInboundJetStreamMsg E mset s r m w) = w_tmpls w;
}.

(** The operations on templates, as transitions of the world.
    [withRecovery] tells whether recovery's [addStreamNameToTemplate] is
    one of them. *)
Inductive templateStep (withRecovery : bool) : World Ext -> World Ext -> Prop :=
| step_AddStreamTemplate a tc w :
    templateStep withRecovery w (AddStreamTemplate E a tc w).1
| step_processInboundTemplateMsg t subject reply msg w :
    templateStep withRecovery w (processInboundTemplateMsg E t subject reply msg w).1
| step_validateStreams a t w :
    templateStep withRecovery w (validateStreams a t w).1
| step_Stream_Delete mset w :
    templateStep withRecovery w (Stream_Delete E mset w).1
| step_addStreamNameToTemplate jsa tname mname w :
    withRecovery = true ->
    templateStep withRecovery w (addStreamNameToTemplate jsa tname mname w).1.

End Statements.

Arguments keep_AddStream {Ext E}.
Arguments keep_Stream_Delete {Ext E}.
Arguments keep_Stream_stop {Ext E}.
Arguments keep_Stream_processInboundJetStreamMsg {Ext E}.
Arguments keep_Stream_AddConsumer {Ext E}.
Arguments keep_Consumer_readStoredState {Ext E}.
Arguments tkeep_AddStream {Ext E}.
Arguments tkeep_Stream_Delete {Ext E}.
Arguments tkeep_Stream_processInboundJetStreamMsg {Ext E}.

(** ** Decimal strings *)

(** The byte is one of the digits [0] to [9]. *)
Definition isDigit (c : ascii) : bool :=
  (asciiZero <=? byte_val c) && (byte_val c <=? asciiNine).

(** Every byte of [d] is a digit. *)
Fixpoint allDigits (d : string) : bool :=
  match d with
  | EmptyString => true
  | String c rest => isDigit c && allDigits rest
  end.

(** The number that the digits of [d] spell after those of [n], as an
    integer without a bound. *)
Fixpoint decimalValue_from (d : string) (n : Z) : Z :=
  match d with
  | EmptyString => n
  | String c rest => decimalValue_from rest (n * 10 + (byte_val c - asciiZero))
  end.

Definition decimalValue (d : string) : Z := decimalValue_from d 0.

(** [s] without its commas. *)
Fixpoint stripCommas (s : string) : string :=
  match s with
  | EmptyString => EmptyString
  | String c rest =>
      if Ascii.eqb c ","%char then stripCommas rest else String c (stripCommas rest)
  end.

(** The strings of [l], one after the other. *)
Definition concat_strings (l : list string) : string := foldr String.append "" l.

(** A group of three digits. *)
Definition isGroup (p : string) : Prop := String.length p = 3%nat /\ allDigits p = true.

(** ** Names *)

(** The byte [c] occurs in [s]. *)
Fixpoint occurs (c : ascii) (s : string) : bool :=
  match s with
  | EmptyString => false
  | String c' rest => Ascii.eqb c c' || occurs c rest
  end.

(** ** Relations that the operations preserve *)

Section FrameDefs.
Context {Ext : Type} (E : Externals Ext).
Implicit Types (w : World Ext).

(** A relation between the world before and after that every step of the
    template, recovery and deletion code respects. *)
Record Frame (R : World Ext -> World Ext -> Prop) : Prop := {
  frame_refl : forall w, R w w;
  frame_trans : forall w1 w2 w3, R w1 w2 -> R w2 w3 -> R w1 w3;
  frame_set_log : forall x w, R w (set_log x w);
  frame_set_calls : forall x w, R w (set_calls x w);
  frame_set_ext : forall x w, R w (set_ext x w);
  frame_set_tmpls : forall x w, R w (set_tmpls x w);
  frame_set_templates : forall l x w, R w (updJsa l (jsa_set_templates x) w);
  frame_set_store : forall l x w, R w (updJsa l (jsa_set_store x) w);
  frame_set_imports :
    forall a f w, R w (updAccount a (fun acc => acc_set_imports (f acc) acc) w);
  frame_AddStream : forall a cfg w, R w (AddStream E a cfg w).1;
  frame_Stream_Delete : forall mset w, R w (Stream_Delete E mset w).1;
  frame_Stream_stop : forall mset w, R w (Stream_stop E mset w);
  frame_Stream_processInboundJetStreamMsg :
    forall mset s r m w, R w (Stream_processInboundJetStreamMsg E mset s r m w);
  frame_Stream_AddConsumer : forall mset cfg w, R w (Stream_AddConsumer E mset cfg w).1;
  frame_Consumer_readStoredState : forall obs w, R w (Consumer_readStoredState E obs w).1;
}.
End FrameDefs.

Arguments frame_refl {Ext E R}.
Arguments frame_trans {Ext E R}.
Arguments frame_set_log {Ext E R}.
Arguments frame_set_calls {Ext E R}.
Arguments frame_set_ext {Ext E R}.
Arguments frame_set_tmpls {Ext E R}.
Arguments frame_set_templates {Ext E R}.
Arguments frame_set_store {Ext E R}.
Arguments frame_set_imports {Ext E R}.
Arguments frame_AddStream {Ext E R}.
Arguments frame_Stream_Delete {Ext E R}.
Arguments frame_Stream_stop {Ext E R}.
Arguments frame_Stream_processInboundJetStreamMsg {Ext E R}.
Arguments frame_Stream_AddConsumer {Ext E R}.
Arguments frame_Consumer_readStoredState {Ext E R}.

(** ** The balance of the ledger *)

Section BooksDefs.
Context {Ext : Type} (E : Externals Ext).
Implicit Types (w : World Ext).

(** [w'] has the ledger of [w], the account pointers of [w], and every
    account state that [w] holds is still there with its limits and its
    account. *)
Definition sameBooks w w' : Prop :=
  w_js w' = w_js w /\
  (forall a, acc_srv (getAccount a w') = acc_srv (getAccount a w) /\
             acc_js (getAccount a w') = acc_js (getAccount a w)) /\
  (forall l, jsa_limits (jsaAt l w') = jsa_limits (jsaAt l w) /\
             jsa_account (jsaAt l w') = jsa_account (jsaAt l w)) /\
  dom (w_jsas w) ⊆ dom (w_jsas w').

Record ExternalsKeepBooks : Prop := {
  books_AddStream : forall a cfg w, sameBooks w (AddStream E a cfg w).1;
  books_Stream_Delete : forall mset w, sameBooks w (Stream_Delete E mset w).1;
  books_Stream_stop : forall mset w, sameBooks w (Stream_stop E mset w);
  books_Stream_processInboundJetStreamMsg :
    forall mset s r m w, sameBooks w (Stream_processInboundJetStreamMsg E mset s r m w);
  books_Stream_AddConsumer :
    forall mset cfg w, sameBooks w (Stream_AddConsumer E mset cfg w).1;
  books_Consumer_readStoredState :
    forall obs w, sameBooks w (Consumer_readStoredState E obs w).1;
}.

Definition positivePart (z : Z) : Z := if z >? 0 then z else 0.

(** What the accounts of the ledger have reserved of one resource: the
    sum of their limits for it, those that are positive. *)
Definition reservedSum (f : JetStreamAccountLimits -> Z) (accounts : gmap string loc) w : Z :=
  foldr Z.add 0
    ((fun kv => positivePart (f (jsa_limits (jsaAt kv.2 w)))) <$> map_to_list accounts).

(** Every entry of the ledger points to an account state that exists
    and that names the account it is entered under. *)
Definition ledgerWellFormed w : Prop :=
  forall js a l, w_js w = Some js -> js_accounts js !! a = Some l ->
    l ∈ dom (w_jsas w) /\ jsa_account (jsaAt l w) = a.

(** The two counters of the ledger are the sums of the accounts'
    positive limits, in 64-bit arithmetic. *)
Definition ledgerBalanced w : Prop :=
  forall js, w_js w = Some js ->
    js_memReserved js = Int64.wrap (reservedSum MaxMemory (js_accounts js) w) /\
    js_storeReserved js = Int64.wrap (reservedSum MaxStore (js_accounts js) w).

Definition ledgerInv w : Prop := ledgerWellFormed w /\ ledgerBalanced w.

(** The operations on accounts and templates, as transitions. *)
Inductive accountStep : World Ext -> World Ext -> Prop :=
| step_EnableJetStream a limits w :
    accountStep w (EnableJetStream E a limits w).1
| step_UpdateJetStreamLimits a limits w :
    accountStep w (UpdateJetStreamLimits a limits w).1
| step_DisableJetStream a w :
    accountStep w (DisableJetStream E a w).1
| step_account_AddStreamTemplate a tc w :
    accountStep w (AddStreamTemplate E a tc w).1
| step_account_DeleteStreamTemplate a name w :
    accountStep w (DeleteStreamTemplate E a name w).1
| step_account_processInboundTemplateMsg t subject reply msg w :
    accountStep w (processInboundTemplateMsg E t subject reply msg w).1.

End BooksDefs.

Arguments books_AddStream {Ext E}.
Arguments books_Stream_Delete {Ext E}.
Arguments books_Stream_stop {Ext E}.
Arguments books_Stream_processInboundJetStreamMsg {Ext E}.
Arguments books_Stream_AddConsumer {Ext E}.
Arguments books_Consumer_readStoredState {Ext E}.

(** ** Stopping the streams of an account *)

Section DeleteDefs.
Context {Ext : Type} (E : Externals Ext).
Implicit Types (w : World Ext).

(** [Stream.stop] works on the stream: it leaves the accounts, the
    template objects and the template registries alone. *)
Definition StopIsLocal : Prop :=
  forall ms w,
    w_accounts (Stream_stop E ms w) = w_accounts w /\
    w_tmpls (Stream_stop E ms w) = w_tmpls w /\
    forall l, jsa_templates (jsaAt l (Stream_stop E ms w)) = jsa_templates (jsaAt l w).

Definition stopCalls (streams : list Stream) : list Call :=
  (fun ms => CallStreamStop (sc_Name (stream_config ms))) <$> streams.

End DeleteDefs.

(** * Properties *)

(** ** Machine integers *)

Module Int64Facts.

Import Int64.

Lemma wrap_in_range z : in_range (wrap z).
Proof.
  unfold in_range, wrap, modulus, min_int, max_int.
  pose proof (Z.mod_pos_bound (z + 2 ^ 63) (2 ^ 64) ltac:(lia)). lia.
Qed.

Lemma wrap_small z : in_range z -> wrap z = z.
Proof.
  unfold in_range, wrap, modulus, min_int, max_int. intros H.
  rewrite Z.mod_small by lia. lia.
Qed.

Lemma wrap_eqm z : (wrap z) mod modulus = z mod modulus.
Proof.
  unfold wrap, modulus.
  rewrite Zminus_mod, Z.mod_mod by lia.
  rewrite <- Zminus_mod. f_equal. lia.
Qed.

Lemma wrap_congr a b : a mod modulus = b mod modulus -> wrap a = wrap b.
Proof.
  unfold wrap, modulus. intros H.
  rewrite (Zplus_mod a), (Zplus_mod b), H. reflexivity.
Qed.

(** [x - m + m] comes back to [x], wrap-around included. *)
Lemma add_sub_cancel x m : in_range x -> add (sub x m) m = x.
Proof.
  intros Hx. unfold add, sub.
  rewrite <- (wrap_small x Hx) at 2. apply wrap_congr.
  rewrite Zplus_mod, wrap_eqm, <- Zplus_mod. f_equal. lia.
Qed.

Lemma sub_add_cancel x m : in_range x -> sub (add x m) m = x.
Proof.
  intros Hx. unfold add, sub.
  rewrite <- (wrap_small x Hx) at 2. apply wrap_congr.
  rewrite Zminus_mod, wrap_eqm, <- Zminus_mod. f_equal. lia.
Qed.

(** Without overflow the machine sum is the sum. *)
Lemma add_small a b : in_range (a + b) -> add a b = a + b.
Proof. apply wrap_small. Qed.

End Int64Facts.

(** ** The ledger: [reserveResources], [releaseResources] *)

Section Ledger.

Implicit Types (js : jetStream) (l : JetStreamAccountLimits).

Lemma reserveResources_mem js l :
  js_memReserved (reserveResources js (Some l)) =
    if MaxMemory l >? 0 then Int64.add (js_memReserved js) (MaxMemory l)
    else js_memReserved js.
Proof. reflexivity. Qed.

Lemma reserveResources_store js l :
  js_storeReserved (reserveResources js (Some l)) =
    if MaxStore l >? 0 then Int64.add (js_storeReserved js) (MaxStore l)
    else js_storeReserved js.
Proof. reflexivity. Qed.

Lemma releaseResources_mem js l :
  js_memReserved (releaseResources js (Some l)) =
    if MaxMemory l >? 0 then Int64.sub (js_memReserved js) (MaxMemory l)
    else js_memReserved js.
Proof. reflexivity. Qed.

Lemma releaseResources_store js l :
  js_storeReserved (releaseResources js (Some l)) =
    if MaxStore l >? 0 then Int64.sub (js_storeReserved js) (MaxStore l)
    else js_storeReserved js.
Proof. reflexivity. Qed.

Lemma reserveResources_frame js o :
  js_config (reserveResources js o) = js_config js /\
  js_accounts (reserveResources js o) = js_accounts js.
Proof. destruct o; auto. Qed.

Lemma releaseResources_frame js o :
  js_config (releaseResources js o) = js_config js /\
  js_accounts (releaseResources js o) = js_accounts js.
Proof. destruct o; auto. Qed.

(** Limits that are not strictly positive reserve and release nothing. *)
Lemma reserveResources_nonpos js l :
  MaxMemory l <= 0 -> MaxStore l <= 0 -> reserveResources js (Some l) = js.
Proof.
  intros Hm Hs. unfold reserveResources.
  destruct (Z.gtb_spec (MaxMemory l) 0), (Z.gtb_spec (MaxStore l) 0); try lia.
  by destruct js.
Qed.

Lemma releaseResources_nonpos js l :
  MaxMemory l <= 0 -> MaxStore l <= 0 -> releaseResources js (Some l) = js.
Proof.
  intros Hm Hs. unfold releaseResources.
  destruct (Z.gtb_spec (MaxMemory l) 0), (Z.gtb_spec (MaxStore l) 0); try lia.
  by destruct js.
Qed.

Lemma sufficientResources_ok js l :
  sufficientResources js (Some l) = None <->
  Int64.add (js_memReserved js) (MaxMemory l) <= cfg_MaxMemory (js_config js) /\
  Int64.add (js_storeReserved js) (MaxStore l) <= cfg_MaxStore (js_config js).
Proof.
  unfold sufficientResources.
  destruct (Z.gtb_spec (Int64.add (js_memReserved js) (MaxMemory l))
                       (cfg_MaxMemory (js_config js)));
  destruct (Z.gtb_spec (Int64.add (js_storeReserved js) (MaxStore l))
                       (cfg_MaxStore (js_config js)));
  split; intros; try discriminate; try lia; reflexivity.
Qed.

Lemma sufficientResources_memory js l :
  sufficientResources js (Some l)
    = Some (Errorf "insufficient memory resources available") <->
  Int64.add (js_memReserved js) (MaxMemory l) > cfg_MaxMemory (js_config js).
Proof.
  unfold sufficientResources.
  destruct (Z.gtb_spec (Int64.add (js_memReserved js) (MaxMemory l))
                       (cfg_MaxMemory (js_config js)));
  destruct (Z.gtb_spec (Int64.add (js_storeReserved js) (MaxStore l))
                       (cfg_MaxStore (js_config js)));
  split; intros; try discriminate; try lia; reflexivity.
Qed.

Lemma sufficientResources_storage js l :
  sufficientResources js (Some l)
    = Some (Errorf "insufficient storage resources available") <->
  Int64.add (js_memReserved js) (MaxMemory l) <= cfg_MaxMemory (js_config js) /\
  Int64.add (js_storeReserved js) (MaxStore l) > cfg_MaxStore (js_config js).
Proof.
  unfold sufficientResources.
  destruct (Z.gtb_spec (Int64.add (js_memReserved js) (MaxMemory l))
                       (cfg_MaxMemory (js_config js)));
  destruct (Z.gtb_spec (Int64.add (js_storeReserved js) (MaxStore l))
                       (cfg_MaxStore (js_config js)));
  split; intros; try discriminate; try lia; reflexivity.
Qed.

(** Releasing limits and reserving them again gives the ledger back,
    wrap-around included. *)
Lemma reserve_after_release js l :
  Int64.in_range (js_memReserved js) -> Int64.in_range (js_storeReserved js) ->
  reserveResources (releaseResources js (Some l)) (Some l) = js.
Proof.
  intros Hm Hs. unfold reserveResources, releaseResources. simpl.
  destruct (MaxMemory l >? 0), (MaxStore l >? 0);
    rewrite ?Int64Facts.add_sub_cancel by done; by destruct js.
Qed.

End Ledger.

(** ** Per-stream admission: [checkLimits] *)

Section CheckLimits.

Implicit Types (jsa : jsAccount) (config : StreamConfig).

Lemma checkLimits_consumers_reject jsa config :
  passesStreamChecks jsa config ->
  sc_MaxConsumers config > 0 ->
  sc_MaxConsumers config > MaxConsumers (jsa_limits jsa) ->
  checkLimits jsa config
    = (config, Some (Errorf "maximum consumers exceeds account limit")).
Proof.
  intros [Hs Hr] H0 H1. unfold checkLimits.
  destruct (Z.gtb_spec (MaxStreams (jsa_limits jsa)) 0),
           (Z.geb_spec (Z.of_nat (size (jsa_streams jsa))) (MaxStreams (jsa_limits jsa)));
    simpl; try lia;
    rewrite Hr; simpl;
    destruct (Z.gtb_spec (sc_MaxConsumers config) 0),
             (Z.gtb_spec (sc_MaxConsumers config) (MaxConsumers (jsa_limits jsa)));
    simpl; try lia; reflexivity.
Qed.

Lemma checkLimits_consumers_clamp jsa config :
  passesStreamChecks jsa config ->
  ~ (sc_MaxConsumers config > 0 /\
     sc_MaxConsumers config > MaxConsumers (jsa_limits jsa)) ->
  sc_MaxConsumers (checkLimits jsa config).1 = MaxConsumers (jsa_limits jsa) /\
  (checkLimits jsa config).2
    <> Some (Errorf "maximum consumers exceeds account limit").
Proof.
  intros [Hs Hr] H0. unfold checkLimits.
  destruct (Z.gtb_spec (MaxStreams (jsa_limits jsa)) 0),
           (Z.geb_spec (Z.of_nat (size (jsa_streams jsa))) (MaxStreams (jsa_limits jsa)));
    simpl; try lia;
    rewrite Hr; simpl;
    destruct (Z.gtb_spec (sc_MaxConsumers config) 0),
             (Z.gtb_spec (sc_MaxConsumers config) (MaxConsumers (jsa_limits jsa)));
    simpl; try lia;
    repeat match goal with
           | |- context [if ?b then _ else _] => destruct b
           | |- context [match ?s with MemoryStorage => _ | FileStorage => _ end] =>
               destruct s
           end; simpl; split; (reflexivity || discriminate).
Qed.

(** C2.  An account with the dynamic limits has [MaxConsumers = -1]
    (unlimited); [checkLimits] nevertheless rejects a stream that asks
    for five consumers, since the test compares the request with the
    limit without first looking at the sign of the limit. *)
Theorem checkLimits_unlimited_consumers_rejected :
  let js := mkJetStream (mkJetStreamConfig 1024 1024 "/js") ∅ 0 0 in
  let jsa := mkJsAccount "A" (dynamicAccountLimits js) 0 0 0 0 "/js/A" ∅ None None in
  let config := mkStreamConfig "ORDERS" ["orders.*"] MemoryStorage 0 1 5 "" in
  MaxConsumers (jsa_limits jsa) = -1 /\
  checkLimits jsa config
    = (config, Some (Errorf "maximum consumers exceeds account limit")).
Proof. split; reflexivity. Qed.

End CheckLimits.

(** ** Reading the world after an update *)

Section WorldFacts.

Context {Ext : Type}.
Implicit Types (w : World Ext).

Lemma getAccount_updAccount a f w :
  getAccount a (updAccount a f w) = f (getAccount a w).
Proof. unfold getAccount, updAccount. simpl. by rewrite lookup_insert_eq. Qed.

Lemma getAccount_updAccount_ne a b f w :
  a <> b -> getAccount b (updAccount a f w) = getAccount b w.
Proof. intros. unfold getAccount, updAccount. simpl. by rewrite lookup_insert_ne. Qed.

Lemma jsaAt_updJsa l f w : jsaAt l (updJsa l f w) = f (jsaAt l w).
Proof. unfold jsaAt, updJsa. simpl. by rewrite lookup_insert_eq. Qed.

Lemma jsaAt_updJsa_ne l l' f w : l <> l' -> jsaAt l' (updJsa l f w) = jsaAt l' w.
Proof. intros. unfold jsaAt, updJsa. simpl. by rewrite lookup_insert_ne. Qed.

Lemma tmplAt_updTmpl t f w : tmplAt t (updTmpl t f w) = f (tmplAt t w).
Proof. unfold tmplAt, updTmpl. simpl. by rewrite lookup_insert_eq. Qed.

Lemma tmplAt_updTmpl_ne t t' f w : t <> t' -> tmplAt t' (updTmpl t f w) = tmplAt t' w.
Proof. intros. unfold tmplAt, updTmpl. simpl. by rewrite lookup_insert_ne. Qed.

Lemma forEach_cons {A} (f : A -> M Ext unit) x l w :
  forEach f (x :: l) w = forEach f l (f x w).1.
Proof. simpl. unfold bind. by destruct (f x w). Qed.

(** Removing all the exported subjects, one after the other. *)
Lemma removeServiceImports_spec a (exports : list string) w :
  let w' := (forEach (removeServiceImport a) exports w).1 in
  w_js w' = w_js w /\ w_jsas w' = w_jsas w /\ w_tmpls w' = w_tmpls w /\
  w_log w' = w_log w /\ w_calls w' = w_calls w /\ w_ext w' = w_ext w /\
  acc_srv (getAccount a w') = acc_srv (getAccount a w) /\
  acc_js (getAccount a w') = acc_js (getAccount a w) /\
  (forall e, e ∈ acc_imports (getAccount a w') <->
             e ∈ acc_imports (getAccount a w) /\ e ∉ exports) /\
  (forall b, b <> a -> getAccount b w' = getAccount b w).
Proof.
  revert w. induction exports as [|x rest IH]; intros w; cbv zeta.
  - simpl. repeat split; try tauto; try set_solver.
  - rewrite forEach_cons. unfold removeServiceImport at 2, modify. simpl.
    specialize (IH (updAccount a (fun acc =>
                      acc_set_imports (acc_imports acc ∖ {[x]}) acc) w)).
    simpl in IH. destruct IH as (H1 & H2 & H3 & H4 & H5 & H6 & H7 & H8 & H9 & H10).
    rewrite H1, H2, H3, H4, H5, H6, H7, H8.
    rewrite !getAccount_updAccount. simpl.
    split_and!; try reflexivity.
    + intros e. rewrite H9, getAccount_updAccount. simpl.
      rewrite elem_of_difference, elem_of_singleton, not_elem_of_cons. tauto.
    + intros b Hb. rewrite H10 by done. by apply getAccount_updAccount_ne.
Qed.

(** An update that gives the account back as it is gives the world
    back as it is. *)
Lemma updAccount_id a f w acc :
  w_accounts w !! a = Some acc -> f acc = acc -> updAccount a f w = w.
Proof.
  intros Hacc Hf. unfold updAccount, getAccount. rewrite Hacc. simpl.
  rewrite Hf, insert_id by done. by destruct w.
Qed.

(** An account that imports none of the subjects is left as it is,
    and so is the world. *)
Lemma removeServiceImports_unchanged a (exports : list string) w :
  is_Some (w_accounts w !! a) ->
  (forall e, e ∈ exports -> e ∉ acc_imports (getAccount a w)) ->
  (forEach (removeServiceImport a) exports w).1 = w.
Proof.
  intros [acc Hacc] Hno. induction exports as [|x rest IH]; [done|].
  rewrite forEach_cons. unfold removeServiceImport at 2, modify. cbn [fst].
  assert (Hw : updAccount a (fun acc => acc_set_imports (acc_imports acc ∖ {[x]}) acc) w = w).
  { apply (updAccount_id a _ w acc Hacc).
    assert (Hx : x ∉ acc_imports acc).
    { specialize (Hno x (list_elem_of_here _ _)). unfold getAccount in Hno.
      by rewrite Hacc in Hno. }
    rewrite difference_disjoint_L by (by apply disjoint_singleton_r).
    by destruct acc. }
  rewrite Hw. apply IH. intros e He. apply Hno. by apply list_elem_of_further.
Qed.

End WorldFacts.

(** ** [UpdateJetStreamLimits] *)

Section UpdateLimits.

Context {Ext : Type}.
Implicit Types (w : World Ext).

(** C4.  On an enabled account the update checks the delta of the
    memory limit and the delta of the store limit, each taken in 64-bit
    arithmetic, against the server's budget, and nothing else: a memory
    delta that does not fit what is left is refused with "insufficient
    memory resources available", else a store delta that does not fit is
    refused with "insufficient storage resources available", and a refused
    update writes nothing.  An update whose deltas fit returns nil; the
    server's reservations are then the old ones with the old limits
    released and the new limits taken after that (a limit that is not
    positive is neither released nor taken), the account holds the new
    limits, and no other account state is touched.  Two requests with the
    same memory and store limits have the same result.  Without overflow
    and with positive limits the memory reservation becomes
    [reserved - old + new].  In the scenario (old memory limit 40, 40
    reserved, new memory limit 30, a store delta that fits) the update
    succeeds and leaves 30 reserved. *)
Theorem UpdateJetStreamLimits_protocol w a js jsa (limits : JetStreamAccountLimits) :
  acc_srv (getAccount a w) = true ->
  w_js w = Some js ->
  js_accounts js !! a = Some jsa ->
  let old := jsa_limits (jsaAt jsa w) in
  let dmem := Int64.sub (MaxMemory limits) (MaxMemory old) in
  let dstore := Int64.sub (MaxStore limits) (MaxStore old) in
  let released (reserved limit : Z) :=
    if limit >? 0 then Int64.sub reserved limit else reserved in
  let taken (reserved limit : Z) :=
    if limit >? 0 then Int64.add reserved limit else reserved in
  let r := UpdateJetStreamLimits a (Some limits) w in
  (Int64.add (js_memReserved js) dmem > cfg_MaxMemory (js_config js) ->
     r = (w, Some (Errorf "insufficient memory resources available"))) /\
  (Int64.add (js_memReserved js) dmem <= cfg_MaxMemory (js_config js) ->
   Int64.add (js_storeReserved js) dstore > cfg_MaxStore (js_config js) ->
     r = (w, Some (Errorf "insufficient storage resources available"))) /\
  (Int64.add (js_memReserved js) dmem <= cfg_MaxMemory (js_config js) ->
   Int64.add (js_storeReserved js) dstore <= cfg_MaxStore (js_config js) ->
     r.2 = None /\
     w_js r.1
       = Some (mkJetStream (js_config js) (js_accounts js)
                 (taken (released (js_memReserved js) (MaxMemory old)) (MaxMemory limits))
                 (taken (released (js_storeReserved js) (MaxStore old)) (MaxStore limits))) /\
     jsa_limits (jsaAt jsa r.1) = limits /\
     (forall l, l <> jsa -> jsaAt l r.1 = jsaAt l w) /\
     w_accounts r.1 = w_accounts w /\ w_tmpls r.1 = w_tmpls w) /\
  (forall limits' : JetStreamAccountLimits,
     MaxMemory limits' = MaxMemory limits -> MaxStore limits' = MaxStore limits ->
     (UpdateJetStreamLimits a (Some limits') w).2 = r.2) /\
  (r.2 = None -> 0 < MaxMemory old -> 0 < MaxMemory limits ->
   Int64.in_range (js_memReserved js - MaxMemory old) ->
   Int64.in_range (js_memReserved js - MaxMemory old + MaxMemory limits) ->
     js_memReserved <$> w_js r.1
       = Some (js_memReserved js - MaxMemory old + MaxMemory limits)) /\
  (MaxMemory old = 40 -> js_memReserved js = 40 -> MaxMemory limits = 30 ->
   40 <= cfg_MaxMemory (js_config js) ->
   Int64.add (js_storeReserved js) dstore <= cfg_MaxStore (js_config js) ->
     r.2 = None /\
     js_memReserved <$> w_js r.1 = Some 30 /\
     jsa_limits (jsaAt jsa r.1) = limits).
Proof.
  intros Hsrv Hjs Hjsa old dmem dstore released taken r.
  assert (Hr : forall limits' : JetStreamAccountLimits,
            UpdateJetStreamLimits a (Some limits') w
            = match sufficientResources js (Some (diffCheckedLimits old limits')) with
              | Some err => (w, Some err)
              | None =>
                  (updJsa jsa (jsa_set_limits limits')
                     (set_js (Some (reserveResources
                        (releaseResources js (Some old)) (Some limits'))) w), None)
              end).
  { intros limits'. unfold UpdateJetStreamLimits, lookupAccount.
    rewrite Hsrv, Hjs, Hjsa. simpl. reflexivity. }
  assert (Hok : Int64.add (js_memReserved js) dmem <= cfg_MaxMemory (js_config js) ->
                Int64.add (js_storeReserved js) dstore <= cfg_MaxStore (js_config js) ->
                r = (updJsa jsa (jsa_set_limits limits)
                       (set_js (Some (reserveResources
                          (releaseResources js (Some old)) (Some limits))) w), None)).
  { intros Hm Hs. subst r. rewrite Hr.
    assert (H : sufficientResources js (Some (diffCheckedLimits old limits)) = None)
      by (by apply sufficientResources_ok).
    by rewrite H. }
  split_and!.
  - intros Hm. subst r. rewrite Hr.
    assert (H : sufficientResources js (Some (diffCheckedLimits old limits))
                = Some (Errorf "insufficient memory resources available"))
      by (by apply sufficientResources_memory).
    by rewrite H.
  - intros Hm Hs. subst r. rewrite Hr.
    assert (H : sufficientResources js (Some (diffCheckedLimits old limits))
                = Some (Errorf "insufficient storage resources available"))
      by (by apply sufficientResources_storage).
    by rewrite H.
  - intros Hm Hs. rewrite (Hok Hm Hs). cbn [fst snd].
    split_and!; try reflexivity.
    + by rewrite jsaAt_updJsa.
    + intros l Hl. by rewrite jsaAt_updJsa_ne.
  - intros limits' Hm Hs. subst r. rewrite !Hr.
    unfold diffCheckedLimits, sufficientResources. cbn [MaxMemory MaxStore].
    rewrite Hm, Hs. by repeat case_match.
  - intros Hnone Ho Hn Hr1 Hr2.
    assert (Hres : r = (updJsa jsa (jsa_set_limits limits)
                          (set_js (Some (reserveResources
                             (releaseResources js (Some old)) (Some limits))) w), None)).
    { subst r. rewrite Hr in *.
      destruct (sufficientResources js _); [discriminate|reflexivity]. }
    rewrite Hres. cbn [fst w_js updJsa set_jsas set_js fmap option_fmap option_map].
    f_equal. rewrite reserveResources_mem, releaseResources_mem.
    destruct (Z.gtb_spec (MaxMemory limits) 0); [|lia].
    destruct (Z.gtb_spec (MaxMemory old) 0); [|lia].
    unfold Int64.add, Int64.sub.
    rewrite (Int64Facts.wrap_small (js_memReserved js - MaxMemory old)) by done.
    by rewrite Int64Facts.wrap_small.
  - intros Ho Hres Hn Hmax Hstore.
    assert (Hm : Int64.add (js_memReserved js) dmem <= cfg_MaxMemory (js_config js)).
    { subst dmem. rewrite Ho, Hn, Hres.
      replace (Int64.add 40 (Int64.sub 30 40)) with 30 by reflexivity. lia. }
    rewrite (Hok Hm Hstore). cbn [fst snd]. rewrite jsaAt_updJsa.
    split_and!; try reflexivity.
    cbn [w_js updJsa set_jsas set_js fmap option_fmap option_map].
    f_equal. rewrite reserveResources_mem, releaseResources_mem.
    rewrite Ho, Hn, Hres. reflexivity.
Qed.

End UpdateLimits.

(** ** [DisableJetStream] *)

Section Disable.

Context {Ext : Type} (E : Externals Ext).
Implicit Types (w : World Ext).

(** What [DisableJetStream] has done by the time it asks the ledger for
    the account. *)
Lemma DisableJetStream_unfold w a js :
  acc_srv (getAccount a w) = true ->
  w_js w = Some js ->
  let w1 := (forEach (removeServiceImport a) allJsExports
               (updAccount a (acc_set_js None) w)).1 in
  DisableJetStream E a w = disableJetStream E (lookupAccount js a) w1 /\
  w_js w1 = Some js.
Proof.
  intros Hsrv Hjs w1.
  pose proof (removeServiceImports_spec a allJsExports
                (updAccount a (acc_set_js None) w)) as Hrm.
  cbv zeta in Hrm. destruct Hrm as (Hrm & _).
  assert (Hjs1 : w_js w1 = Some js).
  { subst w1. rewrite Hrm. simpl. exact Hjs. }
  split; [|exact Hjs1].
  unfold DisableJetStream. rewrite Hsrv. cbn [negb].
  change (w_js (updAccount a (acc_set_js None) w)) with (w_js w).
  rewrite Hjs. unfold bind. subst w1.
  destruct (forEach (removeServiceImport a) allJsExports
              (updAccount a (acc_set_js None) w)) as [w2 []].
  cbn [fst] in *. by rewrite Hjs1.
Qed.

(** C10.  For an account that the ledger does not know (never enabled,
    or enabled under an earlier ledger), [DisableJetStream] returns
    "jetstream not enabled for account" after it has cleared the
    account's [js] pointer and removed the imports of all the exported
    subjects; nothing else is touched.  So the account is changed,
    although the call fails, exactly when it held a stale pointer or one
    of those imports; an account with a nil pointer and none of those
    imports is left as it was, and so is the whole world. *)
Theorem DisableJetStream_not_enabled_still_clears w a js :
  acc_srv (getAccount a w) = true ->
  w_js w = Some js ->
  js_accounts js !! a = None ->
  let r := DisableJetStream E a w in
  let plain := acc_js (getAccount a w) = None /\
               forall e, e ∈ allJsExports -> e ∉ acc_imports (getAccount a w) in
  r.2 = Some (Errorf "jetstream not enabled for account") /\
  acc_js (getAccount a r.1) = None /\
  (forall e, e ∈ acc_imports (getAccount a r.1) <->
             e ∈ acc_imports (getAccount a w) /\ e ∉ allJsExports) /\
  acc_srv (getAccount a r.1) = acc_srv (getAccount a w) /\
  (forall b, b <> a -> getAccount b r.1 = getAccount b w) /\
  w_js r.1 = w_js w /\ w_jsas r.1 = w_jsas w /\ w_tmpls r.1 = w_tmpls w /\
  w_log r.1 = w_log w /\ w_calls r.1 = w_calls w /\ w_ext r.1 = w_ext w /\
  (getAccount a r.1 = getAccount a w -> plain) /\
  (plain -> r.1 = w).
Proof.
  intros Hsrv Hjs Ha r plain.
  destruct (DisableJetStream_unfold w a js Hsrv Hjs) as [Hr _].
  pose proof (removeServiceImports_spec a allJsExports
                (updAccount a (acc_set_js None) w)) as Hrm.
  cbv zeta in Hrm.
  destruct Hrm as (H1 & H2 & H3 & H4 & H5 & H6 & H7 & H8 & H9 & H10).
  assert (Hres : r = ((forEach (removeServiceImport a) allJsExports
                         (updAccount a (acc_set_js None) w)).1,
                      Some (Errorf "jetstream not enabled for account"))).
  { subst r. rewrite Hr. unfold lookupAccount. rewrite Ha. reflexivity. }
  rewrite Hres. cbn [fst snd].
  rewrite getAccount_updAccount in H7, H8, H9.
  cbn [acc_js acc_set_js acc_imports acc_srv] in H7, H8, H9.
  change (w_js (updAccount a (acc_set_js None) w)) with (w_js w) in H1.
  change (w_jsas (updAccount a (acc_set_js None) w)) with (w_jsas w) in H2.
  change (w_tmpls (updAccount a (acc_set_js None) w)) with (w_tmpls w) in H3.
  change (w_log (updAccount a (acc_set_js None) w)) with (w_log w) in H4.
  change (w_calls (updAccount a (acc_set_js None) w)) with (w_calls w) in H5.
  change (w_ext (updAccount a (acc_set_js None) w)) with (w_ext w) in H6.
  subst plain.
  split; [reflexivity|]. split; [exact H8|]. split; [exact H9|]. split; [exact H7|].
  split; [|split; [exact H1|split; [exact H2|split; [exact H3|split;
             [exact H4|split; [exact H5|split; [exact H6|split]]]]]]].
  - intros b Hb. rewrite H10 by done. by apply getAccount_updAccount_ne.
  - intros Heq. split.
    + rewrite <- Heq. exact H8.
    + intros e He Hin.
      assert (e ∈ acc_imports (getAccount a w) /\ e ∉ allJsExports) as [_ Hn]; [|done].
      apply H9. by rewrite Heq.
  - intros [Hnil Hno].
    assert (Hin : is_Some (w_accounts w !! a)).
    { destruct (w_accounts w !! a) eqn:Hl; [by eexists|].
      unfold getAccount in Hsrv. by rewrite Hl in Hsrv. }
    assert (Hw : updAccount a (acc_set_js None) w = w).
    { destruct Hin as [acc Hacc]. apply (updAccount_id a _ w acc Hacc).
      clear -Hnil Hacc. unfold getAccount in Hnil. rewrite Hacc in Hnil.
      destruct acc. simpl in *. by subst. }
    rewrite Hw. by apply removeServiceImports_unchanged.
Qed.

End Disable.

(** C10, as stated, fails: account [A] is registered, was never enabled
    and imports none of the exported subjects; [DisableJetStream] returns
    the error and the account, like the rest of the world, is exactly as
    it was. *)
Lemma DisableJetStream_plain_account_unchanged :
  let w := Demo.server 100 1000 Demo.emptyDisk in
  let r := DisableJetStream Demo.externals "A" w in
  w_accounts w !! "A" = Some (mkAccount true None ∅) /\
  (w_js w ≫= fun js => js_accounts js !! "A") = None /\
  r.2 = Some (Errorf "jetstream not enabled for account") /\
  getAccount "A" r.1 = getAccount "A" w /\
  r.1 = w.
Proof. vm_compute. repeat split; reflexivity. Qed.

(** ** [EnableJetStream]: admission *)

Section Enable.

Context {Ext : Type} (E : Externals Ext).
Implicit Types (w : World Ext).

Lemma EnableJetStream_admitted w a limits js :
  acc_srv (getAccount a w) = true ->
  w_js w = Some js ->
  fitsBudget js (effectiveLimits js limits) ->
  js_accounts js !! a = None ->
  EnableJetStream E a limits w
    = afterRegistration E a (fresh (dom (w_jsas w)))
        (registered w a js (effectiveLimits js limits)).
Proof.
  intros Hsrv Hjs Hok Ha. apply sufficientResources_ok in Hok.
  unfold EnableJetStream.
  rewrite Hsrv, Hjs. cbn [negb]. fold (effectiveLimits js limits).
  rewrite Hok, Ha. unfold afterRegistration, bind. fold (registered w a js (effectiveLimits js limits)).
  destruct (addServiceImports E a _) as [w1 [err|]]; reflexivity.
Qed.

Lemma classic_admitted w a limits : admitted w a limits \/ ~ admitted w a limits.
Proof.
  unfold admitted.
  destruct (acc_srv (getAccount a w)); [|right; intros [? _]; done].
  destruct (w_js w) as [js|]; [|right; intros (_ & ? & ? & _); done].
  destruct (sufficientResources js (Some (effectiveLimits js limits))) eqn:Hok.
  { right. intros (_ & ? & ? & Hf & _). simplify_eq.
    apply sufficientResources_ok in Hf. congruence. }
  apply sufficientResources_ok in Hok.
  destruct (js_accounts js !! a) eqn:Ha;
    [right; intros (_ & ? & ? & ? & ?); simplify_eq; congruence|].
  left. split; [done|]. by exists js.
Qed.

(** A call that fails an admission check returns an error and leaves
    the world as it was. *)
Lemma EnableJetStream_rejected w a limits :
  ~ admitted w a limits ->
  exists err, EnableJetStream E a limits w = (w, Returns (Some err)).
Proof.
  intros Hn. unfold EnableJetStream.
  destruct (acc_srv (getAccount a w)) eqn:Hsrv; cbn [negb]; [|by eexists].
  destruct (w_js w) as [js|] eqn:Hjs; [|by eexists].
  fold (effectiveLimits js limits).
  destruct (sufficientResources js _) eqn:Hok; [by eexists|].
  destruct (js_accounts js !! a) eqn:Ha; [by eexists|].
  exfalso. apply Hn. split; [done|]. exists js. split; [done|]. split; [|done].
  by apply sufficientResources_ok.
Qed.

End Enable.

(** ** What the operations leave alone: the ledger and the stored limits *)

Section LedgerFrame.

Context {Ext : Type} (E : Externals Ext).
Implicit Types (w : World Ext).

Lemma sameLedger_refl w : sameLedger w w.
Proof. by split. Qed.

Lemma sameLedger_trans w1 w2 w3 :
  sameLedger w1 w2 -> sameLedger w2 w3 -> sameLedger w1 w3.
Proof.
  intros [H1 H2] [H3 H4]. split; [congruence|].
  intros l. by rewrite H4, H2.
Qed.

Lemma sameLedger_set_log x w : sameLedger w (set_log x w).
Proof. by split. Qed.
Lemma sameLedger_set_calls x w : sameLedger w (set_calls x w).
Proof. by split. Qed.
Lemma sameLedger_set_ext x w : sameLedger w (set_ext x w).
Proof. by split. Qed.
Lemma sameLedger_set_tmpls x w : sameLedger w (set_tmpls x w).
Proof. by split. Qed.
Lemma sameLedger_updTmpl t f w : sameLedger w (updTmpl t f w).
Proof. by split. Qed.
Lemma sameLedger_updAccount a f w : sameLedger w (updAccount a f w).
Proof. by split. Qed.

Lemma sameLedger_updJsa l f w :
  (forall j, jsa_limits (f j) = jsa_limits j) -> sameLedger w (updJsa l f w).
Proof.
  intros Hf. split; [done|]. intros l'.
  destruct (decide (l = l')) as [->|Hne].
  - by rewrite jsaAt_updJsa.
  - by rewrite jsaAt_updJsa_ne.
Qed.

(** Chains a result through the steps that produced it. *)
Ltac ledger_chain :=
  repeat first
    [ apply sameLedger_refl
    | assumption
    | match goal with
      | |- sameLedger ?w (set_log _ ?w') =>
          apply (sameLedger_trans w w'); [|apply sameLedger_set_log]
      | |- sameLedger ?w (set_calls _ ?w') =>
          apply (sameLedger_trans w w'); [|apply sameLedger_set_calls]
      | |- sameLedger ?w (set_ext _ ?w') =>
          apply (sameLedger_trans w w'); [|apply sameLedger_set_ext]
      | |- sameLedger ?w (set_tmpls _ ?w') =>
          apply (sameLedger_trans w w'); [|apply sameLedger_set_tmpls]
      | |- sameLedger ?w (updTmpl _ _ ?w') =>
          apply (sameLedger_trans w w'); [|apply sameLedger_updTmpl]
      | |- sameLedger ?w (updAccount _ _ ?w') =>
          apply (sameLedger_trans w w'); [|apply sameLedger_updAccount]
      | |- sameLedger ?w (updJsa _ _ ?w') =>
          apply (sameLedger_trans w w'); [|by apply sameLedger_updJsa]
      | K : sameLedger ?w' ?x |- sameLedger ?w ?x =>
          apply (sameLedger_trans w w' x); [|exact K]
      | |- sameLedger ?w (?m ?w').1 =>
          apply (sameLedger_trans w w'); [|solve [eauto]]
      end ].

(** Turns the equations left by a case analysis of the steps into
    [sameLedger] facts, using the lemmas of the hint base. *)
Ltac ledger_steps :=
  repeat match goal with
         | H : ?m ?w = (?w0, ?a) |- _ =>
             assert (sameLedger w w0)
               by (change w0 with (w0, a).1; rewrite <- H; eauto);
             clear H
         end.

Lemma invoke_keeps {A} (mk : A -> Call) f :
  (forall w, sameLedger w (f w).1) -> forall w, sameLedger w (invoke mk f w).1.
Proof.
  intros Hf w. unfold invoke. specialize (Hf w). destruct (f w) as [w' r].
  simpl in *. ledger_chain.
Qed.

Lemma onExt_keeps {A} (f : Ext -> Ext * A) w : sameLedger w (onExt f w).1.
Proof. unfold onExt. destruct (f (w_ext w)). simpl. ledger_chain. Qed.

Lemma logf_keeps lvl fmt w : sameLedger w (logf lvl fmt w).1.
Proof. unfold logf, modify. simpl. ledger_chain. Qed.

Lemma forEach_keeps {A} (f : A -> M Ext unit) l :
  (forall x w, sameLedger w (f x w).1) -> forall w, sameLedger w (forEach f l w).1.
Proof.
  intros Hf. induction l as [|x l IH]; intros w.
  - apply sameLedger_refl.
  - rewrite forEach_cons.
    eapply sameLedger_trans; [apply Hf | apply IH].
Qed.

Lemma forEachErr_keeps {A} (f : A -> M Ext (option error)) l :
  (forall x w, sameLedger w (f x w).1) -> forall w, sameLedger w (forEachErr f l w).1.
Proof.
  intros Hf. induction l as [|x l IH]; intros w.
  - apply sameLedger_refl.
  - simpl. unfold bind. specialize (Hf x w).
    destruct (f x w) as [w' [err|]]; simpl in *; [done|].
    eapply sameLedger_trans; [exact Hf | apply IH].
Qed.

Lemma forEachOutcome_keeps {A} (f : A -> M Ext (Outcome unit)) l :
  (forall x w, sameLedger w (f x w).1) ->
  forall w, sameLedger w (forEachOutcome f l w).1.
Proof.
  intros Hf. induction l as [|x l IH]; intros w.
  - apply sameLedger_refl.
  - simpl. unfold bind. specialize (Hf x w).
    destruct (f x w) as [w' [[]|]]; simpl in *; [|done].
    eapply sameLedger_trans; [exact Hf | apply IH].
Qed.

Hypothesis HE : ExternalsKeepLedger E.

Local Hint Resolve sameLedger_refl logf_keeps : core.
Local Hint Resolve invoke_keeps forEach_keeps forEachErr_keeps forEachOutcome_keeps : core.
Local Hint Resolve keep_AddStream keep_Stream_Delete
  keep_Stream_AddConsumer keep_Consumer_readStoredState onExt_keeps : core.

(** One proof for the operations that are a case analysis over steps. *)
Ltac ledger_cases :=
  intros; unfold bind, ret, modify, Warnf, Noticef, Debugf in *;
  repeat case_match; simplify_eq; cbn [fst snd] in *;
  ledger_steps; ledger_chain.

Lemma AddServiceImport_keeps a e w : sameLedger w (AddServiceImport E a e w).1.
Proof. unfold AddServiceImport. ledger_cases. Qed.

Lemma removeServiceImport_keeps a e w : sameLedger w (removeServiceImport a e w).1.
Proof. unfold removeServiceImport. ledger_cases. Qed.

Local Hint Resolve AddServiceImport_keeps removeServiceImport_keeps : core.

Lemma addServiceImportOf_keeps a e w : sameLedger w (addServiceImportOf E a e w).1.
Proof. unfold addServiceImportOf. ledger_cases. Qed.

Local Hint Resolve addServiceImportOf_keeps : core.

Lemma addServiceImports_keeps a w : sameLedger w (addServiceImports E a w).1.
Proof. unfold addServiceImports. eauto. Qed.

Lemma validateStreams_keeps a t w : sameLedger w (validateStreams a t w).1.
Proof. unfold validateStreams. ledger_cases. Qed.

Lemma addStreamNameToTemplate_keeps jsa tn mn w :
  sameLedger w (addStreamNameToTemplate jsa tn mn w).1.
Proof. unfold addStreamNameToTemplate. ledger_cases. Qed.

Lemma deleteStreams_keeps streams lastErr w :
  sameLedger w (deleteStreams E streams lastErr w).1.
Proof.
  revert lastErr w. induction streams as [|mset rest IH]; intros lastErr w.
  - apply sameLedger_refl.
  - simpl. unfold bind.
    destruct (invoke _ _ w) as [w' err] eqn:Hw.
    eapply sameLedger_trans; [|apply IH]. ledger_steps. done.
Qed.

Local Hint Resolve validateStreams_keeps addStreamNameToTemplate_keeps
  deleteStreams_keeps : core.

Lemma Delete_keeps t w : sameLedger w (Delete E t w).1.
Proof. unfold Delete. ledger_cases. Qed.

Local Hint Resolve Delete_keeps : core.

Lemma DeleteStreamTemplate_keeps a name w :
  sameLedger w (DeleteStreamTemplate E a name w).1.
Proof. unfold DeleteStreamTemplate. ledger_cases. Qed.

Local Hint Resolve DeleteStreamTemplate_keeps : core.

Lemma subscribeAll_keeps a tname subjects sid w :
  sameLedger w (subscribeAll E a tname subjects sid w).1.
Proof.
  revert sid w. induction subjects as [|subject rest IH]; intros sid w.
  - apply sameLedger_refl.
  - simpl. unfold bind.
    destruct (onExt (processSub E subject sid) w) as [w' [err|]] eqn:Hw.
    + destruct (DeleteStreamTemplate E a tname w') as [w'' r] eqn:Hw'.
      simpl. ledger_steps. ledger_chain.
    + eapply sameLedger_trans; [|apply IH]. ledger_steps. done.
Qed.

Local Hint Resolve subscribeAll_keeps : core.

Lemma createTemplateSubscriptions_keeps a t w :
  sameLedger w (createTemplateSubscriptions E a t w).1.
Proof. unfold createTemplateSubscriptions. ledger_cases. Qed.

Local Hint Resolve createTemplateSubscriptions_keeps : core.

Lemma subscribeAndStore_keeps a jsa t tcopy w :
  sameLedger w (subscribeAndStore E a jsa t tcopy w).1.
Proof. unfold subscribeAndStore. ledger_cases. Qed.

Local Hint Resolve subscribeAndStore_keeps : core.

Lemma AddStreamTemplate_keeps a tc w : sameLedger w (AddStreamTemplate E a tc w).1.
Proof. unfold AddStreamTemplate. ledger_cases. Qed.

Local Hint Resolve AddStreamTemplate_keeps : core.

Lemma recoverTemplate_keeps a tdir hh fi w :
  sameLedger w (recoverTemplate E a tdir hh fi w).1.
Proof. unfold recoverTemplate. ledger_cases. Qed.

Lemma recoverConsumer_keeps odir mset ofi w :
  sameLedger w (recoverConsumer E odir mset ofi w).1.
Proof. unfold recoverConsumer. ledger_cases. Qed.

Local Hint Resolve recoverTemplate_keeps recoverConsumer_keeps : core.

Lemma recoverStream_keeps a jsa sdir fi w :
  sameLedger w (recoverStream E a jsa sdir fi w).1.
Proof. unfold recoverStream. ledger_cases. Qed.

Lemma upgradeStoreDir_keeps storeDir sdir w :
  sameLedger w (upgradeStoreDir E storeDir sdir w).1.
Proof.
  unfold upgradeStoreDir.
  assert (forall l w, sameLedger w
            (forEach (fun fi => modify (fun w =>
               set_ext (os_Rename E (path_Join [storeDir; fi])
                          (path_Join [sdir; fi]) (w_ext w)) w)) l w).1).
  { intros l. apply forEach_keeps. intros x w0. unfold modify. simpl. ledger_chain. }
  ledger_cases.
Qed.

Lemma recoverTemplates_keeps a storeDir w :
  sameLedger w (recoverTemplates E a storeDir w).1.
Proof. unfold recoverTemplates. ledger_cases. Qed.

Local Hint Resolve recoverStream_keeps upgradeStoreDir_keeps recoverTemplates_keeps : core.

Lemma recoverState_keeps a jsa w : sameLedger w (recoverState E a jsa w).1.
Proof. unfold recoverState. ledger_cases. Qed.

Lemma jsa_delete_keeps jsa w : sameLedger w (jsa_delete E jsa w).1.
Proof.
  unfold jsa_delete.
  assert (forall l w, sameLedger w
            (forEach (fun ms => invoke (fun _ => CallStreamStop (sc_Name (stream_config ms)))
                                  (fun w => (Stream_stop E ms w, tt))) l w).1).
  { intros l. apply forEach_keeps. intros ms w0. apply invoke_keeps.
    intros w1. simpl. apply (keep_Stream_stop HE). }
  assert (forall acc l w, sameLedger w
            (forEach (fun t => bind (DeleteStreamTemplate E acc t) (fun _ => ret tt)) l w).1).
  { intros acc l. apply forEach_keeps. intros t w0. ledger_cases. }
  ledger_cases.
Qed.

Local Hint Resolve recoverState_keeps jsa_delete_keeps addServiceImports_keeps : core.

Lemma afterRegistration_keeps a jsa w : sameLedger w (afterRegistration E a jsa w).1.
Proof. unfold afterRegistration, logf. ledger_cases. Qed.

Lemma disableJetStream_nonpos w jsa js :
  w_js w = Some js ->
  MaxMemory (jsa_limits (jsaAt jsa w)) <= 0 ->
  MaxStore (jsa_limits (jsaAt jsa w)) <= 0 ->
  reservations (disableJetStream E (Some jsa) w).1 = reservations w.
Proof.
  intros Hjs Hm Hs. unfold disableJetStream, bind.
  rewrite Hjs. cbn [fmap option_fmap option_map].
  rewrite releaseResources_nonpos by done.
  match goal with |- context [jsa_delete E jsa ?w0] =>
    pose proof (jsa_delete_keeps jsa w0) as [Hk _];
    destruct (jsa_delete E jsa w0) as [w1 []] end.
  simpl in *. unfold reservations. rewrite Hk, Hjs. reflexivity.
Qed.

(** C9.  [reserveResources] and [releaseResources] leave [memReserved]
    alone unless [MaxMemory] is strictly positive, and [storeReserved]
    alone unless [MaxStore] is; so, when the collaborators do not write to
    the ledger, enabling an account with limits that are both non-positive
    and then disabling it leaves the two reservations of the server as
    they were. *)
Theorem enable_disable_nonpositive_limits w a l w1 w2 r :
  MaxMemory l <= 0 -> MaxStore l <= 0 ->
  EnableJetStream E a (Some l) w = (w1, Returns None) ->
  DisableJetStream E a w1 = (w2, r) ->
  (forall js l',
     (MaxMemory l' <= 0 ->
        js_memReserved (reserveResources js (Some l')) = js_memReserved js /\
        js_memReserved (releaseResources js (Some l')) = js_memReserved js) /\
     (MaxStore l' <= 0 ->
        js_storeReserved (reserveResources js (Some l')) = js_storeReserved js /\
        js_storeReserved (releaseResources js (Some l')) = js_storeReserved js)) /\
  reservations w1 = reservations w /\
  reservations w2 = reservations w.
Proof.
  intros Hm Hs Hen Hdis. split.
  { intros js l'. split; intros Hl.
    - rewrite reserveResources_mem, releaseResources_mem.
      destruct (Z.gtb_spec (MaxMemory l') 0); [lia|done].
    - rewrite reserveResources_store, releaseResources_store.
      destruct (Z.gtb_spec (MaxStore l') 0); [lia|done]. }
  destruct (classic_admitted w a (Some l)) as [Hadm|Hadm]; cycle 1.
  { apply (EnableJetStream_rejected E) in Hadm as [err Hadm].
    rewrite Hen in Hadm. discriminate. }
  destruct Hadm as (Hsrv & js & Hjs & Hok & Ha).
  rewrite (EnableJetStream_admitted E w a (Some l) js Hsrv Hjs Hok Ha) in Hen.
  change (effectiveLimits js (Some l)) with l in Hen.
  set (jsa := fresh (dom (w_jsas w))) in *.
  pose proof (afterRegistration_keeps a jsa (registered w a js l)) as [Hk1 Hk2].
  rewrite Hen in Hk1, Hk2. cbn [fst] in Hk1, Hk2.
  unfold registered in Hk1. cbn [w_js updAccount set_accounts set_js] in Hk1.
  fold jsa in Hk1. rewrite reserveResources_nonpos in Hk1 by done.
  specialize (Hk2 jsa). unfold registered in Hk2. fold jsa in Hk2.
  assert (Hlim : jsa_limits (jsaAt jsa w1) = l).
  { rewrite Hk2. unfold jsaAt, updAccount. simpl. by rewrite lookup_insert_eq. }
  assert (Hr1 : reservations w1 = reservations w).
  { unfold reservations. by rewrite Hk1, Hjs. }
  split; [exact Hr1|]. rewrite <- Hr1.
  destruct (acc_srv (getAccount a w1)) eqn:Hsrv1.
  - destruct (DisableJetStream_unfold E w1 a _ Hsrv1 Hk1) as [Hd Hjs1].
    rewrite Hd in Hdis. unfold lookupAccount, js_set_accounts in Hdis.
    cbn [js_accounts] in Hdis. rewrite lookup_insert_eq in Hdis.
    pose proof (removeServiceImports_spec a allJsExports
                  (updAccount a (acc_set_js None) w1)) as (_ & Hj & _).
    set (w1' := (forEach (removeServiceImport a) allJsExports
                   (updAccount a (acc_set_js None) w1)).1) in *.
    assert (Hat : jsaAt jsa w1' = jsaAt jsa w1).
    { unfold jsaAt. by rewrite Hj. }
    replace w2 with (disableJetStream E (Some jsa) w1').1 by (by rewrite Hdis).
    rewrite (disableJetStream_nonpos w1' jsa _ Hjs1) by (rewrite Hat, Hlim; done).
    unfold reservations. by rewrite Hjs1, Hk1.
  - unfold DisableJetStream in Hdis. rewrite Hsrv1 in Hdis. simpl in Hdis.
    by simplify_eq.
Qed.

End LedgerFrame.

(** ** [EnableJetStream]: when it succeeds *)

Section EnableOutcome.

Context {Ext : Type} (E : Externals Ext).
Implicit Types (w : World Ext).

Lemma highwayhash_New64_sha256 p :
  highwayhash_New64 E (sha256_Sum256 E p)
    = inr (highwayhash_Sum64 E (sha256_Sum256 E p)).
Proof. unfold highwayhash_New64. by rewrite sha256_Size. Qed.

(** The stream scan never makes [EnableJetStream] fail. *)
Lemma recoverStream_result a jsa sdir fi w :
  (recoverStream E a jsa sdir fi w).2 = None.
Proof.
  unfold recoverStream. rewrite highwayhash_New64_sha256. cbv zeta.
  repeat case_match; unfold bind; repeat case_match; reflexivity.
Qed.

Lemma recoverStreams_result a jsa sdir fis w :
  (forEachErr (recoverStream E a jsa sdir) fis w).2 = None.
Proof.
  revert w. induction fis as [|fi rest IH]; intros w; [done|].
  simpl. unfold bind.
  pose proof (recoverStream_result a jsa sdir fi w) as Hr.
  destruct (recoverStream E a jsa sdir fi w) as [w' r]. simpl in Hr. subst r.
  apply IH.
Qed.

(** *** Where the template code panics *)

Lemma createTemplateSubscriptions_no_panic a t w :
  is_Some (tc_Config (t_cfg (tmplAt t w))) ->
  (createTemplateSubscriptions E a t w).2 <> Panics.
Proof.
  intros [config Hc]. unfold createTemplateSubscriptions. rewrite Hc.
  destruct (t_tc (tmplAt t w)); cbn [negb]; [|done].
  destruct (eventsEnabled E (w_ext w)); cbn [negb]; [|done].
  unfold bind. by destruct (subscribeAll E _ _ _ _ w).
Qed.

Lemma subscribeAndStore_no_panic a jsa t tcopy w :
  is_Some (tc_Config (t_cfg (tmplAt t w))) ->
  (subscribeAndStore E a jsa t tcopy w).2 <> Panics.
Proof.
  intros Hc. unfold subscribeAndStore, bind.
  pose proof (createTemplateSubscriptions_no_panic a t w Hc) as Hn.
  destruct (createTemplateSubscriptions E a t w) as [w1 [[err|]|]]; [done| |done].
  destruct (jsa_store (jsaAt jsa w1)); [|done].
  destruct (invoke _ _ w1) as [w2 [err|]]; [|done].
  by destruct (Delete E t w2).
Qed.

(** [AddStreamTemplate] panics exactly when the account passes
    [checkForJetStream] and the configuration has no stream
    configuration; nothing has been written by then. *)
Lemma AddStreamTemplate_panics a tc w :
  (AddStreamTemplate E a tc w).2 = Panics <->
  (exists jsa, checkForJetStream a w = inr jsa) /\ tc_Config tc = None.
Proof.
  unfold AddStreamTemplate.
  destruct (checkForJetStream a w) as [err|jsa]; [split; [done|by intros [[? ?] _]]|].
  destruct (tc_Config tc) as [config|]; [|split; [eauto|done]].
  split; [|by intros [_ ?]]. intros Hp. exfalso. revert Hp.
  destruct (negb _); [done|].
  destruct (checkStreamCfg E _) as [err|cfg]; [done|]. cbv zeta.
  assert (Hfresh : forall w',
            w_tmpls w' = <[fresh (dom (w_tmpls w)) :=
                             mkStreamTemplate true (Some jsa)
                               (mkStreamTemplateConfig (tc_Name tc) (Some cfg) (tc_MaxStreams tc)) []]>
                           (w_tmpls w) ->
            is_Some (tc_Config (t_cfg (tmplAt (fresh (dom (w_tmpls w))) w')))).
  { intros w' Hw'. unfold tmplAt. rewrite Hw', lookup_insert_eq. by eexists. }
  destruct (jsa_templates _) as [templates|].
  - destruct (templates !! _); [done|]. by apply subscribeAndStore_no_panic, Hfresh.
  - by apply subscribeAndStore_no_panic, Hfresh.
Qed.

Lemma AddStreamTemplate_panics_unchanged a tc w :
  (AddStreamTemplate E a tc w).2 = Panics -> (AddStreamTemplate E a tc w).1 = w.
Proof.
  intros Hp. apply AddStreamTemplate_panics in Hp as [[jsa Hj] Hc].
  unfold AddStreamTemplate. by rewrite Hj, Hc.
Qed.

(** The scan of one template directory panics exactly when the entry
    passes every check and decodes to a value without a stream
    configuration. *)
Lemma recoverTemplate_panics a tdir hh fi w :
  (recoverTemplate E a tdir hh fi w).2 = Panics <->
  exists buf cfg,
    ioutil_ReadFile E (path_Join [tdir; fi; JetStreamMetaFile]) (w_ext w) = inr buf /\
    os_Stat E (path_Join [tdir; fi; JetStreamMetaFileSum]) (w_ext w) <> StatNotExist /\
    ioutil_ReadFile E (path_Join [tdir; fi; JetStreamMetaFileSum]) (w_ext w)
      = inr (hex_EncodeToString (hh buf)) /\
    json_Unmarshal_StreamTemplateConfig E buf = inr cfg /\
    tc_Config cfg = None.
Proof.
  unfold recoverTemplate. cbv zeta. split.
  - intros Hp.
    destruct (ioutil_ReadFile E (path_Join [tdir; fi; JetStreamMetaFile]) (w_ext w))
      as [e|buf] eqn:Hbuf; [by cbn in Hp|].
    assert (Hst : os_Stat E (path_Join [tdir; fi; JetStreamMetaFileSum]) (w_ext w)
                  <> StatNotExist).
    { intros Hst. rewrite Hst in Hp. by cbn in Hp. }
    assert (Hp' :
      (match ioutil_ReadFile E (path_Join [tdir; fi; JetStreamMetaFileSum]) (w_ext w) with
       | inl _ => (w, Returns tt)
       | inr sum =>
           if negb (bool_decide (hex_EncodeToString (hh buf) = sum))
           then (w, Returns tt)
           else
             match json_Unmarshal_StreamTemplateConfig E buf with
             | inl _ => (w, Returns tt)
             | inr cfg =>
                 match tc_Config cfg with
                 | Some config => (w, Returns tt)
                 | None => (w, Panics)
                 end
             end
       end).2 = Panics).
    { destruct (os_Stat E (path_Join [tdir; fi; JetStreamMetaFileSum]) (w_ext w));
        [done|..];
        (destruct (ioutil_ReadFile E (path_Join [tdir; fi; JetStreamMetaFileSum]) (w_ext w))
           as [e|sum]; [by cbn in Hp|];
         destruct (negb _); [by cbn in Hp|];
         destruct (json_Unmarshal_StreamTemplateConfig E buf) as [e|cfg]; [by cbn in Hp|];
         destruct (tc_Config cfg) as [config|]; [|done];
         exfalso; revert Hp; unfold bind;
         match goal with |- context [AddStreamTemplate E a ?tc w] =>
           pose proof (proj1 (AddStreamTemplate_panics a tc w)) as Hn;
           destruct (AddStreamTemplate E a tc w) as [w1 [[e|t]|]] end; try done;
         cbn in Hn; intros _; by destruct (Hn eq_refl) as [_ ?]). }
    clear Hp.
    destruct (ioutil_ReadFile E (path_Join [tdir; fi; JetStreamMetaFileSum]) (w_ext w))
      as [e|sum]; [done|].
    destruct (decide (hex_EncodeToString (hh buf) = sum)) as [<-|Hne];
      [|by rewrite bool_decide_eq_false_2 in Hp' by done].
    rewrite bool_decide_eq_true_2 in Hp' by done. cbn [negb] in Hp'.
    destruct (json_Unmarshal_StreamTemplateConfig E buf) as [e|cfg] eqn:Hd; [done|].
    destruct (tc_Config cfg) as [config|] eqn:Hc; [done|].
    by exists buf, cfg.
  - intros (buf & cfg & -> & Hst & -> & -> & ->).
    rewrite bool_decide_eq_true_2 by done. cbn [negb].
    by destruct (os_Stat E _ (w_ext w)).
Qed.

Lemma recoverTemplate_panics_unchanged a tdir hh fi w :
  (recoverTemplate E a tdir hh fi w).2 = Panics ->
  recoverTemplate E a tdir hh fi w = (w, Panics).
Proof.
  intros Hp. apply recoverTemplate_panics in Hp
    as (buf & cfg & Hbuf & Hst & Hsum & Hd & Hc).
  unfold recoverTemplate. rewrite Hbuf, Hsum, Hd, Hc.
  rewrite bool_decide_eq_true_2 by done. cbn [negb].
  by destruct (os_Stat E _ (w_ext w)).
Qed.

Lemma forEachOutcome_panics {A} (f : A -> M Ext (Outcome unit)) l w :
  (forEachOutcome f l w).2 = Panics ->
  exists x w', x ∈ l /\ (f x w').2 = Panics.
Proof.
  revert w. induction l as [|x l IH]; intros w; [done|].
  simpl. unfold bind. destruct (f x w) as [w1 [[]|]] eqn:Hx.
  - intros Hp. destruct (IH w1 Hp) as (y & w' & Hy & Hp').
    exists y, w'. split; [by apply list_elem_of_further|done].
  - intros _. exists x, w. split; [apply list_elem_of_here|]. by rewrite Hx.
Qed.

(** The template scan returns no error: it completes or panics. *)
Lemma recoverTemplates_result a storeDir w :
  (recoverTemplates E a storeDir w).2 = Returns None \/
  (recoverTemplates E a storeDir w).2 = Panics.
Proof.
  unfold recoverTemplates. rewrite highwayhash_New64_sha256.
  destruct (os_Stat E _ (w_ext w)) as [| |[]]; try (by left).
  unfold bind. destruct (forEachOutcome _ _ w) as [w1 [[]|]]; [by left|by right].
Qed.

Lemma recoverTemplates_panics a storeDir w :
  (recoverTemplates E a storeDir w).2 = Panics ->
  exists fi d, templateWithoutConfig E (path_Join [storeDir; tmplsDir]) fi d.
Proof.
  unfold recoverTemplates. rewrite highwayhash_New64_sha256.
  destruct (os_Stat E _ (w_ext w)) as [| |[]]; try done.
  unfold bind.
  match goal with |- context [forEachOutcome ?f ?l w] =>
    pose proof (forEachOutcome_panics f l w) as Hl;
    destruct (forEachOutcome f l w) as [w1 [[]|]] end; [done|].
  intros _. destruct (Hl eq_refl) as (fi & w' & _ & Hp).
  apply recoverTemplate_panics in Hp. by exists fi, (w_ext w').
Qed.

(** It panics at once when the first entry of the directory is a
    template without a stream configuration. *)
Lemma recoverTemplates_first_panics a storeDir fi rest w :
  let tdir := path_Join [storeDir; tmplsDir] in
  os_Stat E tdir (w_ext w) = StatOk true ->
  ioutil_ReadDir E tdir (w_ext w) = fi :: rest ->
  templateWithoutConfig E tdir fi (w_ext w) ->
  recoverTemplates E a storeDir w = (w, Panics).
Proof.
  intros tdir Hst Hdir Hfi. unfold recoverTemplates. fold tdir.
  rewrite Hst, highwayhash_New64_sha256, Hdir. simpl. unfold bind at 1 2.
  rewrite (recoverTemplate_panics_unchanged a tdir _ fi w); [done|].
  by apply recoverTemplate_panics.
Qed.

Lemma upgradeStoreDir_result storeDir sdir w :
  (upgradeStoreDir E storeDir sdir w).2 = None <->
  (os_Stat E sdir (w_ext w) <> StatNotExist \/ (os_MkdirAll E sdir (w_ext w)).2 = None).
Proof.
  unfold upgradeStoreDir.
  destruct (os_Stat E sdir (w_ext w)) eqn:Hst;
    [|split; [intros _; left; done|done]..].
  unfold bind, Noticef, logf, modify. simpl.
  destruct (os_MkdirAll E sdir (w_ext w)) as [ext [err|]]; simpl.
  - split; [done|]. intros [?|?]; done.
  - split; [by right|]. intros _.
    by destruct (forEach _ _ _).
Qed.

Lemma upgradeStoreDir_log storeDir sdir w :
  w_jsas (upgradeStoreDir E storeDir sdir w).1 = w_jsas w.
Proof.
  unfold upgradeStoreDir.
  destruct (os_Stat E sdir (w_ext w)); try done.
  unfold bind, Noticef, logf, modify. simpl.
  destruct (os_MkdirAll E sdir (w_ext w)) as [ext [err|]]; simpl; [done|].
  match goal with |- context [forEach ?f ?l ?w0] =>
    change (w_jsas w) with (w_jsas w0); generalize w0 end.
  induction (ioutil_ReadDir E storeDir (w_ext w)) as [|x l IH]; intros w0; [done|].
  rewrite forEach_cons. unfold bind in *.
  specialize (IH (modify (fun w1 => set_ext (os_Rename E (path_Join [storeDir; x])
                    (path_Join [sdir; x]) (w_ext w1)) w1) w0).1).
  destruct (forEach _ l _). simpl in *. exact IH.
Qed.


Lemma upgradeStoreDir_present storeDir sdir w :
  os_Stat E sdir (w_ext w) <> StatNotExist ->
  upgradeStoreDir E storeDir sdir w = (w, None).
Proof. intros Hst. unfold upgradeStoreDir. by destruct (os_Stat E sdir (w_ext w)). Qed.

(** The tail of [EnableJetStream] returns an error exactly when the
    streams directory is missing and cannot be created; otherwise it
    completes, unless the template scan panics. *)
Lemma recoverState_result a jsa w :
  let sdir := path_Join [jsa_storeDir (jsaAt jsa w); streamsDir] in
  let tdir := path_Join [jsa_storeDir (jsaAt jsa w); tmplsDir] in
  let ready := os_Stat E sdir (w_ext w) <> StatNotExist \/
               (os_MkdirAll E sdir (w_ext w)).2 = None in
  let r := recoverState E a jsa w in
  (r.2 = Returns None -> ready) /\
  (ready -> r.2 = Returns None \/ r.2 = Panics) /\
  (r.2 = Panics -> ready /\ exists fi d, templateWithoutConfig E tdir fi d).
Proof.
  cbv zeta.
  pose proof (upgradeStoreDir_result (jsa_storeDir (jsaAt jsa w))
                (path_Join [jsa_storeDir (jsaAt jsa w); streamsDir]) w) as Hu.
  unfold recoverState, bind, Noticef, logf, modify.
  destruct (upgradeStoreDir E _ _ w) as [w1 [err|]]; cbn [fst snd] in *.
  { split_and!; [done| |done]. intros Hr. apply Hu in Hr. done. }
  assert (Hready : os_Stat E (path_Join [jsa_storeDir (jsaAt jsa w); streamsDir]) (w_ext w)
                     <> StatNotExist \/
                   (os_MkdirAll E (path_Join [jsa_storeDir (jsaAt jsa w); streamsDir])
                      (w_ext w)).2 = None) by (by apply Hu).
  match goal with |- context [recoverTemplates E a ?sd ?w0] =>
    pose proof (recoverTemplates_result a sd w0) as Ht;
    pose proof (recoverTemplates_panics a sd w0) as Hp;
    destruct (recoverTemplates E a sd w0) as [w3 r3] end.
  cbn [fst snd] in *. destruct Ht as [-> | ->].
  - match goal with |- context [forEachErr (recoverStream E a jsa ?sd) ?l ?w0] =>
      pose proof (recoverStreams_result a jsa sd l w0) as Hs;
      destruct (forEachErr (recoverStream E a jsa sd) l w0) as [w4 r4] end.
    cbn [fst snd] in *. subst r4. cbn. split_and!; [done|by left|done].
  - cbn. split_and!; [done|by right|]. intros _. split; [done|]. by apply Hp.
Qed.

(** The import loop stops at the first refusal and changes nothing but
    the imports of the account. *)
Lemma addServiceImports_result a (exports : list string) w :
  let r := forEachErr (addServiceImportOf E a) exports w in
  w_ext r.1 = w_ext w /\ w_jsas r.1 = w_jsas w /\ w_js r.1 = w_js w /\
  w_log r.1 = w_log w /\
  (r.2 = None <->
   forall export, export ∈ exports -> serviceImportError E a export (w_ext w) = None) /\
  (forall err, r.2 = Some err -> exists e,
     err = ErrorfErr "Error setting up jetstream service imports for account: %v" e).
Proof.
  revert w. induction exports as [|x rest IH]; intros w; cbv zeta.
  - simpl. split_and!; try done. split; [|done]. intros _ e He. by apply elem_of_nil in He.
  - simpl. unfold bind, addServiceImportOf at 1 3 5 7 9 11, AddServiceImport, bind, ret.
    destruct (serviceImportError E a x (w_ext w)) as [err|] eqn:Hx; simpl.
    + split_and!; try done.
      * split; [done|]. intros H. specialize (H x (list_elem_of_here _ _)). congruence.
      * intros ? [= <-]. eauto.
    + match goal with |- context [forEachErr _ rest ?w0] => specialize (IH w0) end.
      cbv zeta in IH. destruct IH as (H1 & H2 & H3 & H4 & H5 & H6).
      simpl in *. rewrite H1, H2, H3, H4. split_and!; try done.
      rewrite H5. split.
      * intros H e He. apply elem_of_cons in He as [->|He]; auto.
      * intros H e He. apply H. by apply list_elem_of_further.
Qed.


(** The same for everything that follows the registration. *)
Lemma afterRegistration_result a jsa w :
  let sdir := path_Join [jsa_storeDir (jsaAt jsa w); streamsDir] in
  let tdir := path_Join [jsa_storeDir (jsaAt jsa w); tmplsDir] in
  let ready := os_Stat E sdir (w_ext w) <> StatNotExist \/
               (os_MkdirAll E sdir (w_ext w)).2 = None in
  let r := afterRegistration E a jsa w in
  (r.2 = Returns None -> importsAccepted E w a /\ ready) /\
  (importsAccepted E w a -> ready -> r.2 = Returns None \/ r.2 = Panics) /\
  (r.2 = Panics ->
     importsAccepted E w a /\ ready /\ exists fi d, templateWithoutConfig E tdir fi d).
Proof.
  cbv zeta. unfold afterRegistration, addServiceImports, importsAccepted.
  pose proof (addServiceImports_result a allJsExports w) as Hi. cbv zeta in Hi.
  destruct (forEachErr (addServiceImportOf E a) allJsExports w) as [w1 r1].
  cbn [fst snd] in Hi. destruct Hi as (Hext & Hjsas & _ & _ & Hok & _).
  destruct r1 as [err|].
  - cbn [snd]. split_and!; [done| |done]. intros Hall _. apply Hok in Hall. done.
  - assert (Hall : forall export, export ∈ allJsExports ->
                     serviceImportError E a export (w_ext w) = None) by (by apply Hok).
    match goal with |- context [recoverState E a jsa ?w0] =>
      pose proof (recoverState_result a jsa w0) as Hr; cbv zeta in Hr;
      assert (Hj : jsaAt jsa w0 = jsaAt jsa w)
        by (unfold jsaAt, logf, modify; cbn; by rewrite Hjsas);
      assert (He : w_ext w0 = w_ext w) by (unfold logf, modify; cbn; exact Hext)
    end.
    rewrite Hj, He in Hr. destruct Hr as (H1 & H2 & H3).
    split_and!.
    + intros H. split; [done|]. by apply H1.
    + intros _ H. by apply H2.
    + intros H. split; [done|]. by apply H3.
Qed.

(** The streams directory of a fresh account state. *)
Lemma registered_storeDir w a js l :
  jsa_storeDir (jsaAt (fresh (dom (w_jsas w))) (registered w a js l))
    = path_Join [cfg_StoreDir (js_config js); a] /\
  w_ext (registered w a js l) = w_ext w.
Proof.
  split; [|done]. unfold registered, jsaAt, updAccount. simpl. by rewrite lookup_insert_eq.
Qed.

Lemma importsAccepted_registered w a js l :
  importsAccepted E (registered w a js l) a <-> importsAccepted E w a.
Proof. reflexivity. Qed.

(** What a call of [EnableJetStream] comes to. *)
Lemma EnableJetStream_outcome w a limits :
  let r := EnableJetStream E a limits w in
  (r.2 = Returns None ->
     admitted w a limits /\ importsAccepted E w a /\ storeDirReady E w a) /\
  (admitted w a limits -> importsAccepted E w a -> storeDirReady E w a ->
     r.2 = Returns None \/ r.2 = Panics) /\
  (r.2 = Panics ->
     admitted w a limits /\ importsAccepted E w a /\ storeDirReady E w a /\
     exists js fi d,
       w_js w = Some js /\
       templateWithoutConfig E
         (path_Join [path_Join [cfg_StoreDir (js_config js); a]; tmplsDir]) fi d).
Proof.
  cbv zeta.
  destruct (classic_admitted w a limits) as [Hadm|Hadm]; cycle 1.
  { destruct (EnableJetStream_rejected E w a limits Hadm) as [err ->].
    split_and!; done. }
  pose proof Hadm as (Hsrv & js & Hjs & Hok & Ha).
  rewrite (EnableJetStream_admitted E w a limits js Hsrv Hjs Hok Ha).
  pose proof (afterRegistration_result a (fresh (dom (w_jsas w)))
                (registered w a js (effectiveLimits js limits))) as Hr.
  cbv zeta in Hr.
  destruct (registered_storeDir w a js (effectiveLimits js limits)) as [Hsd Hext].
  rewrite Hsd, Hext, importsAccepted_registered in Hr.
  destruct Hr as (H1 & H2 & H3).
  assert (Hready : storeDirReady E w a <->
            os_Stat E (path_Join [path_Join [cfg_StoreDir (js_config js); a]; streamsDir])
              (w_ext w) <> StatNotExist \/
            (os_MkdirAll E (path_Join [path_Join [cfg_StoreDir (js_config js); a]; streamsDir])
               (w_ext w)).2 = None).
  { unfold storeDirReady. split.
    - intros H. by apply H.
    - intros H js' Hjs'. by simplify_eq. }
  split_and!.
  - intros H. destruct (H1 H) as [Hi Hd]. split_and!; [done|done|by apply (proj2 Hready)].
  - intros _ Hi Hd. apply H2; [done|by apply (proj1 Hready)].
  - intros H. destruct (H3 H) as (Hi & Hd & fi & d & Hfi).
    split_and!; [done|done|by apply (proj2 Hready)|]. by exists js, fi, d.
Qed.

(** It panics when the streams directory is there and the first entry
    of the templates directory is a template without a stream
    configuration. *)
Lemma EnableJetStream_panics w a limits js fi rest :
  admitted w a limits -> importsAccepted E w a ->
  w_js w = Some js ->
  let storeDir := path_Join [cfg_StoreDir (js_config js); a] in
  let tdir := path_Join [storeDir; tmplsDir] in
  os_Stat E (path_Join [storeDir; streamsDir]) (w_ext w) <> StatNotExist ->
  os_Stat E tdir (w_ext w) = StatOk true ->
  ioutil_ReadDir E tdir (w_ext w) = fi :: rest ->
  templateWithoutConfig E tdir fi (w_ext w) ->
  (EnableJetStream E a limits w).2 = Panics.
Proof.
  intros (Hsrv & js' & Hjs' & Hok & Ha) Himp Hjs. rewrite Hjs in Hjs'.
  injection Hjs' as <-. intros storeDir tdir Hsdir Htdir Hdir Hfi.
  rewrite (EnableJetStream_admitted E w a limits js Hsrv Hjs Hok Ha).
  destruct (registered_storeDir w a js (effectiveLimits js limits)) as [Hsd Hext].
  unfold afterRegistration, addServiceImports.
  pose proof (addServiceImports_result a allJsExports
                (registered w a js (effectiveLimits js limits))) as Hi. cbv zeta in Hi.
  destruct (forEachErr (addServiceImportOf E a) allJsExports _) as [w1 r1].
  cbn [fst snd] in Hi. destruct Hi as (Hext1 & Hjsas & _ & _ & Hres & _).
  assert (r1 = None) as -> by (by apply Hres).
  match goal with |- (recoverState E a ?jsa ?w0).2 = _ =>
    assert (Hj : jsa_storeDir (jsaAt jsa w0) = storeDir)
      by (subst storeDir; rewrite <- Hsd; unfold jsaAt, logf, modify; cbn; by rewrite Hjsas);
    assert (He : w_ext w0 = w_ext w)
      by (unfold logf, modify; cbn; by rewrite Hext1);
    generalize dependent w0 end.
  intros w0 Hj He. unfold recoverState. rewrite Hj. fold storeDir.
  unfold bind at 1. rewrite upgradeStoreDir_present by (by rewrite He).
  unfold bind at 1, Noticef, logf, modify. unfold bind at 1.
  rewrite (recoverTemplates_first_panics a storeDir fi rest); first done.
  - cbn [w_ext set_log]. by rewrite He.
  - cbn [w_ext set_log]. by rewrite He.
  - cbn [w_ext set_log]. by rewrite He.
Qed.

(** C6.  Enabling an account returns nil only when the admission checks
    pass (the account is registered with a server on which JetStream is
    enabled, memory and store fit the remaining budget in the 64-bit
    arithmetic of the code, the account is not enabled yet) and, after
    them, the service imports are accepted and the streams directory is
    there or can be created.  When all of this holds the call returns nil
    unless the template scan panics, which it does only on a template
    file that passes the checks of the scan and decodes to a value without
    a stream configuration, and which it does when such a file is the
    first entry of the templates directory; so with a decoder that always
    fills the configuration the call returns nil exactly when the checks
    pass.  A failed memory or store check gives the matching
    "insufficient ... resources available" error, and a failed admission
    check returns an error and leaves the world, the ledger included, as
    it was.  Scenario: with a budget of 100, an account with a memory
    limit of 60 is enabled and a second one asking for 50 is then
    refused. *)
Theorem EnableJetStream_admission w a limits :
  let r := EnableJetStream E a limits w in
  (r.2 = Returns None ->
     admitted w a limits /\ importsAccepted E w a /\ storeDirReady E w a) /\
  (admitted w a limits -> importsAccepted E w a -> storeDirReady E w a ->
     r.2 = Returns None \/ r.2 = Panics) /\
  (r.2 = Panics ->
     exists js fi d,
       w_js w = Some js /\
       templateWithoutConfig E
         (path_Join [path_Join [cfg_StoreDir (js_config js); a]; tmplsDir]) fi d) /\
  (forall js fi rest,
     admitted w a limits -> importsAccepted E w a -> w_js w = Some js ->
     let storeDir := path_Join [cfg_StoreDir (js_config js); a] in
     let tdir := path_Join [storeDir; tmplsDir] in
     os_Stat E (path_Join [storeDir; streamsDir]) (w_ext w) <> StatNotExist ->
     os_Stat E tdir (w_ext w) = StatOk true ->
     ioutil_ReadDir E tdir (w_ext w) = fi :: rest ->
     templateWithoutConfig E tdir fi (w_ext w) ->
     r.2 = Panics) /\
  (DecoderFillsConfig E ->
     (r.2 = Returns None <->
      admitted w a limits /\ importsAccepted E w a /\ storeDirReady E w a)) /\
  (forall js, acc_srv (getAccount a w) = true -> w_js w = Some js ->
     let l := effectiveLimits js limits in
     (Int64.add (js_memReserved js) (MaxMemory l) > cfg_MaxMemory (js_config js) ->
        r = (w, Returns (Some (Errorf "insufficient memory resources available")))) /\
     (Int64.add (js_memReserved js) (MaxMemory l) <= cfg_MaxMemory (js_config js) ->
      Int64.add (js_storeReserved js) (MaxStore l) > cfg_MaxStore (js_config js) ->
        r = (w, Returns (Some (Errorf "insufficient storage resources available")))) /\
     (fitsBudget js l -> is_Some (js_accounts js !! a) ->
        r = (w, Returns (Some (Errorf "jetstream already enabled for account"))))) /\
  (~ admitted w a limits -> exists err, r = (w, Returns (Some err))) /\
  (let w0 := Demo.server 100 1000 Demo.emptyDisk in
   let rA := EnableJetStream Demo.externals "A" (Some (mkLimits 60 0 (-1) (-1))) w0 in
   let rB := EnableJetStream Demo.externals "B" (Some (mkLimits 50 0 (-1) (-1))) rA.1 in
   rA.2 = Returns None /\
   rB = (rA.1, Returns (Some (Errorf "insufficient memory resources available")))).
Proof.
  intros r. destruct (EnableJetStream_outcome w a limits) as (H1 & H2 & H3).
  fold r in H1, H2, H3.
  split; [exact H1|]. split; [exact H2|].
  split; [intros Hp; by destruct (H3 Hp) as (_ & _ & _ & ?)|].
  split; [intros js fi rest; apply EnableJetStream_panics|].
  split.
  { intros Hdec. split; [exact H1|]. intros (Ha & Hi & Hd).
    destruct (H2 Ha Hi Hd) as [Hr|Hp]; [exact Hr|].
    destruct (H3 Hp) as (_ & _ & _ & js & fi & d & _ & buf & cfg & _ & _ & _ & Hcfg & Hnil).
    destruct (Hdec buf cfg Hcfg) as [c Hc]. congruence. }
  split; [|split].
  - intros js Hsrv Hjs l. subst r. unfold EnableJetStream.
    rewrite Hsrv, Hjs. cbn [negb]. fold (effectiveLimits js limits). fold l.
    split; [|split].
    + intros H. apply sufficientResources_memory in H. by rewrite H.
    + intros Hm Hs.
      assert (H : sufficientResources js (Some l)
                  = Some (Errorf "insufficient storage resources available"))
        by (by apply sufficientResources_storage).
      by rewrite H.
    + intros H [x Hx]. apply sufficientResources_ok in H. by rewrite H, Hx.
  - apply EnableJetStream_rejected.
  - vm_compute. split; reflexivity.
Qed.

End EnableOutcome.

(** C6, as stated, fails: the broker refuses the service imports of
    account [A]; the admission checks pass, the call returns an error,
    and the account stays in the ledger with its 60 bytes reserved. *)
Lemma EnableJetStream_failure_after_registration :
  let w := Demo.server 100 1000 (Demo.mkDisk [] [] ["A"] [] []) in
  let limits := Some (mkLimits 60 0 (-1) (-1)) in
  let r := EnableJetStream Demo.externals "A" limits w in
  admitted w "A" limits /\
  r.2 = Returns (Some (ErrorfErr "Error setting up jetstream service imports for account: %v"
                         (Errorf "service import not authorized"))) /\
  reservations w = Some (0, 0) /\
  reservations r.1 = Some (60, 0) /\
  (w_js w ≫= fun js => js_accounts js !! "A") = None /\
  (w_js r.1 ≫= fun js => js_accounts js !! "A") = Some 1%positive.
Proof.
  cbv zeta. split.
  - split; [reflexivity|]. eexists. split; [reflexivity|].
    split; [split; vm_compute; discriminate|reflexivity].
  - vm_compute. repeat split; reflexivity.
Qed.

(** Nor do the checks suffice when the imports are accepted and the
    directory is there: the store of account [A] holds a template whose
    metadata has no stream configuration and whose checksum matches; the
    call panics at the assignment to [cfg.Config.Name], after the account
    has been entered in the ledger. *)
Lemma EnableJetStream_panics_on_template_without_config :
  let w := Demo.server 100 1000 Demo.diskWithPartialTemplate in
  let r := EnableJetStream Demo.externalsPartial "A" None w in
  admitted w "A" None /\
  importsAccepted Demo.externalsPartial w "A" /\
  storeDirReady Demo.externalsPartial w "A" /\
  json_Unmarshal_StreamTemplateConfig Demo.externalsPartial "T!"
    = inr (mkStreamTemplateConfig "T" None 1) /\
  r.2 = Panics /\
  reservations r.1 = Some (100, 1000) /\
  (w_js r.1 ≫= fun js => js_accounts js !! "A") = Some 1%positive.
Proof.
  cbv zeta. split_and!.
  - split; [reflexivity|]. eexists. split; [reflexivity|].
    split; [split; vm_compute; discriminate|reflexivity].
  - intros e _. reflexivity.
  - intros js [= <-]. left. vm_compute. discriminate.
  - reflexivity.
  - vm_compute. reflexivity.
  - vm_compute. reflexivity.
  - vm_compute. reflexivity.
Qed.

(** ** Canonical names *)

Section Canonical.

Lemma CanonicalName_length s : String.length (CanonicalName s) = String.length s.
Proof. induction s as [|c s IH]; simpl; congruence. Qed.

(** Byte by byte: a dot becomes an underscore, anything else stays. *)
Lemma CanonicalName_get s i :
  String.get i (CanonicalName s)
    = (fun c => if Ascii.eqb c dot then underscore else c) <$> String.get i s.
Proof.
  revert i. induction s as [|c s IH]; intros i; simpl; [done|].
  destruct i; [done|]. apply IH.
Qed.

Lemma CanonicalName_no_dot s i : String.get i (CanonicalName s) <> Some dot.
Proof.
  rewrite CanonicalName_get. destruct (String.get i s) as [c|]; [|done].
  simpl. destruct (Ascii.eqb_spec c dot); [done|]. congruence.
Qed.

Lemma CanonicalName_idempotent s : CanonicalName (CanonicalName s) = CanonicalName s.
Proof.
  induction s as [|c s IH]; simpl; [done|]. rewrite IH. f_equal.
  destruct (Ascii.eqb_spec c dot) as [->|Hc]; [done|].
  by destruct (Ascii.eqb_spec c dot).
Qed.

End Canonical.

(** ** The template dispatcher *)

Section Dispatcher.

Context {Ext : Type} (E : Externals Ext).
Implicit Types (w : World Ext).

Lemma resolves_frame a w w' :
  w_accounts w' = w_accounts w -> w_jsas w' = w_jsas w ->
  resolves a w' = resolves a w.
Proof.
  intros Ha Hj. unfold resolves, LookupStream, getAccount, jsaAt.
  by rewrite Ha, Hj.
Qed.

(** [LookupStream] finds a name exactly when it resolves to a live
    stream. *)
Lemma resolves_hasStream a w name : resolves a w name = hasStream w a name.
Proof.
  unfold resolves, LookupStream, hasStream.
  destruct (acc_js (getAccount a w)) as [jsa|]; [|done].
  destruct (jsa_streams (jsaAt jsa w) !! name) as [mset|].
  - by rewrite bool_decide_eq_true_2.
  - rewrite bool_decide_eq_false_2; [done|]. by intros [? ?].
Qed.

(** The state the dispatcher leaves when [AddStream] has failed. *)
Lemma dispatch_failure_state a t w2 calls fmt :
  let r := (Warnf fmt (validateStreams a t (set_calls calls w2)).1).1 in
  w_calls r = calls /\
  t_streams (tmplAt t r) = List.filter (hasStream r a) (t_streams (tmplAt t w2)) /\
  last (w_log r) = Some (LWarn, fmt).
Proof.
  cbv zeta. unfold Warnf, logf, validateStreams, modify. cbn [fst snd].
  set (w3 := set_calls calls w2).
  set (w4 := updTmpl t _ w3).
  split_and!.
  - reflexivity.
  - change (tmplAt t (set_log _ w4)) with (tmplAt t w4).
    subst w4. rewrite tmplAt_updTmpl. cbn [t_streams t_set_streams].
    change (tmplAt t w3) with (tmplAt t w2).
    apply filter_ext. intros name. by rewrite resolves_hasStream.
  - cbn [w_log set_log]. by rewrite last_snoc.
Qed.

(** C5.  For a message with subject [s] the candidate name is [s] with
    every dot replaced by an underscore.  If the account already has a
    stream of that name, the dispatcher returns and the world is as it
    was.  Else, if the template holds [MaxStreams] names or more, a
    warning is logged and nothing else happens: no stream is created.
    Else [AddStream] is called once, after the candidate has been
    appended to the template's list, with the configuration whose name is
    the candidate, whose subjects are [[s]], whose template field is the
    template's name and whose other fields are those of the template's
    prototype.  When that call succeeds the message is handed to the new
    stream and the template's list is the old one followed by the
    candidate; when it fails, the list is the old one followed by the
    candidate, pruned to the names that resolve to a live stream of the
    account, and a warning is logged.  ([AddStream] and the stream's
    inbound processing are assumed not to write to the template
    objects.) *)
Theorem processInboundTemplateMsg_spec w t jsa subject reply msg prototype :
  ExternalsKeepTemplates E ->
  t_jsa (tmplAt t w) = Some jsa ->
  tc_Config (t_cfg (tmplAt t w)) = Some prototype ->
  let cn := CanonicalName subject in
  let tm := tmplAt t w in
  let acc := jsa_account (jsaAt jsa w) in
  let r := processInboundTemplateMsg E t subject reply msg w in
  (String.length cn = String.length subject /\
   forall i, String.get i cn
             = (fun c => if Ascii.eqb c dot then underscore else c)
                 <$> String.get i subject) /\
  (is_Some (jsa_streams (jsaAt jsa w) !! cn) -> r = (w, Returns tt)) /\
  (jsa_streams (jsaAt jsa w) !! cn = None ->
   Z.of_nat (length (t_streams tm)) >= Z.of_N (tc_MaxStreams (t_cfg tm)) ->
     r = (set_log (w_log w ++
            [(LWarn, "JetStream could not create stream for account %q on subject %q, at limit")]) w,
          Returns tt)) /\
  (jsa_streams (jsaAt jsa w) !! cn = None ->
   Z.of_nat (length (t_streams tm)) < Z.of_N (tc_MaxStreams (t_cfg tm)) ->
     let cfg := mkStreamConfig cn [subject] (sc_Storage prototype) (sc_MaxBytes prototype)
                  (sc_Replicas prototype) (sc_MaxConsumers prototype) (tc_Name (t_cfg tm)) in
     let called := AddStream E acc cfg
                     (updTmpl t (t_set_streams (t_streams tm ++ [cn])) w) in
     r.2 = Returns tt /\
     match called.2 with
     | inr mset =>
         w_calls r.1 = w_calls w ++ [CallAddStream acc cfg None;
                                     CallProcessInboundJetStreamMsg cn subject] /\
         t_streams (tmplAt t r.1) = t_streams tm ++ [cn] /\
         r.1 = set_calls (w_calls w ++ [CallAddStream acc cfg None;
                                        CallProcessInboundJetStreamMsg cn subject])
                 (Stream_processInboundJetStreamMsg E mset subject reply msg
                    (set_calls (w_calls w ++ [CallAddStream acc cfg None]) called.1))
     | inl err =>
         w_calls r.1 = w_calls w ++ [CallAddStream acc cfg (Some err)] /\
         t_streams (tmplAt t r.1)
           = List.filter (hasStream r.1 acc) (t_streams tm ++ [cn]) /\
         last (w_log r.1)
           = Some (LWarn, "JetStream could not create stream for account %q on subject %q")
     end).
Proof.
  intros HT Hjsa Hcfg cn tm acc r.
  split; [split; [apply CanonicalName_length | apply CanonicalName_get]|].
  split; [|split].
  - intros [x Hx]. subst r. unfold processInboundTemplateMsg. rewrite Hjsa. fold cn.
    by rewrite Hx.
  - intros Hn Hge. subst r. unfold processInboundTemplateMsg. rewrite Hjsa. fold cn.
    rewrite Hn, Hcfg. fold tm.
    destruct (Z.geb_spec (Z.of_nat (length (t_streams tm))) (Z.of_N (tc_MaxStreams (t_cfg tm))));
      [reflexivity|lia].
  - intros Hn Hlt cfg called.
    set (w1 := updTmpl t (t_set_streams (t_streams tm ++ [cn])) w) in *.
    assert (Hw1 : t_streams (tmplAt t w1) = t_streams tm ++ [cn])
      by (subst w1; by rewrite tmplAt_updTmpl).
    pose proof (tkeep_AddStream HT acc cfg w1) as Hk. fold called in Hk.
    assert (Hr : processInboundTemplateMsg E t subject reply msg w =
              match called.2 with
              | inl err =>
                  ((Warnf "JetStream could not create stream for account %q on subject %q"
                      (validateStreams acc t
                         (set_calls (w_calls w1 ++ [CallAddStream acc cfg (Some err)])
                            called.1)).1).1,
                   Returns tt)
              | inr mset =>
                  (set_calls (w_calls w ++ [CallAddStream acc cfg None;
                                            CallProcessInboundJetStreamMsg cn subject])
                     (Stream_processInboundJetStreamMsg E mset subject reply msg
                        (set_calls (w_calls w ++ [CallAddStream acc cfg None]) called.1)),
                   Returns tt)
              end).
    { unfold processInboundTemplateMsg. rewrite Hjsa. fold cn. rewrite Hn, Hcfg.
      fold tm. cbv zeta.
      destruct (Z.geb_spec (Z.of_nat (length (t_streams tm)))
                           (Z.of_N (tc_MaxStreams (t_cfg tm)))); [lia|].
      fold acc.
      change (updTmpl t (fun tm0 => t_set_streams (t_streams tm0 ++ [cn]) tm0) w) with w1.
      change (sc_set_Subjects [subject]
                (sc_set_Name cn (sc_set_Template (tc_Name (t_cfg tm)) prototype)))
        with cfg.
      unfold bind, invoke. subst called.
      destruct (AddStream E acc cfg w1) as [w2 [err|mset]]; cbn [fst snd err_of].
      - unfold validateStreams, Warnf, logf, modify, ret. reflexivity.
      - unfold ret. cbn [w_calls set_calls]. by rewrite <- app_assoc. }
    subst r. rewrite Hr. clear Hr.
    destruct called as [w2 [err|mset]]; cbn [fst snd] in *.
    + match goal with |- context [set_calls ?c w2] =>
        pose proof (dispatch_failure_state acc t w2 c
          "JetStream could not create stream for account %q on subject %q") as Hf end.
      cbv zeta in Hf. destruct Hf as (H1 & H2 & H3).
      split; [reflexivity|]. split_and!; [exact H1| |exact H3].
      rewrite H2. f_equal. rewrite <- Hw1. unfold tmplAt. by rewrite Hk.
    + split; [reflexivity|]. split_and!; [reflexivity| |reflexivity].
      rewrite <- Hw1. unfold tmplAt. cbn [w_tmpls set_calls].
      rewrite (tkeep_Stream_processInboundJetStreamMsg HT). cbn [w_tmpls set_calls].
      by rewrite Hk.
Qed.

End Dispatcher.

(** ** Templates: insertion and deletion *)

Section Templates.

Context {Ext : Type} (E : Externals Ext).
Implicit Types (w : World Ext).

(** When every subscription is accepted, only the broker has changed. *)
Lemma subscribeAll_ok a tname subjects sid w :
  (subscribeAll E a tname subjects sid w).2 = None ->
  exists ext, (subscribeAll E a tname subjects sid w).1 = set_ext ext w.
Proof.
  revert sid w. induction subjects as [|subject rest IH]; intros sid w; simpl.
  - intros _. exists (w_ext w). by destruct w.
  - unfold bind, onExt.
    destruct (processSub E subject sid (w_ext w)) as [ext [err|]].
    + destruct (DeleteStreamTemplate E a tname _). simpl. done.
    + intros H. destruct (IH _ _ H) as [ext' Hx]. exists ext'. by rewrite Hx.
Qed.

Lemma createTemplateSubscriptions_ok a t w :
  (createTemplateSubscriptions E a t w).2 = Returns None ->
  exists ext, (createTemplateSubscriptions E a t w).1 = set_ext ext w.
Proof.
  unfold createTemplateSubscriptions.
  destruct (t_tc (tmplAt t w)); simpl; [|done].
  destruct (eventsEnabled E (w_ext w)); simpl; [|done].
  destruct (tc_Config (t_cfg (tmplAt t w))) as [config|]; [|done].
  unfold bind.
  pose proof (subscribeAll_ok a (tc_Name (t_cfg (tmplAt t w))) (sc_Subjects config) 1 w) as H.
  destruct (subscribeAll E _ _ _ _ w) as [w1 r]. cbn [fst snd ret] in *.
  intros [= ->]. by apply H.
Qed.



(** Every stream handed to the loop is deleted, in order, whatever the
    earlier deletions returned. *)
Lemma deleteStreams_spec streams lastErr w :
  exists results,
    length results = length streams /\
    w_calls (deleteStreams E streams lastErr w).1
      = w_calls w ++ deletionCalls streams results /\
    (deleteStreams E streams lastErr w).2 = lastError results lastErr.
Proof.
  revert lastErr w. induction streams as [|mset rest IH]; intros lastErr w.
  - exists []. simpl. by rewrite app_nil_r.
  - simpl. unfold bind, invoke.
    destruct (Stream_Delete E mset w) as [w1 err].
    match goal with |- context [deleteStreams E rest ?le ?w0] =>
      destruct (IH le w0) as (results & Hlen & Hcalls & Hres) end.
    exists (err :: results). split_and!.
    + simpl. by rewrite Hlen.
    + rewrite Hcalls. cbn. by rewrite <- app_assoc.
    + rewrite Hres. reflexivity.
Qed.

Lemma deleteStreams_registry streams lastErr jsa w :
  (forall mset w', jsa_templates (jsaAt jsa (Stream_Delete E mset w').1)
                   = jsa_templates (jsaAt jsa w')) ->
  jsa_templates (jsaAt jsa (deleteStreams E streams lastErr w).1)
    = jsa_templates (jsaAt jsa w).
Proof.
  intros Hf. revert lastErr w. induction streams as [|mset rest IH]; intros lastErr w.
  - reflexivity.
  - simpl. unfold bind, invoke. specialize (Hf mset w).
    destruct (Stream_Delete E mset w) as [w1 err]. rewrite IH. exact Hf.
Qed.

(** C8.  For a template that is registered in its account, and when the
    template store (if the account has one) deletes it without error,
    [Delete] takes the template out of the registry, then calls
    [Stream.Delete] on every stream of its list that [LookupStream]
    finds, in order and whatever the earlier deletions returned, and
    returns the last error of those deletions that is not nil (nil when
    all succeed). *)
Theorem Delete_cascade w t jsa templates :
  let tm := tmplAt t w in
  let tname := tc_Name (t_cfg tm) in
  let acc := jsa_account (jsaAt jsa w) in
  t_jsa tm = Some jsa ->
  jsa_templates (jsaAt jsa w) = Some templates ->
  is_Some (templates !! tname) ->
  (forall store, jsa_store (jsaAt jsa w) = Some store ->
     (TemplateStore_Delete E store (t_cfg tm) (w_ext w)).2 = None) ->
  let r := Delete E t w in
  let streams := lookupStreams acc (t_streams tm) w in
  exists results,
    length results = length streams /\
    w_calls r.1
      = w_calls w
        ++ match jsa_store (jsaAt jsa w) with
           | Some store => [CallStoreDelete store tname None]
           | None => []
           end
        ++ deletionCalls streams results
        ++ (if t_tc tm then [CallCloseConnection tname] else []) /\
    r.2 = lastError results None /\
    ((forall mset w', jsa_templates (jsaAt jsa (Stream_Delete E mset w').1)
                      = jsa_templates (jsaAt jsa w')) ->
     jsa_templates (jsaAt jsa r.1) = Some (delete tname templates)).
Proof.
  intros tm tname acc Hjsa Htm [x Hx] Hstore r streams.
  set (closing := if t_tc tm
                  then modify (Ext:=Ext) (fun w => set_calls
                         (w_calls w ++ [CallCloseConnection tname]) w)
                  else ret tt).
  set (cascade := bind (deleteStreams E streams None)
                    (fun r => bind closing (fun _ => ret r))).
  set (w1 := updJsa jsa (jsa_set_templates (Some (delete tname templates)))
               (updTmpl t (t_set_tc false) w)).
  assert (Hj1 : jsaAt jsa w1 = jsa_set_templates (Some (delete tname templates)) (jsaAt jsa w)).
  { subst w1. by rewrite jsaAt_updJsa. }
  assert (Hst : t_streams (tmplAt t w1) = t_streams tm).
  { subst w1. change (tmplAt t (updJsa ?l ?f ?w0)) with (tmplAt t w0).
    by rewrite tmplAt_updTmpl. }
  assert (Hlk : lookupStreams acc (t_streams (tmplAt t w1)) w1 = streams).
  { rewrite Hst. subst streams. unfold lookupStreams.
    apply list_omap_ext, Forall2_same_length_lookup. split; [done|].
    intros i name name' H1 H2. rewrite H1 in H2. injection H2 as <-.
    unfold LookupStream. change (getAccount acc w1) with (getAccount acc w).
    destruct (acc_js (getAccount acc w)) as [l|]; [|done].
    destruct (decide (jsa = l)) as [<-|Hne].
    - by rewrite Hj1.
    - subst w1. change (jsaAt l (updJsa jsa ?f (updTmpl ?t0 ?g w)))
                  with (jsaAt l (updJsa jsa f w)).
      by rewrite jsaAt_updJsa_ne. }
  (* the world the cascade starts from *)
  assert (Hdel : exists w2,
            r = cascade w2 /\
            w_calls w2 = w_calls w ++ match jsa_store (jsaAt jsa w) with
                                      | Some store => [CallStoreDelete store tname None]
                                      | None => []
                                      end /\
            jsa_templates (jsaAt jsa w2) = Some (delete tname templates)).
  { subst r. unfold Delete. fold tm. rewrite Hjsa. fold tname.
    change (jsaAt jsa (updTmpl t (t_set_tc false) w)) with (jsaAt jsa w).
    rewrite Htm, Hx. cbv zeta. fold w1. rewrite Hj1.
    cbn [jsa_account jsa_store jsa_set_templates]. fold acc. rewrite Hlk.
    fold closing. fold cascade.
    destruct (jsa_store (jsaAt jsa w)) as [store|] eqn:Hs.
    - specialize (Hstore store eq_refl).
      unfold bind at 1, invoke, onExt. change (w_ext w1) with (w_ext w).
      destruct (TemplateStore_Delete E store (t_cfg tm) (w_ext w)) as [ext err].
      cbn [snd] in Hstore. subst err.
      eexists. split; [reflexivity|]. split; [reflexivity|].
      change (jsaAt jsa (set_calls ?c (set_ext ext w1))) with (jsaAt jsa w1).
      by rewrite Hj1.
    - exists w1. split; [reflexivity|]. split; [|by rewrite Hj1].
      change (w_calls w1) with (w_calls w). by rewrite app_nil_r. }
  destruct Hdel as (w2 & Hr & Hc2 & Ht2). rewrite Hr. clear Hr.
  destruct (deleteStreams_spec streams None w2) as (results & Hlen & Hcalls & Hres).
  pose proof (deleteStreams_registry streams None jsa w2) as Hreg.
  exists results. subst cascade. unfold bind.
  destruct (deleteStreams E streams None w2) as [w3 r3]. cbn [fst snd] in *.
  subst closing. destruct (t_tc tm); cbn; rewrite Hcalls, Hc2.
  - split_and!; [done|by rewrite <- !app_assoc|done|].
    intros Hf. specialize (Hreg Hf). rewrite Ht2 in Hreg. exact Hreg.
  - split_and!; [done|by rewrite app_nil_r, <- !app_assoc|done|].
    intros Hf. specialize (Hreg Hf). rewrite Ht2 in Hreg. exact Hreg.
Qed.

End Templates.


(** C8, as stated, fails: when the template store cannot delete the
    template, [Delete] returns that error right away; the template is out
    of the registry but the stream of its list is not deleted, not even
    attempted. *)
Lemma Delete_store_failure_skips_streams :
  let w0 := (EnableJetStream Demo.externals "A" None
               (Demo.server 100 1000 Demo.emptyDisk)).1 in
  let memT := mkStreamTemplateConfig "MEM"
                (Some (mkStreamConfig "" ["mem.*"] MemoryStorage 0 1 0 "")) 4 in
  let w1 := (AddStreamTemplate Demo.externals "A" memT w0).1 in
  let w2 := (processInboundTemplateMsg Demo.externals 1%positive "mem.a" "" "hello" w1).1 in
  let w := set_ext (Demo.mkDisk [] [] [] [] ["MEM"]) w2 in
  let r := Delete Demo.externals 1%positive w in
  LookupStreamTemplate "A" "MEM" w = inr 1%positive /\
  t_streams (tmplAt 1%positive w) = ["mem_a"] /\
  resolves "A" w "mem_a" = true /\
  r.2 = Some (ErrorfErr "error deleting template from store: %v"
                (Errorf "template store not writable")) /\
  w_calls r.1 = w_calls w ++
    [CallStoreDelete templateMemStore "MEM" (Some (Errorf "template store not writable"));
     CallCloseConnection "MEM"] /\
  LookupStreamTemplate "A" "MEM" r.1 = inl (Errorf "no template found") /\
  resolves "A" r.1 "mem_a" = true.
Proof. vm_compute. repeat split; reflexivity. Qed.

(** ** The cap on a template's list *)

Section TemplateCap.

Context {Ext : Type} (E : Externals Ext).
Implicit Types (w : World Ext).

Lemma tmplInv_same_tmpls w w' : w_tmpls w' = w_tmpls w -> tmplInv w -> tmplInv w'.
Proof. intros H Hi t. unfold tmplAt. rewrite H. apply Hi. Qed.

Lemma tmplInv_set_log x w : tmplInv w -> tmplInv (set_log x w).
Proof. by apply tmplInv_same_tmpls. Qed.
Lemma tmplInv_set_calls x w : tmplInv w -> tmplInv (set_calls x w).
Proof. by apply tmplInv_same_tmpls. Qed.
Lemma tmplInv_set_ext x w : tmplInv w -> tmplInv (set_ext x w).
Proof. by apply tmplInv_same_tmpls. Qed.
Lemma tmplInv_updAccount a f w : tmplInv w -> tmplInv (updAccount a f w).
Proof. by apply tmplInv_same_tmpls. Qed.
Lemma tmplInv_updJsa l f w : tmplInv w -> tmplInv (updJsa l f w).
Proof. by apply tmplInv_same_tmpls. Qed.

Lemma tmplInv_insert t tm w :
  withinCap tm -> tmplInv w -> tmplInv (set_tmpls (<[t := tm]> (w_tmpls w)) w).
Proof.
  intros Hc Hi t'. unfold tmplAt. simpl.
  destruct (decide (t = t')) as [<-|Hne].
  - by rewrite lookup_insert_eq.
  - rewrite lookup_insert_ne by done. apply Hi.
Qed.

Lemma tmplInv_updTmpl t f w :
  withinCap (f (tmplAt t w)) -> tmplInv w -> tmplInv (updTmpl t f w).
Proof. intros Hc Hi. by apply tmplInv_insert. Qed.

Lemma withinCap_set_tc b tm : withinCap tm -> withinCap (t_set_tc b tm).
Proof. done. Qed.

Lemma withinCap_filter (P : string -> bool) tm :
  withinCap tm -> withinCap (t_set_streams (List.filter P (t_streams tm)) tm).
Proof.
  unfold withinCap. simpl. intros H.
  pose proof (filter_length_le P (t_streams tm)). lia.
Qed.

Lemma withinCap_append name tm :
  Z.of_nat (length (t_streams tm)) < Z.of_N (tc_MaxStreams (t_cfg tm)) ->
  withinCap (t_set_streams (t_streams tm ++ [name]) tm).
Proof. unfold withinCap. simpl. rewrite length_app. simpl. lia. Qed.

Hypothesis HT : ExternalsKeepTemplates E.

Lemma invoke_inv {A} (mk : A -> Call) f w :
  (forall w, w_tmpls (f w).1 = w_tmpls w) -> tmplInv w -> tmplInv (invoke mk f w).1.
Proof.
  intros Hf Hi. unfold invoke. specialize (Hf w). destruct (f w) as [w' r].
  simpl in *. apply tmplInv_set_calls. by apply (tmplInv_same_tmpls w).
Qed.

Lemma onExt_tmpls {A} (f : Ext -> Ext * A) w : w_tmpls (onExt f w).1 = w_tmpls w.
Proof. unfold onExt. by destruct (f (w_ext w)). Qed.

Lemma deleteStreams_inv streams lastErr w :
  tmplInv w -> tmplInv (deleteStreams E streams lastErr w).1.
Proof.
  revert lastErr w. induction streams as [|mset rest IH]; intros lastErr w Hi; [done|].
  simpl. unfold bind.
  pose proof (invoke_inv (CallStreamDelete (sc_Name (stream_config mset)))
                (Stream_Delete E mset) w (tkeep_Stream_Delete HT mset) Hi) as H1.
  destruct (invoke _ _ w) as [w' err]. by apply IH.
Qed.

Lemma Delete_inv t w : tmplInv w -> tmplInv (Delete E t w).1.
Proof.
  intros Hi.
  assert (Hinv1 : tmplInv (updTmpl t (t_set_tc false) w)).
  { apply tmplInv_updTmpl; [|done]. apply withinCap_set_tc, Hi. }
  assert (Hclose : forall (closing : M Ext unit) w' (r : option error),
            (forall w, tmplInv w -> tmplInv (closing w).1) ->
            tmplInv w' ->
            tmplInv (bind closing (fun _ => ret r) w').1).
  { intros closing w' r Hc Hw'. unfold bind. specialize (Hc w' Hw').
    by destruct (closing w'). }
  assert (Hmod : forall name w,
            tmplInv w ->
            tmplInv (modify (fun w => set_calls
                       (w_calls w ++ [CallCloseConnection name]) w) w).1).
  { intros name w0 Hw0. by apply tmplInv_set_calls. }
  assert (Hret : forall w, tmplInv w -> tmplInv (ret (Ext:=Ext) tt w).1) by done.
  unfold Delete. cbv zeta.
  match goal with |- context [if t_tc (tmplAt t w) then ?a else ?b] =>
    set (closing := if t_tc (tmplAt t w) then a else b) end.
  assert (Hcl : forall w, tmplInv w -> tmplInv (closing w).1).
  { subst closing. destruct (t_tc (tmplAt t w)); auto. }
  clearbody closing.
  repeat case_match; try (by apply Hclose).
  - unfold bind at 1.
    match goal with |- context [invoke ?mk ?f ?w0] =>
      pose proof (invoke_inv mk f w0 (onExt_tmpls _)) as Hinv2;
      destruct (invoke mk f w0) as [w' [err|]] end.
    + apply Hclose; [done|]. apply Hinv2. by apply tmplInv_updJsa.
    + unfold bind at 1.
      match goal with |- context [deleteStreams E ?l None w'] =>
        pose proof (deleteStreams_inv l None w') as Hinv3;
        destruct (deleteStreams E l None w') as [w'' r] end.
      apply Hclose; [done|]. apply Hinv3, Hinv2. by apply tmplInv_updJsa.
  - unfold bind at 1.
    match goal with |- context [deleteStreams E ?l None ?w0] =>
      pose proof (deleteStreams_inv l None w0) as Hinv3;
      destruct (deleteStreams E l None w0) as [w'' r] end.
    apply Hclose; [done|]. apply Hinv3. by apply tmplInv_updJsa.
Qed.

Lemma DeleteStreamTemplate_inv a name w :
  tmplInv w -> tmplInv (DeleteStreamTemplate E a name w).1.
Proof.
  intros Hi. unfold DeleteStreamTemplate.
  destruct (LookupStreamTemplate a name w); [done|]. by apply Delete_inv.
Qed.

Lemma subscribeAll_inv a tname subjects sid w :
  tmplInv w -> tmplInv (subscribeAll E a tname subjects sid w).1.
Proof.
  revert sid w. induction subjects as [|subject rest IH]; intros sid w Hi; [done|].
  simpl. unfold bind.
  pose proof (onExt_tmpls (processSub E subject sid) w) as H1.
  destruct (onExt (processSub E subject sid) w) as [w' [err|]]; simpl in H1.
  - pose proof (DeleteStreamTemplate_inv a tname w'
                  (tmplInv_same_tmpls w w' H1 Hi)) as H2.
    by destruct (DeleteStreamTemplate E a tname w').
  - apply IH. by apply (tmplInv_same_tmpls w).
Qed.

Lemma createTemplateSubscriptions_inv a t w :
  tmplInv w -> tmplInv (createTemplateSubscriptions E a t w).1.
Proof.
  intros Hi. unfold createTemplateSubscriptions.
  repeat case_match; try done. unfold bind.
  match goal with |- context [subscribeAll E ?a0 ?n ?l ?i w] =>
    pose proof (subscribeAll_inv a0 n l i w Hi) as H';
    destruct (subscribeAll E a0 n l i w) end.
  exact H'.
Qed.

Lemma subscribeAndStore_inv a jsa t tcopy w :
  tmplInv w -> tmplInv (subscribeAndStore E a jsa t tcopy w).1.
Proof.
  intros Hi. unfold subscribeAndStore, bind.
  pose proof (createTemplateSubscriptions_inv a t w Hi) as H1.
  destruct (createTemplateSubscriptions E a t w) as [w1 [[err|]|]]; [done| |done].
  simpl in H1. destruct (jsa_store (jsaAt jsa w1)) as [store|]; [|done].
  match goal with |- context [invoke ?mk ?f w1] =>
    pose proof (invoke_inv mk f w1 (onExt_tmpls _) H1) as H2;
    destruct (invoke mk f w1) as [w2 [err|]] end; [|done].
  pose proof (Delete_inv t w2 H2) as H3. by destruct (Delete E t w2).
Qed.

(** Template creation. *)
Lemma AddStreamTemplate_inv a tc w :
  tmplInv w -> tmplInv (AddStreamTemplate E a tc w).1.
Proof.
  intros Hi. unfold AddStreamTemplate.
  repeat case_match; try done;
    apply subscribeAndStore_inv; repeat apply tmplInv_updJsa;
    (apply tmplInv_insert; [|done]); unfold withinCap; simpl; lia.
Qed.

Lemma validateStreams_inv a t w : tmplInv w -> tmplInv (validateStreams a t w).1.
Proof.
  intros Hi. unfold validateStreams, modify. simpl.
  apply tmplInv_updTmpl; [|done]. apply withinCap_filter, Hi.
Qed.

(** The dispatcher. *)
Lemma processInboundTemplateMsg_inv t subject reply msg w :
  tmplInv w -> tmplInv (processInboundTemplateMsg E t subject reply msg w).1.
Proof.
  intros Hi. unfold processInboundTemplateMsg.
  destruct (t_jsa (tmplAt t w)) as [jsa|]; [|done].
  destruct (jsa_streams (jsaAt jsa w) !! CanonicalName subject); [done|].
  cbv zeta.
  destruct (tc_Config (t_cfg (tmplAt t w))) as [config|]; [|done].
  destruct (Z.geb_spec (Z.of_nat (length (t_streams (tmplAt t w))))
                       (Z.of_N (tc_MaxStreams (t_cfg (tmplAt t w))))) as [Hge|Hlt].
  { by apply tmplInv_set_log. }
  unfold bind at 1.
  match goal with |- context [invoke ?mk ?f ?w0] =>
    assert (H1 : tmplInv w0)
      by (apply tmplInv_updTmpl; [by apply withinCap_append|done]);
    pose proof (invoke_inv mk f w0 (tkeep_AddStream HT _ _) H1) as H2;
    destruct (invoke mk f w0) as [w2 [err|mset]] end; simpl in H2.
  - unfold bind.
    pose proof (validateStreams_inv (jsa_account (jsaAt jsa w)) t w2 H2) as H3.
    destruct (validateStreams _ t w2) as [w3 []]. by apply tmplInv_set_log.
  - unfold bind.
    match goal with |- context [invoke ?mk ?f w2] =>
      assert (Hf : forall w, w_tmpls (f w).1 = w_tmpls w)
        by (intros; apply (tkeep_Stream_processInboundJetStreamMsg HT));
      pose proof (invoke_inv mk f w2 Hf H2) as H3;
      destruct (invoke mk f w2) as [w3 []] end.
    exact H3.
Qed.

Lemma templateStep_inv w w' : templateStep E false w w' -> tmplInv w -> tmplInv w'.
Proof.
  intros Hstep Hi. destruct Hstep.
  - by apply AddStreamTemplate_inv.
  - by apply processInboundTemplateMsg_inv.
  - by apply validateStreams_inv.
  - by apply (tmplInv_same_tmpls w), Hi; apply (tkeep_Stream_Delete HT).
  - done.
Qed.

(** C3.  Starting from a world in which every template is within its
    cap (one without templates, say), every world reached by template
    creation, the dispatcher, [validateStreams] and stream deletion keeps
    every template within its cap, as long as [AddStream], [Stream.Delete]
    and the stream's inbound processing leave the template objects alone.
    Recovery's [addStreamNameToTemplate] is not among these steps: it
    appends the name to the list of the template it finds, without looking
    at the cap. *)
Theorem template_cap_invariant w0 w :
  tmplInv w0 ->
  rtc (templateStep E false) w0 w ->
  tmplInv w /\
  (forall jsa tname mname templates t,
     jsa_templates (jsaAt jsa w) = Some templates ->
     templates !! tname = Some t ->
     (addStreamNameToTemplate jsa tname mname w).2 = None /\
     t_streams (tmplAt t (addStreamNameToTemplate jsa tname mname w).1)
       = t_streams (tmplAt t w) ++ [mname]).
Proof.
  intros Hi Hsteps. split.
  - induction Hsteps as [|w1 w2 w3 Hstep _ IH]; [done|].
    apply IH. by apply (templateStep_inv w1).
  - intros jsa tname mname templates t Htm Ht.
    unfold addStreamNameToTemplate. rewrite Htm, Ht. simpl.
    split; [done|]. by rewrite tmplAt_updTmpl.
Qed.

End TemplateCap.

(** C3, as stated, fails: with recovery's [addStreamNameToTemplate] among
    the steps, a template whose cap is one stream comes to hold two names.
    The same happens in a full recovery: the store of the account holds
    the template and two streams that name it. *)
Lemma recovery_exceeds_template_cap :
  let w0 := (EnableJetStream Demo.externals "A" None
               (Demo.server 100 1000 Demo.emptyDisk)).1 in
  let capT := mkStreamTemplateConfig "T"
                (Some (mkStreamConfig "" ["t.*"] FileStorage 0 1 0 "")) 1 in
  let w1 := (AddStreamTemplate Demo.externals "A" capT w0).1 in
  let w2 := (addStreamNameToTemplate 1%positive "T" "t_a" w1).1 in
  let w3 := (addStreamNameToTemplate 1%positive "T" "t_b" w2).1 in
  let wr := (EnableJetStream Demo.externals "A" None
               (Demo.server 100 1000 Demo.diskWithTwoStreamsOfT)).1 in
  tmplInv w0 /\
  rtc (templateStep Demo.externals true) w0 w3 /\
  ~ tmplInv w3 /\
  t_streams (tmplAt 1%positive wr) = ["T_a"; "T_b"] /\
  tc_MaxStreams (t_cfg (tmplAt 1%positive wr)) = 1%N /\
  ~ tmplInv wr.
Proof.
  cbv zeta. split_and!.
  - assert (H : w_tmpls (EnableJetStream Demo.externals "A" None
                           (Demo.server 100 1000 Demo.emptyDisk)).1 = ∅)
      by (vm_compute; reflexivity).
    intros t. unfold tmplAt. rewrite H, lookup_empty. unfold withinCap. simpl. lia.
  - eapply rtc_l; [apply step_AddStreamTemplate|].
    eapply rtc_l; [by apply step_addStreamNameToTemplate|].
    eapply rtc_l; [by apply step_addStreamNameToTemplate|].
    apply rtc_refl.
  - intros H. specialize (H 1%positive). vm_compute in H. by apply H.
  - vm_compute. reflexivity.
  - vm_compute. reflexivity.
  - intros H. specialize (H 1%positive). vm_compute in H. by apply H.
Qed.

(** ** Hexadecimal encoding *)

Section Hex.

Lemma hex_digit_inj n m :
  (n < 16)%nat -> (m < 16)%nat -> hex_digit n = hex_digit m -> n = m.
Proof.
  intros Hn Hm.
  do 16 (destruct n as [|n];
         [do 16 (destruct m as [|m]; [first [reflexivity | discriminate]|]); lia|]).
  lia.
Qed.

(** Different sums have different encodings. *)
Lemma hex_EncodeToString_inj s1 s2 :
  hex_EncodeToString s1 = hex_EncodeToString s2 -> s1 = s2.
Proof.
  revert s2. induction s1 as [|c1 s1 IH]; intros [|c2 s2];
    cbn [hex_EncodeToString]; try done.
  intros Heq. injection Heq as Hhi Hlo Hrest. f_equal; [|by apply IH].
  change (hex_digit (nat_of_ascii c1 / 16) = hex_digit (nat_of_ascii c2 / 16))%nat in Hhi.
  change (hex_digit (nat_of_ascii c1 mod 16) = hex_digit (nat_of_ascii c2 mod 16))%nat
    in Hlo.
  pose proof (nat_ascii_bounded c1). pose proof (nat_ascii_bounded c2).
  apply hex_digit_inj in Hhi; [|apply Nat.Div0.div_lt_upper_bound; lia..].
  apply hex_digit_inj in Hlo; [|apply Nat.mod_upper_bound; lia..].
  rewrite <- (ascii_nat_embedding c1), <- (ascii_nat_embedding c2). f_equal.
  rewrite (Nat.div_mod_eq (nat_of_ascii c1) 16), (Nat.div_mod_eq (nat_of_ascii c2) 16).
  by rewrite Hhi, Hlo.
Qed.

End Hex.

(** ** Recovery: the checksum of a metadata file *)

Section Recovery.

Context {Ext : Type} (E : Externals Ext).
Implicit Types (w : World Ext).

(** A template whose checksum file does not hold the hash of its
    metadata is skipped: a warning is logged and nothing else happens. *)
Lemma recoverTemplate_checksum_mismatch a tdir hh fi buf sum w :
  ioutil_ReadFile E (path_Join [tdir; fi; JetStreamMetaFile]) (w_ext w) = inr buf ->
  ioutil_ReadFile E (path_Join [tdir; fi; JetStreamMetaFileSum]) (w_ext w) = inr sum ->
  hex_EncodeToString (hh buf) <> sum ->
  exists fmt,
    recoverTemplate E a tdir hh fi w = (set_log (w_log w ++ [(LWarn, fmt)]) w, Returns tt).
Proof.
  intros Hbuf Hsum Hne. unfold recoverTemplate. rewrite Hbuf, Hsum.
  rewrite bool_decide_eq_false_2 by done. cbn [negb].
  destruct (os_Stat E _ (w_ext w)); eexists; reflexivity.
Qed.

(** The same for a stream. *)
Lemma recoverStream_checksum_mismatch a jsa sdir fi buf sum w :
  let mdir := path_Join [sdir; fi] in
  ioutil_ReadFile E (path_Join [mdir; JetStreamMetaFile]) (w_ext w) = inr buf ->
  ioutil_ReadFile E (path_Join [mdir; JetStreamMetaFileSum]) (w_ext w) = inr sum ->
  hex_EncodeToString
    (highwayhash_Sum64 E (sha256_Sum256 E (path_Join [mdir; msgDir])) buf) <> sum ->
  exists fmt,
    recoverStream E a jsa sdir fi w = (set_log (w_log w ++ [(LWarn, fmt)]) w, None).
Proof.
  intros mdir Hbuf Hsum Hne. unfold recoverStream. fold mdir.
  rewrite highwayhash_New64_sha256. cbv zeta. rewrite Hbuf, Hsum.
  rewrite bool_decide_eq_false_2 by done. cbn [negb].
  destruct (os_Stat E (path_Join [mdir; JetStreamMetaFile]) (w_ext w));
    destruct (os_Stat E (path_Join [mdir; JetStreamMetaFileSum]) (w_ext w));
    eexists; reflexivity.
Qed.

(** So a stream whose metadata file was altered after its checksum file
    was written is skipped, when the hash tells the two contents apart. *)
Lemma recoverStream_altered_metafile a jsa sdir fi written buf w :
  let mdir := path_Join [sdir; fi] in
  let hh := highwayhash_Sum64 E (sha256_Sum256 E (path_Join [mdir; msgDir])) in
  ioutil_ReadFile E (path_Join [mdir; JetStreamMetaFile]) (w_ext w) = inr buf ->
  ioutil_ReadFile E (path_Join [mdir; JetStreamMetaFileSum]) (w_ext w)
    = inr (hex_EncodeToString (hh written)) ->
  hh buf <> hh written ->
  exists fmt,
    recoverStream E a jsa sdir fi w = (set_log (w_log w ++ [(LWarn, fmt)]) w, None).
Proof.
  intros mdir hh Hbuf Hsum Hne.
  apply (recoverStream_checksum_mismatch a jsa sdir fi buf _ w Hbuf Hsum).
  intros Heq. by apply hex_EncodeToString_inj in Heq.
Qed.

Lemma recoverTemplate_altered_metafile a tdir hh fi written buf w :
  ioutil_ReadFile E (path_Join [tdir; fi; JetStreamMetaFile]) (w_ext w) = inr buf ->
  ioutil_ReadFile E (path_Join [tdir; fi; JetStreamMetaFileSum]) (w_ext w)
    = inr (hex_EncodeToString (hh written)) ->
  hh buf <> hh written ->
  exists fmt,
    recoverTemplate E a tdir hh fi w = (set_log (w_log w ++ [(LWarn, fmt)]) w, Returns tt).
Proof.
  intros Hbuf Hsum Hne.
  apply (recoverTemplate_checksum_mismatch a tdir hh fi buf _ w Hbuf Hsum).
  intros Heq. by apply hex_EncodeToString_inj in Heq.
Qed.

(** The scan goes on with the entries that follow. *)
Lemma recoverStreams_cons a jsa sdir fi rest w :
  forEachErr (recoverStream E a jsa sdir) (fi :: rest) w
    = forEachErr (recoverStream E a jsa sdir) rest (recoverStream E a jsa sdir fi w).1.
Proof.
  simpl. unfold bind.
  pose proof (recoverStream_result E a jsa sdir fi w) as Hr.
  destruct (recoverStream E a jsa sdir fi w) as [w' r]. simpl in Hr. by subst r.
Qed.

(** A consumer is recovered without its checksum file being read: when
    the metadata file is there and decodes, and the checksum file exists,
    [AddConsumer] is called whatever the checksum file holds. *)
Lemma recoverConsumer_ignores_checksum odir mset ofi buf cfg w :
  os_Stat E (path_Join [odir; ofi; JetStreamMetaFile]) (w_ext w) <> StatNotExist ->
  ioutil_ReadFile E (path_Join [odir; ofi; JetStreamMetaFile]) (w_ext w) = inr buf ->
  os_Stat E (path_Join [odir; ofi; JetStreamMetaFileSum]) (w_ext w) <> StatNotExist ->
  json_Unmarshal_ConsumerConfig E buf = inr cfg ->
  exists calls,
    w_calls (recoverConsumer E odir mset ofi w).1
      = w_calls w
        ++ CallAddConsumer (sc_Name (stream_config mset)) cfg
             (err_of (Stream_AddConsumer E mset cfg w).2) :: calls.
Proof.
  intros Hst Hbuf Hss Hcfg. unfold recoverConsumer. rewrite Hbuf, Hcfg.
  destruct (os_Stat E (path_Join [odir; ofi; JetStreamMetaFile]) (w_ext w)); [done|..];
    destruct (os_Stat E (path_Join [odir; ofi; JetStreamMetaFileSum]) (w_ext w));
    try done;
    unfold bind, invoke;
    destruct (Stream_AddConsumer E mset cfg w) as [w1 [err|obs]]; cbn;
    try (by exists []);
    destruct (Consumer_readStoredState E obs _) as [w2 [err|]]; cbn;
    eexists; rewrite <- app_assoc; reflexivity.
Qed.

End Recovery.

(** C1.  The store of account [A] holds the stream [ORDERS] with its
    consumer [C1], and the stream [BROKEN].  The checksum files of [C1]
    and of [BROKEN] hold sixteen zeros, which is not the hash of their
    metadata.  Recovery skips [BROKEN] with a warning, but it adds the
    consumer [C1] and reads its stored state, without any warning: the
    consumer scan only asks whether the checksum file exists. *)
Theorem recovery_accepts_consumer_with_wrong_checksum :
  let disk := Demo.diskWithBadSums in
  let r := EnableJetStream Demo.externals "A" None (Demo.server 100 1000 disk) in
  Demo.readFile "/js/A/streams/ORDERS/consumers/C1/meta.sum" disk
    = inr "0000000000000000" /\
  Demo.checksum "C1" = "7430303030303030" /\
  Demo.readFile "/js/A/streams/BROKEN/meta.sum" disk = inr "0000000000000000" /\
  Demo.checksum "BROKEN" <> "0000000000000000" /\
  r.2 = Returns None /\
  w_calls r.1 =
    [CallAddStream "A" (mkStreamConfig "ORDERS" ["ORDERS"] FileStorage 0 1 0 "") None;
     CallAddConsumer "ORDERS" (mkConsumerConfig "C1" "") None;
     CallReadStoredState "ORDERS" (mkConsumerConfig "C1" "") None] /\
  List.filter (fun e => bool_decide (e.1 = LWarn)) (w_log r.1)
    = [(LWarn, "  Stream metafile checksums do not match %q vs %q")].
Proof. vm_compute. repeat split; try reflexivity. discriminate. Qed.

(** ** Decimal numbers: [parseSize], [parseInt64], [comma] *)

Section Decimal.

Lemma byte_val_range c : 0 <= byte_val c <= 255.
Proof.
  unfold byte_val. pose proof (nat_ascii_bounded c). lia.
Qed.

Lemma digit_test c :
  (byte_val c <? asciiZero) || (byte_val c >? asciiNine) = negb (isDigit c).
Proof.
  unfold isDigit, asciiZero, asciiNine.
  destruct (Z.ltb_spec (byte_val c) 48), (Z.gtb_spec (byte_val c) 57),
           (Z.leb_spec 48 (byte_val c)), (Z.leb_spec (byte_val c) 57);
    simpl; try reflexivity; lia.
Qed.

Lemma isDigit_range c : isDigit c = true -> 0 <= byte_val c - asciiZero <= 9.
Proof.
  unfold isDigit, asciiZero, asciiNine. rewrite andb_true_iff, !Z.leb_le. lia.
Qed.

Lemma step_wrap n c :
  Int64.add (Int64.mul (Int64.wrap n) 10) (Int64.sub (byte_val c) asciiZero)
  = Int64.wrap (n * 10 + (byte_val c - asciiZero)).
Proof.
  unfold Int64.add, Int64.mul, Int64.sub. apply Int64Facts.wrap_congr.
  rewrite Zplus_mod, !Int64Facts.wrap_eqm, <- Zplus_mod.
  rewrite Zplus_mod, Zmult_mod, Int64Facts.wrap_eqm, <- Zmult_mod, <- Zplus_mod.
  reflexivity.
Qed.

Lemma parseInt64_loop_invalid d : allDigits d = false -> forall n, parseInt64_loop d n = -1.
Proof.
  induction d as [|c d IH]; simpl; [discriminate|]. intros H n.
  rewrite digit_test. destruct (isDigit c); simpl in *; [by apply IH | reflexivity].
Qed.

Lemma parseInt64_loop_valid d :
  allDigits d = true ->
  forall n, parseInt64_loop d (Int64.wrap n) = Int64.wrap (decimalValue_from d n).
Proof.
  induction d as [|c d IH]; simpl; [reflexivity|]. intros H n.
  apply andb_true_iff in H as [Hc Hd].
  rewrite digit_test, Hc. simpl. rewrite step_wrap. by apply IH.
Qed.

Lemma parseSize_loop_eq d n : parseSize_loop d n = parseInt64_loop d n.
Proof. revert n. induction d as [|c d IH]; simpl; intros; [done|]. by rewrite IH. Qed.

Lemma decimalValue_from_bounds d :
  allDigits d = true -> forall n, 0 <= n ->
  n * 10 ^ Z.of_nat (String.length d) <= decimalValue_from d n
    < (n + 1) * 10 ^ Z.of_nat (String.length d).
Proof.
  induction d as [|c d IH]; intros H n Hn.
  - simpl. lia.
  - cbn [allDigits] in H. apply andb_true_iff in H as [Hc Hd].
    apply isDigit_range in Hc.
    cbn [decimalValue_from String.length].
    specialize (IH Hd (n * 10 + (byte_val c - asciiZero)) ltac:(lia)).
    rewrite Nat2Z.inj_succ, Z.pow_succ_r by lia.
    set (p := 10 ^ Z.of_nat (String.length d)) in *.
    assert (0 < p) by (apply Z.pow_pos_nonneg; lia).
    nia.
Qed.

Lemma decimalValue_from_app a b n :
  decimalValue_from (a +:+ b) n = decimalValue_from b (decimalValue_from a n).
Proof. revert n. induction a as [|c a IH]; simpl; intros; [done|]. by rewrite IH. Qed.


Lemma byte_val_digit_char k : 0 <= k <= 9 -> byte_val (digit_char k) = asciiZero + k.
Proof.
  intros Hk. unfold byte_val, digit_char, asciiZero.
  rewrite nat_ascii_embedding by lia. lia.
Qed.

Lemma isDigit_digit_char k : 0 <= k <= 9 -> isDigit (digit_char k) = true.
Proof.
  intros Hk. unfold isDigit. rewrite byte_val_digit_char by done.
  unfold asciiZero, asciiNine. apply andb_true_iff. rewrite !Z.leb_le. lia.
Qed.

Lemma format_digits_value fuel : forall n acc,
  0 <= n < 10 ^ Z.of_nat fuel ->
  decimalValue_from (format_digits fuel n acc) 0 = decimalValue_from acc n.
Proof.
  induction fuel as [|fuel IH]; intros n acc Hn.
  - simpl in Hn. assert (n = 0) as -> by lia. reflexivity.
  - cbn [format_digits].
    pose proof (Z.mod_pos_bound n 10 ltac:(lia)) as Hm.
    destruct (Z.ltb_spec n 10).
    + cbn [decimalValue_from]. rewrite byte_val_digit_char by lia.
      rewrite Z.mod_small by lia. f_equal. lia.
    + rewrite IH.
      * cbn [decimalValue_from]. rewrite byte_val_digit_char by lia.
        f_equal. pose proof (Z.div_mod n 10 ltac:(lia)). lia.
      * rewrite Nat2Z.inj_succ, Z.pow_succ_r in Hn by lia.
        split; [apply Z.div_pos; lia | apply Z.div_lt_upper_bound; lia].
Qed.

Lemma format_digits_allDigits fuel : forall n acc,
  0 <= n -> allDigits acc = true -> allDigits (format_digits fuel n acc) = true.
Proof.
  induction fuel as [|fuel IH]; intros n acc Hn Hacc; [done|].
  cbn [format_digits].
  pose proof (Z.mod_pos_bound n 10 ltac:(lia)) as Hm.
  assert (allDigits (String (digit_char (n mod 10)) acc) = true) as Hd.
  { cbn [allDigits]. rewrite isDigit_digit_char by lia. done. }
  destruct (n <? 10); [done|]. apply IH; [apply Z.div_pos; lia | done].
Qed.

Lemma format_digits_length fuel : forall n acc k,
  (k < fuel)%nat -> 0 <= n < 10 ^ Z.of_nat (S k) -> (k = 0%nat \/ 10 ^ Z.of_nat k <= n) ->
  String.length (format_digits fuel n acc) = (S k + String.length acc)%nat.
Proof.
  induction fuel as [|fuel IH]; intros n acc k Hk Hn Hlo; [lia|].
  cbn [format_digits]. destruct (Z.ltb_spec n 10).
  - destruct Hlo as [-> | Hlo]; [reflexivity|].
    destruct k as [|k]; [reflexivity|].
    exfalso. rewrite Nat2Z.inj_succ, Z.pow_succ_r in Hlo by lia.
    assert (0 < 10 ^ Z.of_nat k) by (apply Z.pow_pos_nonneg; lia). lia.
  - destruct k as [|k]; [simpl in Hn; lia|].
    rewrite (IH _ _ k); [simpl; lia | lia | |].
    + rewrite Nat2Z.inj_succ, Z.pow_succ_r in Hn by lia.
      split; [apply Z.div_pos; lia | apply Z.div_lt_upper_bound; lia].
    + right. destruct Hlo as [? | Hlo]; [lia|].
      rewrite Nat2Z.inj_succ, Z.pow_succ_r in Hlo by lia.
      apply Z.div_le_lower_bound; lia.
Qed.

Lemma format_digits_length_le fuel : forall n acc k,
  0 <= n < 10 ^ Z.of_nat (S k) ->
  (String.length (format_digits fuel n acc) <= S k + String.length acc)%nat.
Proof.
  induction fuel as [|fuel IH]; intros n acc k Hn; [simpl; lia|].
  cbn [format_digits]. destruct (Z.ltb_spec n 10); [simpl; lia|].
  destruct k as [|k]; [simpl in Hn; lia|].
  etrans; [apply (IH _ _ k)|simpl; lia].
  rewrite Nat2Z.inj_succ, Z.pow_succ_r in Hn by lia.
  split; [apply Z.div_pos; lia | apply Z.div_lt_upper_bound; lia].
Qed.

Lemma format_digits_length_acc fuel : forall n acc,
  (String.length acc <= String.length (format_digits fuel n acc))%nat.
Proof.
  induction fuel as [|fuel IH]; intros n acc; [done|].
  cbn [format_digits]. destruct (n <? 10); [simpl; lia|].
  etrans; [|apply IH]. simpl. lia.
Qed.

Lemma format_digits_length_ge fuel : forall n acc k,
  (k < fuel)%nat -> 10 ^ Z.of_nat k <= n ->
  (S k + String.length acc <= String.length (format_digits fuel n acc))%nat.
Proof.
  induction fuel as [|fuel IH]; intros n acc k Hk Hn; [lia|].
  cbn [format_digits]. destruct (Z.ltb_spec n 10).
  - destruct k as [|k]; [simpl; lia|].
    exfalso. rewrite Nat2Z.inj_succ, Z.pow_succ_r in Hn by lia.
    assert (0 < 10 ^ Z.of_nat k) by (apply Z.pow_pos_nonneg; lia). lia.
  - destruct k as [|k].
    + etrans; [|apply format_digits_length_acc]. simpl. lia.
    + etrans; [|apply (IH _ _ k)]; [simpl; lia | lia |].
      rewrite Nat2Z.inj_succ, Z.pow_succ_r in Hn by lia.
      apply Z.div_le_lower_bound; lia.
Qed.

Lemma FormatInt_nonneg n : 0 <= n -> strconv_FormatInt n = format_digits 20 n "".
Proof. intros. unfold strconv_FormatInt. destruct (Z.ltb_spec n 0); [lia | done]. Qed.

Lemma FormatInt_value n :
  0 <= n <= Int64.max_int -> decimalValue (strconv_FormatInt n) = n.
Proof.
  intros Hn. rewrite FormatInt_nonneg by lia. unfold decimalValue.
  rewrite format_digits_value; [reflexivity|].
  unfold Int64.max_int in Hn. change (10 ^ Z.of_nat 20) with 100000000000000000000. lia.
Qed.

Lemma FormatInt_allDigits n : 0 <= n -> allDigits (strconv_FormatInt n) = true.
Proof. intros. rewrite FormatInt_nonneg by lia. by apply format_digits_allDigits. Qed.

Lemma format_digits_nonempty fuel : forall n acc,
  (0 < fuel)%nat \/ acc <> "" -> format_digits fuel n acc <> "".
Proof.
  induction fuel as [|fuel IH]; intros n acc H.
  - destruct H; [lia | done].
  - cbn [format_digits]. destruct (n <? 10); [done|]. apply IH. by right.
Qed.

Lemma FormatInt_nonempty n : 0 <= n -> strconv_FormatInt n <> "".
Proof.
  intros Hn. rewrite FormatInt_nonneg by lia. apply format_digits_nonempty. left. lia.
Qed.

(** The number of digits of [n]: [k + 1] when [10 ^ k <= n < 10 ^ (k + 1)]. *)
Lemma FormatInt_length n k :
  (k < 20)%nat -> 0 <= n < 10 ^ Z.of_nat (S k) -> (k = 0%nat \/ 10 ^ Z.of_nat k <= n) ->
  String.length (strconv_FormatInt n) = S k.
Proof.
  intros Hk Hn Hlo. rewrite FormatInt_nonneg by lia.
  rewrite (format_digits_length 20 n "" k) by done. simpl. lia.
Qed.

Lemma string_length_zero (d : string) : (String.length d =? 0)%nat = bool_decide (d = "").
Proof. by destruct d. Qed.

End Decimal.

Lemma parseInt64_cases d :
  parseInt64 d =
    if bool_decide (d <> "") && allDigits d then Int64.wrap (decimalValue d) else -1.
Proof.
  unfold parseInt64. destruct d as [|c d]; [reflexivity|].
  cbn [String.length Nat.eqb]. rewrite bool_decide_eq_true_2 by done. cbn [andb].
  destruct (allDigits (String c d)) eqn:Hd.
  - change 0 with (Int64.wrap 0) at 1. by apply parseInt64_loop_valid.
  - by apply parseInt64_loop_invalid.
Qed.

Lemma parseSize_cases d :
  if bool_decide (d <> "") && (String.length d <=? 9)%nat && allDigits d
  then parseSize d = decimalValue d /\ 0 <= parseSize d < 10 ^ 9
  else parseSize d = -1.
Proof.
  unfold parseSize, maxParseSizeLen. rewrite string_length_zero.
  destruct (decide (d = "")) as [->|Hne]; [reflexivity|].
  rewrite (bool_decide_eq_false_2 (d = "")), (bool_decide_eq_true_2 (d <> "")) by done.
  cbn [orb andb].
  destruct (Nat.ltb_spec 9 (String.length d)) as [Hl|Hl].
  - destruct (Nat.leb_spec (String.length d) 9); [lia|]. reflexivity.
  - destruct (Nat.leb_spec (String.length d) 9); [|lia]. cbn [andb].
    rewrite parseSize_loop_eq.
    destruct (allDigits d) eqn:Hd; [|by apply parseInt64_loop_invalid].
    pose proof (decimalValue_from_bounds d Hd 0 ltac:(lia)) as Hb.
    assert (10 ^ Z.of_nat (String.length d) <= 10 ^ 9) as Hp
      by (apply Z.pow_le_mono_r; lia).
    fold (decimalValue d) in *.
    change (0 + 1) with 1 in Hb. rewrite Z.mul_0_l, Z.mul_1_l in Hb.
    change (10 ^ 9) with 1000000000 in *.
    assert (parseInt64_loop d 0 = decimalValue d) as ->; [|lia].
    change (parseInt64_loop d 0) with (parseInt64_loop d (Int64.wrap 0)).
    rewrite parseInt64_loop_valid by done.
    apply Int64Facts.wrap_small.
    unfold Int64.in_range, Int64.min_int, Int64.max_int. fold (decimalValue d). lia.
Qed.

(** X1.  [parseSize] reads a decimal number of one to nine digits.  On
    such a string it returns the number that the digits spell, which lies
    between 0 and 999999999.  On every other string, that is the empty
    one, one longer than nine bytes, or one holding a byte that is not a
    digit, it returns -1. *)
Theorem parseSize_spec d :
  if bool_decide (d <> "") && (String.length d <=? 9)%nat && allDigits d
  then parseSize d = decimalValue d /\ 0 <= parseSize d < 10 ^ 9
  else parseSize d = -1.
Proof. apply parseSize_cases. Qed.

(** X2.  [parseInt64] returns -1 on the empty string and on a string
    holding a byte that is not a digit.  On a string of digits it returns
    the number they spell reduced to 64 bits: the length is not tested,
    so a number outside the range of [int64] wraps around. *)
Theorem parseInt64_spec d :
  parseInt64 d =
    if bool_decide (d <> "") && allDigits d then Int64.wrap (decimalValue d) else -1.
Proof. apply parseInt64_cases. Qed.

(** X3.  Parsing what [strconv.FormatInt] printed.  [parseInt64] gives
    back every [int64] that is not negative; [parseSize] gives back the
    numbers below 10^9 and answers -1 on the others. *)
Theorem parse_FormatInt_round_trip n :
  0 <= n <= Int64.max_int ->
  parseInt64 (strconv_FormatInt n) = n /\
  parseSize (strconv_FormatInt n) = if n <? 10 ^ 9 then n else -1.
Proof.
  intros Hn. split.
  - rewrite parseInt64_cases, FormatInt_allDigits by lia.
    rewrite bool_decide_eq_true_2 by (apply FormatInt_nonempty; lia). cbn [andb].
    rewrite FormatInt_value by done. apply Int64Facts.wrap_small.
    unfold Int64.in_range, Int64.min_int, Int64.max_int in *. lia.
  - pose proof (parseSize_cases (strconv_FormatInt n)) as H.
    rewrite FormatInt_allDigits, bool_decide_eq_true_2 in H
      by (try apply FormatInt_nonempty; lia).
    rewrite andb_true_r in H. cbn [andb] in H.
    rewrite FormatInt_nonneg in * by lia.
    destruct (Z.ltb_spec n (10 ^ 9)) as [Hlt|Hge].
    + pose proof (format_digits_length_le 20 n "" 8 ltac:(split; [lia | exact Hlt])) as Hl.
      change (String.length "") with 0%nat in Hl.
      destruct (Nat.leb_spec (String.length (format_digits 20 n "")) 9); [|lia].
      destruct H as [H _]. rewrite H. fold (strconv_FormatInt n).
      rewrite <- (FormatInt_nonneg n) by lia. apply FormatInt_value. lia.
    + pose proof (format_digits_length_ge 20 n "" 9 ltac:(lia) Hge) as Hl.
      change (String.length "") with 0%nat in Hl.
      destruct (Nat.leb_spec (String.length (format_digits 20 n "")) 9); [lia|].
      exact H.
Qed.

Section Comma.

Lemma decimalValue_from_shift d : forall n,
  decimalValue_from d n = n * 10 ^ Z.of_nat (String.length d) + decimalValue_from d 0.
Proof.
  induction d as [|c d IH]; intros n.
  - simpl. lia.
  - cbn [decimalValue_from String.length].
    rewrite (IH (n * 10 + _)), (IH (0 * 10 + _)).
    rewrite Nat2Z.inj_succ, Z.pow_succ_r by lia. ring.
Qed.

Lemma allDigits_app a b : allDigits (a +:+ b) = allDigits a && allDigits b.
Proof. induction a as [|c a IH]; simpl; [done|]. by rewrite IH, andb_assoc. Qed.

Lemma length_app_string (a b : string) :
  String.length (a +:+ b) = (String.length a + String.length b)%nat.
Proof. induction a as [|c a IH]; simpl; [done|]. by rewrite IH. Qed.

(** A group of three digits: the padded form of a number below 1000. *)
Lemma comma_pad_group r :
  0 <= r <= 999 ->
  let g := comma_pad (strconv_FormatInt r) in
  String.length g = 3%nat /\ allDigits g = true /\
  forall m, decimalValue_from g m = m * 1000 + r.
Proof.
  intros Hr g.
  assert (allDigits (strconv_FormatInt r) = true) as Hd by (apply FormatInt_allDigits; lia).
  assert (decimalValue (strconv_FormatInt r) = r) as Hv
    by (apply FormatInt_value; unfold Int64.max_int; lia).
  assert (exists k, (k < 3)%nat /\ String.length (strconv_FormatInt r) = S k) as (k & Hk & Hl).
  { destruct (Z.ltb_spec r 10); [|destruct (Z.ltb_spec r 100)].
    - exists 0%nat. split; [lia|]. apply FormatInt_length; [lia| simpl; lia | by left].
    - exists 1%nat. split; [lia|].
      apply FormatInt_length; [lia | simpl; lia | right; simpl; lia].
    - exists 2%nat. split; [lia|].
      apply FormatInt_length; [lia | simpl; lia | right; simpl; lia]. }
  assert (String.length g = 3%nat /\ allDigits g = true /\ decimalValue_from g 0 = r)
    as (Hg1 & Hg2 & Hg3).
  { subst g. unfold comma_pad. rewrite Hl.
    destruct k as [|[|[|k]]]; [| | |lia].
    - rewrite length_app_string, allDigits_app, decimalValue_from_app, Hl, Hd. done.
    - rewrite length_app_string, allDigits_app, decimalValue_from_app, Hl, Hd. done.
    - rewrite Hl. done. }
  split_and!; [done..|]. intros m.
  rewrite decimalValue_from_shift, Hg1, Hg3. reflexivity.
Qed.

Lemma drop_insert_here {A} (l : list A) i x :
  (i < length l)%nat -> drop i (<[i := x]> l) = x :: drop (S i) l.
Proof.
  intros Hi. rewrite insert_take_drop by done.
  rewrite drop_app_length'; [done|]. rewrite length_take. lia.
Qed.

Lemma string_app_cons x (a b : string) : String x a +:+ b = String x (a +:+ b).
Proof. reflexivity. Qed.

Lemma string_app_assoc (a b c : string) : (a +:+ b) +:+ c = a +:+ (b +:+ c).
Proof. induction a as [|x a IH]; [done|]. by rewrite !string_app_cons, IH. Qed.

Lemma string_app_nil_r (a : string) : a +:+ "" = a.
Proof. induction a as [|x a IH]; [done|]. by rewrite string_app_cons, IH. Qed.

Lemma concat_strings_app a b :
  concat_strings (a ++ b) = concat_strings a +:+ concat_strings b.
Proof.
  induction a as [|x a IH]; [done|].
  cbn [app concat_strings foldr]. fold (concat_strings (a ++ b)). fold (concat_strings a).
  by rewrite IH, string_app_assoc.
Qed.

Lemma comma_loop_spec fuel : forall v parts j,
  0 <= v < 1000 ^ (j + 1) -> 0 <= j < Z.of_nat (length parts) ->
  (Z.to_nat j < fuel)%nat ->
  exists v' parts' j' gs,
    comma_loop fuel v parts j = Some (v', parts', j') /\
    0 <= v' <= 999 /\ 0 <= j' <= j /\ length parts' = length parts /\
    drop (S (Z.to_nat j')) parts' = gs ++ drop (S (Z.to_nat j)) parts /\
    Forall isGroup gs /\
    decimalValue_from (concat_strings gs) v' = v.
Proof.
  induction fuel as [|fuel IH]; intros v parts j Hv Hj Hf; [lia|].
  cbn [comma_loop]. destruct (Z.gtb_spec v 999) as [Hbig|Hsmall].
  - destruct (Z.ltb_spec j 0); [lia|]. destruct (Z.leb_spec (Z.of_nat (length parts)) j); [lia|].
    cbn [orb].
    assert (1 <= j) as Hj1.
    { destruct (decide (j = 0)) as [->|]; [|lia]. simpl in Hv. lia. }
    rewrite Z.rem_mod_nonneg, Z.quot_div_nonneg by lia.
    pose proof (Z.mod_pos_bound v 1000 ltac:(lia)) as Hm.
    pose proof (Z.div_mod v 1000 ltac:(lia)) as Hdm.
    destruct (comma_pad_group (v mod 1000) ltac:(lia)) as (Hg1 & Hg2 & Hg3).
    set (g := comma_pad (strconv_FormatInt (v mod 1000))) in *.
    destruct (IH (v / 1000) (<[Z.to_nat j := g]> parts) (j - 1))
      as (v' & parts' & j' & gs & Heq & Hv' & Hj' & Hlen & Hdrop & Hgs & Hval).
    + split; [apply Z.div_pos; lia|]. apply Z.div_lt_upper_bound; [lia|].
      replace (j - 1 + 1) with j by lia.
      replace (j + 1) with (Z.succ j) in Hv by lia.
      rewrite Z.pow_succ_r in Hv by lia. lia.
    + rewrite length_insert. lia.
    + lia.
    + exists v', parts', j', (gs ++ [g]). split_and!; try done; try lia.
      * by rewrite Hlen, length_insert.
      * rewrite Hdrop. replace (S (Z.to_nat (j - 1))) with (Z.to_nat j) by lia.
        rewrite drop_insert_here by lia. by rewrite <- app_assoc.
      * apply Forall_app. split; [done|]. by constructor.
      * rewrite concat_strings_app, decimalValue_from_app, Hval. simpl.
        rewrite string_app_nil_r, Hg3. lia.
  - exists v, parts, j, []. split_and!; try done; lia.
Qed.


Lemma comma_nonneg_shape v :
  0 <= v <= Int64.max_int ->
  exists g gs,
    comma v = Some (strings_Join (g :: gs) ",") /\
    (1 <= String.length g <= 3)%nat /\ allDigits g = true /\
    Forall isGroup gs /\
    decimalValue (g +:+ concat_strings gs) = v.
Proof.
  intros Hv. unfold comma.
  destruct (Z.eqb_spec v Int64.min_int) as [->|_]; [unfold Int64.min_int in Hv; lia|].
  destruct (Z.ltb_spec v 0); [lia|].
  set (parts := [""; ""; ""; ""; ""; ""; ""]).
  change (Z.of_nat (length parts) - 1) with 6.
  destruct (comma_loop_spec 64 v parts 6)
    as (v' & parts' & j' & gs & Heq & Hv' & Hj' & Hlen & Hdrop & Hgs & Hval).
  { unfold Int64.max_int in Hv. change (1000 ^ (6 + 1)) with 1000000000000000000000. lia. }
  { simpl. lia. }
  { simpl. lia. }
  rewrite Heq.
  change (length parts) with 7%nat in Hlen. rewrite Hlen.
  destruct (Z.ltb_spec j' 0); [lia|]. destruct (Z.leb_spec (Z.of_nat 7) j'); [lia|].
  cbn [orb]. rewrite drop_insert_here by lia. rewrite Hdrop.
  replace (drop (S (Z.to_nat 6)) parts) with (@nil string) by reflexivity.
  rewrite app_nil_r. rewrite string_app_cons || idtac.
  exists (strconv_FormatInt v'), gs. split_and!.
  - reflexivity.
  - pose proof (FormatInt_nonempty v' ltac:(lia)).
    destruct (strconv_FormatInt v') eqn:E; [done|simpl; lia].
  - rewrite FormatInt_nonneg by lia.
    pose proof (format_digits_length_le 20 v' "" 2 ltac:(simpl; lia)) as Hl.
    change (String.length "") with 0%nat in Hl. lia.
  - apply FormatInt_allDigits. lia.
  - done.
  - unfold decimalValue. rewrite decimalValue_from_app.
    fold (decimalValue (strconv_FormatInt v')).
    rewrite FormatInt_value by (unfold Int64.max_int; lia). done.
Qed.

Lemma isDigit_not_comma c : isDigit c = true -> Ascii.eqb c ","%char = false.
Proof.
  intros H. apply isDigit_range in H. apply Ascii.eqb_neq. intros ->.
  destruct H as [H _]. vm_compute in H. by apply H.
Qed.

Lemma stripCommas_digits d : allDigits d = true -> stripCommas d = d.
Proof.
  induction d as [|c d IH]; [done|]. cbn [allDigits stripCommas].
  intros [Hc Hd]%andb_true_iff. rewrite isDigit_not_comma, IH; done.
Qed.

Lemma stripCommas_app a b : stripCommas (a +:+ b) = stripCommas a +:+ stripCommas b.
Proof.
  induction a as [|c a IH]; [done|]. rewrite string_app_cons. cbn [stripCommas].
  rewrite IH. by destruct (Ascii.eqb c ","%char).
Qed.

Lemma allDigits_concat gs : Forall isGroup gs -> allDigits (concat_strings gs) = true.
Proof.
  induction 1 as [|g gs [_ Hg] _ IH]; [done|].
  cbn [concat_strings foldr]. fold (concat_strings gs). by rewrite allDigits_app, Hg, IH.
Qed.

Lemma stripCommas_Join gs : Forall isGroup gs -> forall g,
  allDigits g = true ->
  stripCommas (strings_Join (g :: gs) ",") = g +:+ concat_strings gs.
Proof.
  induction 1 as [|g' gs [_ Hg'] _ IH]; intros g Hg.
  - simpl. rewrite string_app_nil_r. by apply stripCommas_digits.
  - cbn [strings_Join]. cbn [strings_Join] in IH.
    rewrite !stripCommas_app, (stripCommas_digits g) by done.
    rewrite (IH g' Hg'). reflexivity.
Qed.

(** X4.  On an [int64] that is not negative, [comma] returns a first
    group of one to three digits followed by groups of exactly three
    digits, the groups joined by commas; the digits, read without the
    commas, spell the number. *)
Theorem comma_grouping v :
  0 <= v <= Int64.max_int ->
  exists g gs,
    comma v = Some (strings_Join (g :: gs) ",") /\
    (1 <= String.length g <= 3)%nat /\ allDigits g = true /\
    Forall (fun p => String.length p = 3%nat /\ allDigits p = true) gs /\
    decimalValue (g +:+ concat_strings gs) = v.
Proof. apply comma_nonneg_shape. Qed.

(** X5.  What [comma] prints for an [int64] that is not negative reads
    back: without its commas, [parseInt64] returns the number. *)
Theorem comma_parseInt64_round_trip v :
  0 <= v <= Int64.max_int ->
  exists s, comma v = Some s /\ parseInt64 (stripCommas s) = v.
Proof.
  intros Hv. destruct (comma_nonneg_shape v Hv) as (g & gs & Heq & Hlen & Hg & Hgs & Hval).
  eexists. split; [exact Heq|].
  rewrite stripCommas_Join by done.
  unfold parseInt64. 
  destruct (g +:+ concat_strings gs) as [|c d] eqn:E.
  { destruct g; simpl in Hlen; [lia | discriminate]. }
  cbn [String.length Nat.eqb].
  change (parseInt64_loop (String c d) 0) with (parseInt64_loop (String c d) (Int64.wrap 0)).
  rewrite parseInt64_loop_valid.
  - fold (decimalValue (String c d)). rewrite Hval. apply Int64Facts.wrap_small.
    unfold Int64.in_range, Int64.min_int, Int64.max_int in *. lia.
  - rewrite <- E, allDigits_app, Hg. by apply allDigits_concat.
Qed.

(** X6.  [comma] returns a string on every [int64]: the writes into its
    array of seven parts stay inside the array.  For a negative number
    other than the least one, the string is a minus sign before what
    [comma] returns for the opposite number. *)
Theorem comma_never_panics v :
  Int64.in_range v ->
  is_Some (comma v) /\
  (Int64.min_int < v < 0 ->
   exists s, comma (- v) = Some s /\ comma v = Some ("-" +:+ s)).
Proof.
  intros Hv.
  assert (Int64.min_int < v < 0 ->
          exists s, comma (- v) = Some s /\ comma v = Some ("-" +:+ s)) as Hneg.
  { intros Hn. unfold Int64.in_range, Int64.min_int, Int64.max_int in *.
    destruct (comma_nonneg_shape (- v)) as (g & gs & Heq & _).
    { unfold Int64.max_int. lia. }
    revert Heq. generalize (strings_Join (g :: gs) ","). intros s Heq.
    exists s. split; [exact Heq|].
    revert Heq. unfold comma.
    destruct (Z.eqb_spec v Int64.min_int); [unfold Int64.min_int in *; lia|].
    destruct (Z.eqb_spec (- v) Int64.min_int); [unfold Int64.min_int in *; lia|].
    destruct (Z.ltb_spec v 0); [|lia]. destruct (Z.ltb_spec (- v) 0); [lia|].
    replace (Int64.sub 0 v) with (- v).
    2:{ unfold Int64.sub. rewrite Int64Facts.wrap_small; [lia|].
        unfold Int64.in_range, Int64.min_int, Int64.max_int. lia. }
    destruct (comma_loop _ _ _ _) as [[[v' parts'] j']|]; [|done].
    destruct (_ || _); [done|]. intros [= <-]. reflexivity. }
  split; [|exact Hneg].
  destruct (Z.eq_dec v Int64.min_int) as [->|Hmin]; [by eexists|].
  destruct (Z.lt_ge_cases v 0) as [Hlt|Hge].
  - destruct Hneg as (s & _ & ->); [|by eexists].
    unfold Int64.in_range in Hv. lia.
  - destruct (comma_nonneg_shape v) as (g & gs & -> & _); [|by eexists].
    unfold Int64.in_range in Hv. lia.
Qed.

End Comma.

(** ** A frame rule for the template, recovery and deletion code *)

Section FrameRule.

Context {Ext : Type} (E : Externals Ext).
Context (R : World Ext -> World Ext -> Prop) (HR : Frame E R).
Implicit Types (w : World Ext).

Lemma frame_externals_AddStream a cfg w : R w (AddStream E a cfg w).1.
Proof. apply (frame_AddStream HR). Qed.
Lemma frame_externals_Stream_Delete mset w : R w (Stream_Delete E mset w).1.
Proof. apply (frame_Stream_Delete HR). Qed.
Lemma frame_externals_Stream_AddConsumer mset cfg w : R w (Stream_AddConsumer E mset cfg w).1.
Proof. apply (frame_Stream_AddConsumer HR). Qed.
Lemma frame_externals_Consumer_readStoredState obs w :
  R w (Consumer_readStoredState E obs w).1.
Proof. apply (frame_Consumer_readStoredState HR). Qed.
Lemma frame_same w : R w w.
Proof. apply (frame_refl HR). Qed.

Local Hint Resolve frame_same : core.

Lemma frame_updTmpl t f w : R w (updTmpl t f w).
Proof. apply (frame_set_tmpls HR). Qed.

Ltac frame_chain :=
  repeat first
    [ apply (frame_refl HR)
    | assumption
    | match goal with
      | |- R ?w (set_log _ ?w') =>
          apply (frame_trans HR w w'); [|apply (frame_set_log HR)]
      | |- R ?w (set_calls _ ?w') =>
          apply (frame_trans HR w w'); [|apply (frame_set_calls HR)]
      | |- R ?w (set_ext _ ?w') =>
          apply (frame_trans HR w w'); [|apply (frame_set_ext HR)]
      | |- R ?w (set_tmpls _ ?w') =>
          apply (frame_trans HR w w'); [|apply (frame_set_tmpls HR)]
      | |- R ?w (updTmpl _ _ ?w') =>
          apply (frame_trans HR w w'); [|apply frame_updTmpl]
      | |- R ?w (updAccount _ _ ?w') =>
          apply (frame_trans HR w w'); [|apply (frame_set_imports HR)]
      | |- R ?w (updJsa _ (jsa_set_templates _) ?w') =>
          apply (frame_trans HR w w'); [|apply (frame_set_templates HR)]
      | |- R ?w (updJsa _ (jsa_set_store _) ?w') =>
          apply (frame_trans HR w w'); [|apply (frame_set_store HR)]
      | K : R ?w' ?x |- R ?w ?x =>
          apply (frame_trans HR w w' x); [|exact K]
      | |- R ?w (?m ?w').1 =>
          apply (frame_trans HR w w'); [|solve [eauto]]
      end ].

Ltac frame_steps :=
  repeat match goal with
         | H : ?m ?w = (?w0, ?a) |- _ =>
             assert (R w w0)
               by (change w0 with (w0, a).1; rewrite <- H; eauto);
             clear H
         end.

Lemma invoke_frame {A} (mk : A -> Call) f :
  (forall w, R w (f w).1) -> forall w, R w (invoke mk f w).1.
Proof.
  intros Hf w. unfold invoke. specialize (Hf w). destruct (f w) as [w' r].
  simpl in *. frame_chain.
Qed.

Lemma onExt_frame {A} (f : Ext -> Ext * A) w : R w (onExt f w).1.
Proof. unfold onExt. destruct (f (w_ext w)). simpl. frame_chain. Qed.

Lemma logf_frame lvl fmt w : R w (logf lvl fmt w).1.
Proof. unfold logf, modify. simpl. frame_chain. Qed.

Lemma forEach_frame {A} (f : A -> M Ext unit) l :
  (forall x w, R w (f x w).1) -> forall w, R w (forEach f l w).1.
Proof.
  intros Hf. induction l as [|x l IH]; intros w.
  - apply (frame_refl HR).
  - rewrite forEach_cons.
    eapply (frame_trans HR); [apply Hf | apply IH].
Qed.

Lemma forEachErr_frame {A} (f : A -> M Ext (option error)) l :
  (forall x w, R w (f x w).1) -> forall w, R w (forEachErr f l w).1.
Proof.
  intros Hf. induction l as [|x l IH]; intros w.
  - apply (frame_refl HR).
  - simpl. unfold bind. specialize (Hf x w).
    destruct (f x w) as [w' [err|]]; simpl in *; [done|].
    eapply (frame_trans HR); [exact Hf | apply IH].
Qed.

Lemma forEachOutcome_frame {A} (f : A -> M Ext (Outcome unit)) l :
  (forall x w, R w (f x w).1) -> forall w, R w (forEachOutcome f l w).1.
Proof.
  intros Hf. induction l as [|x l IH]; intros w.
  - apply (frame_refl HR).
  - simpl. unfold bind. specialize (Hf x w).
    destruct (f x w) as [w' [[]|]]; simpl in *; [|done].
    eapply (frame_trans HR); [exact Hf | apply IH].
Qed.

Local Hint Resolve logf_frame invoke_frame forEach_frame forEachErr_frame
  forEachOutcome_frame onExt_frame : core.
Local Hint Resolve frame_externals_AddStream frame_externals_Stream_Delete
  frame_externals_Stream_AddConsumer frame_externals_Consumer_readStoredState : core.

Ltac frame_cases :=
  intros; unfold bind, ret, modify, Warnf, Noticef, Debugf in *;
  repeat case_match; simplify_eq; cbn [fst snd] in *;
  frame_steps; frame_chain.

Lemma AddServiceImport_frame a e w : R w (AddServiceImport E a e w).1.
Proof.
  unfold AddServiceImport. destruct (serviceImportError E a e (w_ext w)); simpl; [done|].
  apply (frame_set_imports HR a (fun acc => {[e]} ∪ acc_imports acc)).
Qed.

Lemma removeServiceImport_frame a e w : R w (removeServiceImport a e w).1.
Proof.
  unfold removeServiceImport, modify. simpl.
  apply (frame_set_imports HR a (fun acc => acc_imports acc ∖ {[e]})).
Qed.

Local Hint Resolve AddServiceImport_frame removeServiceImport_frame : core.

Lemma addServiceImportOf_frame a e w : R w (addServiceImportOf E a e w).1.
Proof. unfold addServiceImportOf. frame_cases. Qed.

Local Hint Resolve addServiceImportOf_frame : core.

Lemma addServiceImports_frame a w : R w (addServiceImports E a w).1.
Proof. unfold addServiceImports. eauto. Qed.

Lemma validateStreams_frame a t w : R w (validateStreams a t w).1.
Proof. unfold validateStreams. frame_cases. Qed.

Lemma addStreamNameToTemplate_frame jsa tn mn w :
  R w (addStreamNameToTemplate jsa tn mn w).1.
Proof. unfold addStreamNameToTemplate. frame_cases. Qed.

Lemma deleteStreams_frame streams lastErr w :
  R w (deleteStreams E streams lastErr w).1.
Proof.
  revert lastErr w. induction streams as [|mset rest IH]; intros lastErr w.
  - apply (frame_refl HR).
  - simpl. unfold bind.
    destruct (invoke _ _ w) as [w' err] eqn:Hw.
    eapply (frame_trans HR); [|apply IH]. frame_steps. done.
Qed.

Local Hint Resolve validateStreams_frame addStreamNameToTemplate_frame
  deleteStreams_frame : core.

Lemma Delete_frame t w : R w (Delete E t w).1.
Proof. unfold Delete. frame_cases. Qed.

Local Hint Resolve Delete_frame : core.

Lemma DeleteStreamTemplate_frame a name w :
  R w (DeleteStreamTemplate E a name w).1.
Proof. unfold DeleteStreamTemplate. frame_cases. Qed.

Local Hint Resolve DeleteStreamTemplate_frame : core.

Lemma subscribeAll_frame a tname subjects sid w :
  R w (subscribeAll E a tname subjects sid w).1.
Proof.
  revert sid w. induction subjects as [|subject rest IH]; intros sid w.
  - apply (frame_refl HR).
  - simpl. unfold bind.
    destruct (onExt (processSub E subject sid) w) as [w' [err|]] eqn:Hw.
    + destruct (DeleteStreamTemplate E a tname w') as [w'' r] eqn:Hw'.
      simpl. frame_steps. frame_chain.
    + eapply (frame_trans HR); [|apply IH]. frame_steps. done.
Qed.

Local Hint Resolve subscribeAll_frame : core.

Lemma createTemplateSubscriptions_frame a t w :
  R w (createTemplateSubscriptions E a t w).1.
Proof. unfold createTemplateSubscriptions. frame_cases. Qed.

Local Hint Resolve createTemplateSubscriptions_frame : core.

Lemma subscribeAndStore_frame a jsa t tcopy w :
  R w (subscribeAndStore E a jsa t tcopy w).1.
Proof. unfold subscribeAndStore. frame_cases. Qed.

Local Hint Resolve subscribeAndStore_frame : core.

Lemma AddStreamTemplate_frame a tc w : R w (AddStreamTemplate E a tc w).1.
Proof. unfold AddStreamTemplate. frame_cases. Qed.

Local Hint Resolve AddStreamTemplate_frame : core.

Lemma processInboundTemplateMsg_frame t subject reply msg w :
  R w (processInboundTemplateMsg E t subject reply msg w).1.
Proof.
  assert (forall mset w, R w (Stream_processInboundJetStreamMsg E mset subject reply msg w, tt).1)
    by (intros; apply (frame_Stream_processInboundJetStreamMsg HR)).
  unfold processInboundTemplateMsg. frame_cases.
Qed.

Lemma recoverTemplate_frame a tdir hh fi w :
  R w (recoverTemplate E a tdir hh fi w).1.
Proof. unfold recoverTemplate. frame_cases. Qed.

Lemma recoverConsumer_frame odir mset ofi w :
  R w (recoverConsumer E odir mset ofi w).1.
Proof. unfold recoverConsumer. frame_cases. Qed.

Local Hint Resolve recoverTemplate_frame recoverConsumer_frame : core.

Lemma recoverStream_frame a jsa sdir fi w :
  R w (recoverStream E a jsa sdir fi w).1.
Proof. unfold recoverStream. frame_cases. Qed.

Lemma upgradeStoreDir_frame storeDir sdir w :
  R w (upgradeStoreDir E storeDir sdir w).1.
Proof.
  unfold upgradeStoreDir.
  assert (forall l w, R w
            (forEach (fun fi => modify (fun w =>
               set_ext (os_Rename E (path_Join [storeDir; fi])
                          (path_Join [sdir; fi]) (w_ext w)) w)) l w).1).
  { intros l. apply forEach_frame. intros x w0. unfold modify. simpl. frame_chain. }
  frame_cases.
Qed.

Lemma recoverTemplates_frame a storeDir w :
  R w (recoverTemplates E a storeDir w).1.
Proof. unfold recoverTemplates. frame_cases. Qed.

Local Hint Resolve recoverStream_frame upgradeStoreDir_frame recoverTemplates_frame : core.

Lemma recoverState_frame a jsa w : R w (recoverState E a jsa w).1.
Proof. unfold recoverState. frame_cases. Qed.

Lemma jsa_delete_frame jsa w : R w (jsa_delete E jsa w).1.
Proof.
  unfold jsa_delete.
  assert (forall l w, R w
            (forEach (fun ms => invoke (fun _ => CallStreamStop (sc_Name (stream_config ms)))
                                  (fun w => (Stream_stop E ms w, tt))) l w).1).
  { intros l. apply forEach_frame. intros ms w0. apply invoke_frame.
    intros w1. simpl. apply (frame_Stream_stop HR). }
  assert (forall acc l w, R w
            (forEach (fun t => bind (DeleteStreamTemplate E acc t) (fun _ => ret tt)) l w).1).
  { intros acc l. apply forEach_frame. intros t w0. frame_cases. }
  frame_cases.
Qed.

Local Hint Resolve recoverState_frame jsa_delete_frame addServiceImports_frame : core.

Lemma afterRegistration_frame a jsa w : R w (afterRegistration E a jsa w).1.
Proof. unfold afterRegistration, logf. frame_cases. Qed.

End FrameRule.

(** ** The ledger stays balanced *)

Section Books.
Context {Ext : Type} (E : Externals Ext).
Implicit Types (w : World Ext).

Lemma sameBooks_refl w : sameBooks w w.
Proof. by split_and!. Qed.

Lemma sameBooks_trans w1 w2 w3 : sameBooks w1 w2 -> sameBooks w2 w3 -> sameBooks w1 w3.
Proof.
  intros (H1 & H2 & H3 & H4) (K1 & K2 & K3 & K4). split_and!.
  - congruence.
  - intros a. destruct (H2 a), (K2 a). split; congruence.
  - intros l. destruct (H3 l), (K3 l). split; congruence.
  - by etrans.
Qed.

Lemma sameBooks_updJsa l f w :
  (forall j, jsa_limits (f j) = jsa_limits j /\ jsa_account (f j) = jsa_account j) ->
  sameBooks w (updJsa l f w).
Proof.
  intros Hf. split_and!; try done.
  - intros l'. destruct (decide (l = l')) as [->|Hne].
    + rewrite jsaAt_updJsa. apply Hf.
    + by rewrite jsaAt_updJsa_ne.
  - unfold updJsa. simpl. rewrite dom_insert. apply union_subseteq_r.
Qed.

Lemma sameBooks_updAccount a f w :
  (forall acc, acc_srv (f acc) = acc_srv acc /\ acc_js (f acc) = acc_js acc) ->
  sameBooks w (updAccount a f w).
Proof.
  intros Hf. split_and!; try done.
  intros b. destruct (decide (a = b)) as [->|Hne].
  - rewrite getAccount_updAccount. apply Hf.
  - by rewrite getAccount_updAccount_ne.
Qed.

Lemma sameBooks_frame : ExternalsKeepBooks E -> Frame E sameBooks.
Proof.
  intros HE. split.
  - apply sameBooks_refl.
  - apply sameBooks_trans.
  - intros. by split_and!.
  - intros. by split_and!.
  - intros. by split_and!.
  - intros. by split_and!.
  - intros. by apply sameBooks_updJsa.
  - intros. by apply sameBooks_updJsa.
  - intros. by apply sameBooks_updAccount.
  - apply (books_AddStream HE).
  - apply (books_Stream_Delete HE).
  - apply (books_Stream_stop HE).
  - apply (books_Stream_processInboundJetStreamMsg HE).
  - apply (books_Stream_AddConsumer HE).
  - apply (books_Consumer_readStoredState HE).
Qed.

(** *** Sums over the ledger *)

Lemma sum_permutation (l l' : list Z) : l ≡ₚ l' -> foldr Z.add 0 l = foldr Z.add 0 l'.
Proof. induction 1; simpl; lia. Qed.

Lemma reservedSum_insert f accounts a l w :
  accounts !! a = None ->
  reservedSum f (<[a := l]> accounts) w
    = positivePart (f (jsa_limits (jsaAt l w))) + reservedSum f accounts w.
Proof.
  intros Ha. unfold reservedSum.
  rewrite (sum_permutation _ _ (fmap_Permutation _ _ _ (map_to_list_insert accounts a l Ha))).
  reflexivity.
Qed.

Lemma reservedSum_delete f accounts a l w :
  accounts !! a = Some l ->
  reservedSum f accounts w
    = positivePart (f (jsa_limits (jsaAt l w))) + reservedSum f (delete a accounts) w.
Proof.
  intros Ha. rewrite <- (insert_delete_id accounts a l Ha) at 1.
  apply reservedSum_insert. apply lookup_delete_eq.
Qed.

Lemma reservedSum_ext f accounts w w' :
  (forall a l, accounts !! a = Some l ->
     jsa_limits (jsaAt l w') = jsa_limits (jsaAt l w)) ->
  reservedSum f accounts w' = reservedSum f accounts w.
Proof.
  intros H. unfold reservedSum. f_equal. apply list_fmap_ext.
  intros i [a l] Hi. simpl. rewrite (H a l); [done|].
  apply elem_of_map_to_list. eapply list_elem_of_lookup_2. exact Hi.
Qed.


Lemma wrap_add_positivePart s m :
  (if m >? 0 then Int64.add (Int64.wrap s) m else Int64.wrap s)
  = Int64.wrap (positivePart m + s).
Proof.
  unfold positivePart. destruct (m >? 0); [|done].
  unfold Int64.add. apply Int64Facts.wrap_congr.
  rewrite Zplus_mod, Int64Facts.wrap_eqm, <- Zplus_mod. f_equal. lia.
Qed.

Lemma wrap_sub_positivePart s m :
  (if m >? 0 then Int64.sub (Int64.wrap (positivePart m + s)) m
   else Int64.wrap (positivePart m + s))
  = Int64.wrap s.
Proof.
  unfold positivePart. destruct (m >? 0); [|done].
  unfold Int64.sub. apply Int64Facts.wrap_congr.
  rewrite Zminus_mod, Int64Facts.wrap_eqm, <- Zminus_mod. f_equal. lia.
Qed.

Lemma ledgerInv_sameBooks w w' : sameBooks w w' -> ledgerInv w -> ledgerInv w'.
Proof.
  intros (Hjs & _ & Hl & Hdom) [Hwf Hbal]. split.
  - intros js a l Hjs' Ha. rewrite Hjs in Hjs'.
    destruct (Hwf js a l Hjs' Ha) as [Hin Hacc]. split; [by apply Hdom|].
    destruct (Hl l) as [_ ->]. done.
  - intros js Hjs'. rewrite Hjs in Hjs'. destruct (Hbal js Hjs') as [Hm Hs].
    rewrite !(reservedSum_ext _ _ w w') by (intros; apply Hl). done.
Qed.

Lemma ledgerWellFormed_inj w js a a' l :
  ledgerWellFormed w -> w_js w = Some js ->
  js_accounts js !! a = Some l -> js_accounts js !! a' = Some l -> a = a'.
Proof.
  intros Hwf Hjs Ha Ha'.
  destruct (Hwf js a l Hjs Ha) as [_ <-]. by destruct (Hwf js a' l Hjs Ha') as [_ <-].
Qed.

Lemma UpdateJetStreamLimits_inv a limits w :
  ledgerInv w -> ledgerInv (UpdateJetStreamLimits a limits w).1.
Proof.
  intros [Hwf Hbal]. unfold UpdateJetStreamLimits.
  destruct (acc_srv (getAccount a w)); cbn [negb]; [|done].
  destruct (w_js w) as [js|] eqn:Hjs; [|done].
  unfold lookupAccount. destruct (js_accounts js !! a) as [jsa|] eqn:Ha; [|done].
  fold (effectiveLimits js limits). set (new := effectiveLimits js limits).
  set (old := jsa_limits (jsaAt jsa w)).
  destruct (sufficientResources js _); [done|]. cbn [fst].
  destruct (Hwf js a jsa Hjs Ha) as [Hin Hacc].
  destruct (Hbal js Hjs) as [Hm Hs].
  set (js2 := reserveResources (releaseResources js (Some old)) (Some new)).
  assert (Hacc2 : js_accounts js2 = js_accounts js).
  { subst js2. destruct (reserveResources_frame (releaseResources js (Some old)) (Some new))
      as [_ ->]. by destruct (releaseResources_frame js (Some old)) as [_ ->]. }
  assert (Hmem2 : js_memReserved js2
                  = Int64.wrap (positivePart (MaxMemory new)
                                + reservedSum MaxMemory (delete a (js_accounts js)) w)).
  { subst js2. rewrite reserveResources_mem, releaseResources_mem, Hm.
    rewrite (reservedSum_delete _ (js_accounts js) a jsa) by done. fold old.
    by rewrite wrap_sub_positivePart, wrap_add_positivePart. }
  assert (Hstore2 : js_storeReserved js2
                    = Int64.wrap (positivePart (MaxStore new)
                                  + reservedSum MaxStore (delete a (js_accounts js)) w)).
  { subst js2. rewrite reserveResources_store, releaseResources_store, Hs.
    rewrite (reservedSum_delete _ (js_accounts js) a jsa) by done. fold old.
    by rewrite wrap_sub_positivePart, wrap_add_positivePart. }
  clearbody js2.
  set (w' := updJsa jsa (jsa_set_limits new) (set_js (Some js2) w)).
  assert (Hjs2 : w_js w' = Some js2) by reflexivity.
  assert (Hrest : forall f,
    reservedSum f (delete a (js_accounts js)) w'
    = reservedSum f (delete a (js_accounts js)) w).
  { intros f. apply reservedSum_ext. intros a' l' Hl'.
    apply lookup_delete_Some in Hl' as [Hne Hl'].
    subst w'. rewrite jsaAt_updJsa_ne; [done|]. intros <-.
    apply Hne. eapply ledgerWellFormed_inj; eauto. }
  split.
  - intros js' a' l' Hjs' Ha'. rewrite Hjs2 in Hjs'. injection Hjs' as <-.
    rewrite Hacc2 in Ha'.
    destruct (Hwf js a' l' Hjs Ha') as [Hin' Hacc'].
    split.
    + subst w'. unfold updJsa. cbn. rewrite dom_insert. apply elem_of_union. by right.
    + subst w'. destruct (decide (jsa = l')) as [->|Hne].
      * rewrite jsaAt_updJsa. done.
      * rewrite jsaAt_updJsa_ne by done. done.
  - intros js' Hjs'. rewrite Hjs2 in Hjs'. injection Hjs' as <-.
    rewrite Hacc2, Hmem2, Hstore2.
    rewrite !(reservedSum_delete _ (js_accounts js) a jsa) by done.
    rewrite !Hrest. subst w'. rewrite !jsaAt_updJsa. done.
Qed.

Lemma jsaAt_set_js l x w : jsaAt l (set_js x w) = jsaAt l w.
Proof. reflexivity. Qed.

Lemma ledgerInv_same w w' :
  w_js w' = w_js w -> w_jsas w' = w_jsas w -> ledgerInv w -> ledgerInv w'.
Proof.
  intros Hjs Hh [Hwf Hbal].
  assert (Hat : forall l, jsaAt l w' = jsaAt l w) by (intros; unfold jsaAt; by rewrite Hh).
  split.
  - intros js a l Hjs' Ha. rewrite Hjs in Hjs'. rewrite Hh, Hat. by apply (Hwf js).
  - intros js Hjs'. rewrite Hjs in Hjs'.
    rewrite !(reservedSum_ext _ _ w w') by (intros; by rewrite Hat). by apply Hbal.
Qed.

Hypothesis HE : ExternalsKeepBooks E.

Lemma disableJetStream_inv a jsa js w :
  ledgerInv w -> w_js w = Some js -> js_accounts js !! a = Some jsa ->
  ledgerInv (disableJetStream E (Some jsa) w).1.
Proof.
  intros [Hwf Hbal] Hjs Ha.
  unfold disableJetStream, bind. rewrite Hjs. cbn [fmap option_fmap option_map].
  destruct (Hwf js a jsa Hjs Ha) as [Hin Hacc].
  destruct (Hbal js Hjs) as [Hm Hs].
  rewrite Hacc.
  set (js2 := releaseResources
                (js_set_accounts (delete a (js_accounts js)) js)
                (Some (jsa_limits (jsaAt jsa w)))).
  pose proof (jsa_delete_frame E sameBooks (sameBooks_frame HE) jsa
                (set_js (Some js2) w)) as Hk.
  destruct (jsa_delete E jsa (set_js (Some js2) w)) as [w3 u].
  apply (ledgerInv_sameBooks (set_js (Some js2) w) w3 Hk). clear Hk w3 u.
  assert (Hacc2 : js_accounts js2 = delete a (js_accounts js)).
  { subst js2.
    by destruct (releaseResources_frame
                   (js_set_accounts (delete a (js_accounts js)) js)
                   (Some (jsa_limits (jsaAt jsa w)))) as [_ ->]. }
  assert (Hmem2 : js_memReserved js2
                  = Int64.wrap (reservedSum MaxMemory (delete a (js_accounts js)) w)).
  { subst js2. rewrite releaseResources_mem.
    cbn [js_memReserved js_set_accounts]. rewrite Hm.
    rewrite (reservedSum_delete _ (js_accounts js) a jsa) by done.
    by rewrite wrap_sub_positivePart. }
  assert (Hstore2 : js_storeReserved js2
                    = Int64.wrap (reservedSum MaxStore (delete a (js_accounts js)) w)).
  { subst js2. rewrite releaseResources_store.
    cbn [js_storeReserved js_set_accounts]. rewrite Hs.
    rewrite (reservedSum_delete _ (js_accounts js) a jsa) by done.
    by rewrite wrap_sub_positivePart. }
  clearbody js2.
  split.
  - intros js' a' l' Hjs' Ha'. cbn [w_js set_js] in Hjs'. injection Hjs' as <-.
    rewrite Hacc2 in Ha'. apply lookup_delete_Some in Ha' as [_ Ha'].
    rewrite jsaAt_set_js. cbn [w_jsas set_js]. by apply (Hwf js).
  - intros js' Hjs'. cbn [w_js set_js] in Hjs'. injection Hjs' as <-.
    rewrite Hacc2, Hmem2, Hstore2.
    rewrite !(reservedSum_ext _ _ w (set_js (Some js2) w))
      by (intros; by rewrite jsaAt_set_js).
    split; reflexivity.
Qed.

Lemma DisableJetStream_inv a w : ledgerInv w -> ledgerInv (DisableJetStream E a w).1.
Proof.
  intros Hinv.
  destruct (acc_srv (getAccount a w)) eqn:Hsrv; cycle 1.
  { unfold DisableJetStream. rewrite Hsrv. cbn [negb fst].
    by apply (ledgerInv_same w). }
  destruct (w_js w) as [js|] eqn:Hjs; cycle 1.
  { unfold DisableJetStream. rewrite Hsrv. cbn [negb].
    change (w_js (updAccount a (acc_set_js None) w)) with (w_js w). rewrite Hjs.
    by apply (ledgerInv_same w). }
  destruct (DisableJetStream_unfold E w a js Hsrv Hjs) as [-> Hjs1].
  pose proof (removeServiceImports_spec a allJsExports
                (updAccount a (acc_set_js None) w)) as (_ & Hh & _).
  unfold lookupAccount. destruct (js_accounts js !! a) as [jsa|] eqn:Ha.
  - apply (disableJetStream_inv a jsa js); [|done..].
    apply (ledgerInv_same w); [by etrans|exact Hh|done].
  - apply (ledgerInv_same w); [by etrans|exact Hh|done].
Qed.

Lemma registered_inv a js l w :
  ledgerInv w -> w_js w = Some js -> js_accounts js !! a = None ->
  ledgerInv (registered w a js l).
Proof.
  intros [Hwf Hbal] Hjs Ha.
  set (jsa := fresh (dom (w_jsas w))).
  assert (Hfresh : jsa ∉ dom (w_jsas w)) by apply is_fresh.
  set (js2 := reserveResources
                (js_set_accounts (<[a := jsa]> (js_accounts js)) js) (Some l)).
  assert (Hjs' : w_js (registered w a js l) = Some js2) by reflexivity.
  assert (Hacc2 : js_accounts js2 = <[a := jsa]> (js_accounts js)).
  { subst js2.
    by destruct (reserveResources_frame
                   (js_set_accounts (<[a := jsa]> (js_accounts js)) js) (Some l))
      as [_ ->]. }
  destruct (Hbal js Hjs) as [Hm Hs].
  assert (Hmem2 : js_memReserved js2
                  = Int64.wrap (positivePart (MaxMemory l)
                                + reservedSum MaxMemory (js_accounts js) w)).
  { subst js2. rewrite reserveResources_mem. cbn [js_memReserved js_set_accounts].
    by rewrite Hm, wrap_add_positivePart. }
  assert (Hstore2 : js_storeReserved js2
                    = Int64.wrap (positivePart (MaxStore l)
                                  + reservedSum MaxStore (js_accounts js) w)).
  { subst js2. rewrite reserveResources_store. cbn [js_storeReserved js_set_accounts].
    by rewrite Hs, wrap_add_positivePart. }
  assert (Hat_new : jsa_limits (jsaAt jsa (registered w a js l)) = l /\
                    jsa_account (jsaAt jsa (registered w a js l)) = a).
  { unfold registered, jsaAt. cbn. fold jsa. by rewrite lookup_insert_eq. }
  assert (Hat_old : forall l', l' ∈ dom (w_jsas w) ->
                      jsaAt l' (registered w a js l) = jsaAt l' w).
  { intros l' Hl'. unfold registered, jsaAt. cbn. fold jsa.
    rewrite lookup_insert_ne; [done|]. intros <-. done. }
  assert (Hdom : dom (w_jsas (registered w a js l)) = {[jsa]} ∪ dom (w_jsas w)).
  { unfold registered. cbn. fold jsa. by rewrite dom_insert_L. }
  generalize dependent (registered w a js l). intros w' Hjs' Hat_new Hat_old Hdom.
  generalize dependent js2. intros js2 Hacc2 Hmem2 Hstore2 Hjs'.
  split.
  - intros js' a' l' Hjs'' Ha'. rewrite Hjs' in Hjs''. injection Hjs'' as <-.
    rewrite Hacc2 in Ha'.
    rewrite Hdom. apply lookup_insert_Some in Ha' as [[<- <-]|[Hne Ha']].
    + split; [apply elem_of_union; left; by apply elem_of_singleton|].
      apply Hat_new.
    + destruct (Hwf js a' l' Hjs Ha') as [Hin Hacc].
      split; [apply elem_of_union; by right|]. by rewrite Hat_old.
  - intros js' Hjs''. rewrite Hjs' in Hjs''. injection Hjs'' as <-.
    rewrite Hacc2, Hmem2, Hstore2.
    rewrite !reservedSum_insert by done. destruct Hat_new as [-> _].
    rewrite !(reservedSum_ext _ (js_accounts js) w w')
      by (intros a' l' Hl'; rewrite Hat_old; [done | by apply (Hwf js a' l')]).
    split; reflexivity.
Qed.

Lemma EnableJetStream_inv a limits w : ledgerInv w -> ledgerInv (EnableJetStream E a limits w).1.
Proof.
  intros Hinv.
  destruct (classic_admitted w a limits) as [Hadm|Hadm]; cycle 1.
  { apply (EnableJetStream_rejected E) in Hadm as [err ->]. done. }
  destruct Hadm as (Hsrv & js & Hjs & Hok & Ha).
  rewrite (EnableJetStream_admitted E w a limits js Hsrv Hjs Hok Ha).
  eapply ledgerInv_sameBooks;
    [apply (afterRegistration_frame E sameBooks (sameBooks_frame HE))|].
  by apply registered_inv.
Qed.

Lemma accountStep_inv w w' : accountStep E w w' -> ledgerInv w -> ledgerInv w'.
Proof.
  destruct 1; intros Hinv.
  - by apply EnableJetStream_inv.
  - by apply UpdateJetStreamLimits_inv.
  - by apply DisableJetStream_inv.
  - eapply ledgerInv_sameBooks; [|done].
    apply (AddStreamTemplate_frame E sameBooks (sameBooks_frame HE)).
  - eapply ledgerInv_sameBooks; [|done].
    apply (DeleteStreamTemplate_frame E sameBooks (sameBooks_frame HE)).
  - eapply ledgerInv_sameBooks; [|done].
    apply (processInboundTemplateMsg_frame E sameBooks (sameBooks_frame HE)).
Qed.

(** X10.  The ledger stays balanced.  From a world whose ledger is
    balanced, after any sequence of [EnableJetStream],
    [UpdateJetStreamLimits], [DisableJetStream], [AddStreamTemplate],
    [DeleteStreamTemplate] and dispatched template messages, whatever
    their arguments and results, each of the two counters of the ledger
    is the sum, in 64 bits, of the positive limits of the accounts
    entered in it, provided streams and consumers leave the ledger, the
    account pointers and the stored limits alone. *)
Theorem ledger_balance_invariant w0 w :
  ledgerInv w0 -> rtc (accountStep E) w0 w ->
  ledgerInv w /\
  forall js, w_js w = Some js ->
    js_memReserved js = Int64.wrap (reservedSum MaxMemory (js_accounts js) w) /\
    js_storeReserved js = Int64.wrap (reservedSum MaxStore (js_accounts js) w).
Proof.
  intros H0 Hsteps.
  assert (ledgerInv w) as Hinv.
  { induction Hsteps as [|w1 w2 w3 Hstep _ IH]; [done|].
    apply IH. by apply (accountStep_inv w1). }
  split; [done|]. apply Hinv.
Qed.

End Books.

(** ** Enabling, then disabling *)

Section AccountCycle.
Context {Ext : Type} (E : Externals Ext).
Implicit Types (w : World Ext).

(** X8.  The admission test adds in 64 bits.  When the memory already
    reserved and the requested memory are positive and their sum passes
    the largest [int64], the sum wraps to a negative number, the test
    [sufficientResources] accepts the request whatever the configured
    maximum, and [reserveResources] leaves a negative reservation. *)
Theorem sufficientResources_overflow js l :
  0 < js_memReserved js <= Int64.max_int ->
  Int64.max_int - js_memReserved js < MaxMemory l <= Int64.max_int ->
  0 <= cfg_MaxMemory (js_config js) ->
  Int64.add (js_storeReserved js) (MaxStore l) <= cfg_MaxStore (js_config js) ->
  sufficientResources js (Some l) = None /\
  js_memReserved (reserveResources js (Some l)) < 0.
Proof.
  intros Hm Hl Hc Hs.
  assert (Int64.add (js_memReserved js) (MaxMemory l)
          = js_memReserved js + MaxMemory l - 2 ^ 64) as Hadd.
  { unfold Int64.add, Int64.wrap, Int64.modulus, Int64.max_int in *.
    replace (js_memReserved js + MaxMemory l + 2 ^ 63)
      with (js_memReserved js + MaxMemory l - 2 ^ 63 + 1 * 2 ^ 64) by lia.
    rewrite Z.mod_add by lia. rewrite Z.mod_small by lia. lia. }
  split.
  - apply sufficientResources_ok. rewrite Hadd. unfold Int64.max_int in *. lia.
  - rewrite reserveResources_mem.
    destruct (Z.gtb_spec (MaxMemory l) 0); unfold Int64.max_int in *; [|lia].
    rewrite Hadd. lia.
Qed.


Hypothesis HE : ExternalsKeepBooks E.

(** [disableJetStream] on an account state of the ledger. *)
Lemma disableJetStream_result jsa js w :
  w_js w = Some js ->
  let j := jsaAt jsa w in
  let r := disableJetStream E (Some jsa) w in
  r.2 = None /\
  w_js r.1 = Some (releaseResources
                     (js_set_accounts (delete (jsa_account j) (js_accounts js)) js)
                     (Some (jsa_limits j))) /\
  (forall a, acc_srv (getAccount a r.1) = acc_srv (getAccount a w) /\
             acc_js (getAccount a r.1) = acc_js (getAccount a w)).
Proof.
  intros Hjs j r. subst r. unfold disableJetStream, bind. rewrite Hjs.
  cbn [fmap option_fmap option_map]. fold j.
  set (js2 := releaseResources _ _).
  pose proof (jsa_delete_frame E sameBooks (sameBooks_frame E HE) jsa
                (set_js (Some js2) w)) as (Hk1 & Hk2 & _).
  destruct (jsa_delete E jsa (set_js (Some js2) w)) as [w3 u].
  cbn [fst snd] in *. split_and!; [done|exact Hk1|exact Hk2].
Qed.

Lemma DisableJetStream_enabled_result w a js jsa :
  acc_srv (getAccount a w) = true ->
  w_js w = Some js ->
  js_accounts js !! a = Some jsa ->
  let j := jsaAt jsa w in
  let r := DisableJetStream E a w in
  r.2 = None /\
  w_js r.1 = Some (releaseResources
                     (js_set_accounts (delete (jsa_account j) (js_accounts js)) js)
                     (Some (jsa_limits j))) /\
  acc_js (getAccount a r.1) = None.
Proof.
  intros Hsrv Hjs Ha j r. subst r.
  destruct (DisableJetStream_unfold E w a js Hsrv Hjs) as [-> Hjs1].
  pose proof (removeServiceImports_spec a allJsExports
                (updAccount a (acc_set_js None) w)) as (_ & Hh & _ & _ & _ & _ & _ & Hjsp & _).
  unfold lookupAccount. rewrite Ha.
  match goal with |- context [disableJetStream E (Some jsa) ?w1] =>
    generalize dependent w1 end.
  intros w1 Hjs1 Hh Hjsp.
  destruct (disableJetStream_result jsa js w1 Hjs1) as (H1 & H2 & H3).
  assert (Hj : jsaAt jsa w1 = j).
  { subst j. unfold jsaAt. rewrite Hh. reflexivity. }
  rewrite Hj in H2. split_and!; [exact H1|exact H2|].
  destruct (H3 a) as [_ ->]. rewrite Hjsp, getAccount_updAccount. reflexivity.
Qed.

Lemma registered_facts w a js l :
  let jsa := fresh (dom (w_jsas w)) in
  let w0 := registered w a js l in
  w_js w0 = Some (reserveResources
                    (js_set_accounts (<[a := jsa]> (js_accounts js)) js) (Some l)) /\
  jsaAt jsa w0 = mkJsAccount a l 0 0 0 0
                   (path_Join [cfg_StoreDir (js_config js); a]) ∅ None None /\
  acc_js (getAccount a w0) = Some jsa /\
  (forall b, acc_srv (getAccount b w0) = acc_srv (getAccount b w)).
Proof.
  intros jsa w0. subst w0. unfold registered. fold jsa. split_and!.
  - reflexivity.
  - unfold jsaAt, updAccount. cbn. by rewrite lookup_insert_eq.
  - by rewrite getAccount_updAccount.
  - intros b. destruct (decide (a = b)) as [->|Hne].
    + by rewrite getAccount_updAccount.
    + by rewrite getAccount_updAccount_ne.
Qed.

(** X9.  Enabling an account that is admitted and then disabling it
    gives the ledger back as it was: the account is out of the ledger,
    both counters have their former values, the account has no JetStream
    state, and [DisableJetStream] reports no error.  This holds whatever
    [EnableJetStream] returned after it had registered the account,
    provided the counters were in the range of [int64] and streams and
    consumers leave the ledger and the account pointers alone. *)
Theorem enable_then_disable_restores_ledger w a limits :
  admitted w a limits ->
  (forall js, w_js w = Some js ->
     Int64.in_range (js_memReserved js) /\ Int64.in_range (js_storeReserved js)) ->
  let w1 := fst (EnableJetStream E a limits w) in
  let r := DisableJetStream E a w1 in
  r.2 = None /\ w_js r.1 = w_js w /\ acc_js (getAccount a r.1) = None.
Proof.
  intros (Hsrv & js & Hjs & Hok & Ha) Hrange w1 r. subst r w1.
  rewrite (EnableJetStream_admitted E w a limits js Hsrv Hjs Hok Ha).
  set (l := effectiveLimits js limits). set (jsa := fresh (dom (w_jsas w))).
  destruct (registered_facts w a js l) as (Hjs0 & Hat0 & _ & Hsrv0). fold jsa in Hjs0, Hat0.
  pose proof (afterRegistration_frame E sameBooks (sameBooks_frame E HE) a jsa
                (registered w a js l)) as (Hk1 & Hk2 & Hk3 & _).
  generalize dependent (registered w a js l). intros w0 Hjs0 Hat0 Hsrv0.
  generalize (afterRegistration E a jsa w0).1. intros w1 Hk1 Hk2 Hk3.
  set (jsreg := reserveResources
                  (js_set_accounts (<[a := jsa]> (js_accounts js)) js) (Some l)) in *.
  assert (Hacc : js_accounts jsreg !! a = Some jsa).
  { subst jsreg. destruct (reserveResources_frame
      (js_set_accounts (<[a := jsa]> (js_accounts js)) js) (Some l)) as [_ ->].
    cbn. by rewrite lookup_insert_eq. }
  destruct (DisableJetStream_enabled_result w1 a jsreg jsa) as (H1 & H2 & H3).
  { destruct (Hk2 a) as [-> _]. by rewrite Hsrv0. }
  { by rewrite Hk1. }
  { exact Hacc. }
  split_and!; [exact H1| |exact H3].
  rewrite H2, Hjs. f_equal.
  destruct (Hk3 jsa) as [-> ->]. rewrite Hat0. cbn [jsa_account jsa_limits].
  destruct (Hrange js Hjs) as [Hrm Hrs].
  subst jsreg. unfold releaseResources, reserveResources, js_set_accounts.
  cbn [js_config js_accounts js_memReserved js_storeReserved].
  rewrite delete_insert_id by done.
  destruct js as [cfg accs m s]. cbn in *.
  destruct (MaxMemory l >? 0), (MaxStore l >? 0);
    rewrite ?Int64Facts.sub_add_cancel by done; reflexivity.
Qed.

End AccountCycle.

(** ** [jsAccount.delete] *)

Section DeleteFacts.
Context {Ext : Type} (E : Externals Ext).
Implicit Types (w : World Ext).

Lemma stopAll_spec streams w :
  StopIsLocal E ->
  let w' := (forEach (fun ms => invoke (fun _ => CallStreamStop (sc_Name (stream_config ms)))
                                  (fun w => (Stream_stop E ms w, tt))) streams w).1 in
  w_calls w' = w_calls w ++ stopCalls streams /\
  w_accounts w' = w_accounts w /\ w_tmpls w' = w_tmpls w /\
  forall l, jsa_templates (jsaAt l w') = jsa_templates (jsaAt l w).
Proof.
  intros Hstop. revert w. induction streams as [|ms rest IH]; intros w; cbv zeta.
  - simpl. by rewrite app_nil_r.
  - rewrite forEach_cons.
    change (invoke (fun _ : () => CallStreamStop (sc_Name (stream_config ms)))
              (fun w => (Stream_stop E ms w, tt)) w).1
      with (set_calls (w_calls w ++ [CallStreamStop (sc_Name (stream_config ms))])
              (Stream_stop E ms w)).
    destruct (Hstop ms w) as (Ha & Ht & Hl).
    destruct (IH (set_calls (w_calls w ++ [CallStreamStop (sc_Name (stream_config ms))])
                    (Stream_stop E ms w))) as (H1 & H2 & H3 & H4).
    rewrite H1, H2, H3. cbn [w_calls w_accounts w_tmpls set_calls].
    split_and!; [by rewrite <- app_assoc|done|done|].
    intros l. rewrite H4. apply Hl.
Qed.

Lemma bind_then {A B} (m : M Ext A) (k : M Ext B) w :
  bind m (fun _ => k) w = k (m w).1.
Proof. unfold bind. by destruct (m w). Qed.

Lemma deleteTemplates_noop acc ts w :
  (forall jsa, acc_js (getAccount acc w) = Some jsa -> jsa_templates (jsaAt jsa w) = None) ->
  forEach (fun t => bind (DeleteStreamTemplate E acc t) (fun _ => ret tt)) ts w = (w, tt).
Proof.
  intros Hnone. induction ts as [|t ts IH]; [done|].
  rewrite forEach_cons. unfold bind at 2, DeleteStreamTemplate, LookupStreamTemplate.
  unfold checkForJetStream.
  destruct (acc_srv (getAccount acc w)); cbn [negb]; [|exact IH].
  destruct (acc_js (getAccount acc w)) as [jsa|] eqn:Hjs; [|exact IH].
  rewrite (Hnone jsa eq_refl). exact IH.
Qed.

(** X11.  [jsAccount.delete] stops every stream of the account and
    deletes no template.  It clears the template registry before it
    calls [DeleteStreamTemplate] on the names it collected, so each of
    these calls finds no template: the calls made are the stops of the
    streams, no template object changes, none is removed from the store
    and no subscription connection is closed. *)
Theorem jsa_delete_leaves_templates jsa w :
  StopIsLocal E ->
  (forall jsa', acc_js (getAccount (jsa_account (jsaAt jsa w)) w) = Some jsa' -> jsa' = jsa) ->
  let r := jsa_delete E jsa w in
  w_calls r.1 = w_calls w ++ stopCalls (map_to_list (jsa_streams (jsaAt jsa w))).*2 /\
  w_tmpls r.1 = w_tmpls w /\
  jsa_templates (jsaAt jsa r.1) = None.
Proof.
  intros Hstop Hown r. subst r. unfold jsa_delete. rewrite bind_then.
  set (acc := jsa_account (jsaAt jsa w)) in *.
  set (w0 := updJsa jsa (jsa_set_templates None) w).
  pose proof (stopAll_spec (map_to_list (jsa_streams (jsaAt jsa w))).*2 w0 Hstop)
    as (H1 & H2 & H3 & H4).
  set (w1 := (forEach _ (map_to_list (jsa_streams (jsaAt jsa w))).*2 w0).1) in *.
  assert (Hnone : jsa_templates (jsaAt jsa w1) = None).
  { rewrite H4. subst w0. by rewrite jsaAt_updJsa. }
  rewrite deleteTemplates_noop.
  - cbn [fst]. split_and!; [exact H1|exact H3|exact Hnone].
  - intros jsa' Hjs.
    assert (jsa' = jsa) as ->; [|exact Hnone].
    apply Hown. rewrite <- Hjs. unfold getAccount. by rewrite H2.
Qed.

End DeleteFacts.

(** ** Templates: the registry after insertion and deletion *)

Section TemplateRegistry.
Context {Ext : Type} (E : Externals Ext).
Implicit Types (w : World Ext).

(** A success of [subscribeAndStore] changes the broker's state and the
    record of calls only. *)
Lemma subscribeAndStore_success a jsa t tcopy w t' :
  (subscribeAndStore E a jsa t tcopy w).2 = Returns (inr t') ->
  t' = t /\
  exists ext calls,
    (subscribeAndStore E a jsa t tcopy w).1 = set_calls calls (set_ext ext w).
Proof.
  unfold subscribeAndStore, bind.
  pose proof (createTemplateSubscriptions_ok E a t w) as Hsub.
  destruct (createTemplateSubscriptions E a t w) as [w1 [[err|]|]]; [done| |done].
  destruct (Hsub eq_refl) as [ext Hw1]. simpl in Hw1. subst w1.
  change (jsaAt jsa (set_ext ext w)) with (jsaAt jsa w).
  destruct (jsa_store (jsaAt jsa w)) as [store|].
  - unfold invoke, onExt. cbn [w_ext set_ext].
    destruct (TemplateStore_Store E store tcopy ext) as [ext' [err|]].
    + destruct (Delete E t _). cbn. done.
    + cbn. intros [= <-]. split; [done|]. by eexists _, _.
  - cbn. intros [= <-]. split; [done|]. exists ext, (w_calls w). by destruct w.
Qed.

Lemma AddStreamTemplate_success_state a tc w t :
  (AddStreamTemplate E a tc w).2 = Returns (inr t) ->
  let w' := fst (AddStreamTemplate E a tc w) in
  LookupStreamTemplate a (tc_Name tc) w' = inr t /\
  (t ∉ dom (w_tmpls w)) /\
  tc_Name (t_cfg (tmplAt t w')) = tc_Name tc /\
  tc_MaxStreams (t_cfg (tmplAt t w')) = tc_MaxStreams tc /\
  t_streams (tmplAt t w') = [] /\
  t_tc (tmplAt t w') = true.
Proof.
  unfold AddStreamTemplate.
  destruct (checkForJetStream a w) as [err|jsa] eqn:Hck; [done|].
  destruct (tc_Config tc) as [config|]; [|done].
  destruct (bool_decide (sc_Name config = "")); cbn [negb]; [|done].
  destruct (checkStreamCfg E _) as [err|cfg]; [done|].
  set (t0 := fresh (dom (w_tmpls w))).
  assert (Hfresh : t0 ∉ dom (w_tmpls w)) by apply is_fresh.
  set (tcopy := mkStreamTemplateConfig (tc_Name tc) (Some cfg) (tc_MaxStreams tc)).
  set (w1 := set_tmpls (<[t0 := mkStreamTemplate true (Some jsa) tcopy []]> (w_tmpls w)) w).
  change (jsaAt jsa w1) with (jsaAt jsa w).
  assert (Hgen : forall w2,
    w_accounts w2 = w_accounts w -> w_tmpls w2 = w_tmpls w1 ->
    (exists templates, jsa_templates (jsaAt jsa w2) = Some templates /\
                       templates !! tc_Name tc = Some t0) ->
    (subscribeAndStore E a jsa t0 tcopy w2).2 = Returns (inr t) ->
    let w' := fst (subscribeAndStore E a jsa t0 tcopy w2) in
    LookupStreamTemplate a (tc_Name tc) w' = inr t /\
    (t ∉ dom (w_tmpls w)) /\
    tc_Name (t_cfg (tmplAt t w')) = tc_Name tc /\
    tc_MaxStreams (t_cfg (tmplAt t w')) = tc_MaxStreams tc /\
    t_streams (tmplAt t w') = [] /\
    t_tc (tmplAt t w') = true).
  { intros w2 Hacc Htm (templates & Hts & Hlk) Hok.
    destruct (subscribeAndStore_success a jsa t0 tcopy w2 t Hok) as (-> & ext & calls & ->).
    cbv zeta.
    assert (Hat : tmplAt t0 (set_calls calls (set_ext ext w2))
                  = mkStreamTemplate true (Some jsa) tcopy []).
    { unfold tmplAt. cbn [w_tmpls set_calls set_ext]. rewrite Htm.
      subst w1. cbn. by rewrite lookup_insert_eq. }
    rewrite Hat. split_and!; try done.
    unfold LookupStreamTemplate.
    assert (checkForJetStream a (set_calls calls (set_ext ext w2)) = inr jsa) as ->.
    { rewrite <- Hck. unfold checkForJetStream, getAccount.
      cbn [w_accounts set_calls set_ext]. by rewrite Hacc. }
    change (jsaAt jsa (set_calls calls (set_ext ext w2))) with (jsaAt jsa w2).
    by rewrite Hts, Hlk. }
  destruct (jsa_templates (jsaAt jsa w)) as [templates|] eqn:Hts.
  - destruct (templates !! tc_Name tcopy) eqn:Hlk; [done|].
    apply Hgen; [done|done|].
    eexists. rewrite jsaAt_updJsa. cbn. split; [reflexivity|].
    by rewrite lookup_insert_eq.
  - apply Hgen; [done|done|].
    eexists. rewrite jsaAt_updJsa. cbn. split; [reflexivity|].
    by rewrite lookup_insert_eq.
Qed.


(** X12.  After [AddStreamTemplate] has returned a template,
    [LookupStreamTemplate] finds this template under its name; the
    template is a new object with the name and the stream cap of the
    request, an empty list of streams and an open subscription
    connection. *)
Theorem AddStreamTemplate_then_lookup a tc w t :
  (AddStreamTemplate E a tc w).2 = Returns (inr t) ->
  let w' := fst (AddStreamTemplate E a tc w) in
  LookupStreamTemplate a (tc_Name tc) w' = inr t /\
  (t ∉ dom (w_tmpls w)) /\
  tc_Name (t_cfg (tmplAt t w')) = tc_Name tc /\
  tc_MaxStreams (t_cfg (tmplAt t w')) = tc_MaxStreams tc /\
  t_streams (tmplAt t w') = [] /\
  t_tc (tmplAt t w') = true.
Proof. apply AddStreamTemplate_success_state. Qed.



Lemma filter_filter_same {A} (f g : A -> bool) (l : list A) :
  (forall x, g x = f x) -> List.filter g (List.filter f l) = List.filter f l.
Proof.
  intros Hg. induction l as [|x l IH]; [done|]. cbn [List.filter].
  destruct (f x) eqn:Hx; [|exact IH]. cbn [List.filter]. by rewrite Hg, Hx, IH.
Qed.

(** X15.  [validateStreams] keeps of the template's list, in order,
    exactly the names of streams that the account holds; the names it
    keeps still resolve afterwards, the other templates are untouched,
    and a second pass changes nothing. *)
Theorem validateStreams_spec a t w :
  let w' := fst (validateStreams a t w) in
  t_streams (tmplAt t w') = List.filter (hasStream w a) (t_streams (tmplAt t w)) /\
  (forall n, n ∈ t_streams (tmplAt t w') <->
             n ∈ t_streams (tmplAt t w) /\ hasStream w a n = true) /\
  (forall n, n ∈ t_streams (tmplAt t w') -> hasStream w' a n = true) /\
  (forall t', t' <> t -> tmplAt t' w' = tmplAt t' w) /\
  validateStreams a t w' = (w', tt).
Proof.
  cbv zeta.
  assert (Hext : List.filter (resolves a w) (t_streams (tmplAt t w))
                 = List.filter (hasStream w a) (t_streams (tmplAt t w)))
    by (apply filter_ext; intros n; apply resolves_hasStream).
  rewrite <- Hext.
  assert (Hh : forall w0 n, hasStream w0 a n = resolves a w0 n)
    by (intros; symmetry; apply resolves_hasStream).
  setoid_rewrite Hh.
  unfold validateStreams, modify. cbn [fst].
  set (l := t_streams (tmplAt t w)).
  set (w' := updTmpl t (t_set_streams (List.filter (resolves a w) l)) w).
  assert (Hres : forall n, resolves a w' n = resolves a w n) by reflexivity.
  assert (Hst : t_streams (tmplAt t w') = List.filter (resolves a w) l).
  { subst w'. by rewrite tmplAt_updTmpl. }
  assert (Hin : forall n, n ∈ List.filter (resolves a w) l <->
                          n ∈ l /\ resolves a w n = true).
  { intros n. rewrite !list_elem_of_In. apply filter_In. }
  rewrite Hst. split; [reflexivity|]. split; [exact Hin|]. split; [|split].
  - intros n Hn. rewrite Hres. by apply Hin.
  - intros t' Hne. subst w'. by rewrite tmplAt_updTmpl_ne.
  - rewrite (filter_filter_same (resolves a w) (resolves a w') l Hres).
    f_equal. subst w'. unfold updTmpl at 1. rewrite tmplAt_updTmpl.
    unfold updTmpl. cbn [w_tmpls set_tmpls]. rewrite insert_insert_eq.
    destruct w. reflexivity.
Qed.


Lemma Delete_registry t jsa templates w :
  (forall mset w', jsa_templates (jsaAt jsa (Stream_Delete E mset w').1)
                   = jsa_templates (jsaAt jsa w')) ->
  t_jsa (tmplAt t w) = Some jsa ->
  jsa_templates (jsaAt jsa w) = Some templates ->
  is_Some (templates !! tc_Name (t_cfg (tmplAt t w))) ->
  jsa_templates (jsaAt jsa (Delete E t w).1)
  = Some (delete (tc_Name (t_cfg (tmplAt t w))) templates).
Proof.
  intros Hdel Htj Hts [t' Ht']. unfold Delete. rewrite Htj. cbv zeta.
  change (jsaAt jsa (updTmpl t (t_set_tc false) w)) with (jsaAt jsa w).
  rewrite Hts, Ht'.
  set (tname := tc_Name (t_cfg (tmplAt t w))).
  set (w2 := updJsa jsa (jsa_set_templates (Some (delete tname templates)))
               (updTmpl t (t_set_tc false) w)).
  assert (H2 : jsa_templates (jsaAt jsa w2) = Some (delete tname templates)).
  { subst w2. by rewrite jsaAt_updJsa. }
  set (closing := if t_tc (tmplAt t w)
                  then modify (fun w => set_calls (w_calls w ++ [CallCloseConnection tname]) w)
                  else ret tt).
  assert (Hclose : forall w0, jsa_templates (jsaAt jsa (closing w0).1)
                              = jsa_templates (jsaAt jsa w0)).
  { intros w0. subst closing. by destruct (t_tc (tmplAt t w)). }
  assert (Hcascade : forall streams w0,
    jsa_templates (jsaAt jsa w0) = Some (delete tname templates) ->
    jsa_templates (jsaAt jsa
      (bind (deleteStreams E streams None)
            (fun r => bind closing (fun _ => ret r)) w0).1)
    = Some (delete tname templates)).
  { intros streams w0 H0. unfold bind.
    pose proof (deleteStreams_registry E streams None jsa w0 Hdel) as Hr.
    destruct (deleteStreams E streams None w0) as [w3 r3]. cbn [fst] in Hr.
    specialize (Hclose w3). destruct (closing w3) as [w4 u]. cbn [fst] in *.
    change (jsa_templates (jsaAt jsa w4) = Some (delete tname templates)).
    by rewrite Hclose, Hr. }
  generalize dependent w2. intros w2 H2.
  destruct (jsa_store (jsaAt jsa w2)) as [store|].
  - unfold bind at 1. unfold invoke, onExt.
    destruct (TemplateStore_Delete E store (t_cfg (tmplAt t w)) (w_ext w2)) as [ext [err|]].
    + unfold bind. 
      match goal with |- context [closing ?w0] =>
        specialize (Hclose w0); destruct (closing w0) as [w4 u] end.
      cbn [fst] in *.
      change (jsa_templates (jsaAt jsa w4) = Some (delete tname templates)).
      by rewrite Hclose.
    + apply Hcascade. exact H2.
  - apply Hcascade. exact H2.
Qed.

(** X16.  After [DeleteStreamTemplate] on an existing template, whatever
    it returned, the name is no longer found: [LookupStreamTemplate] and
    a second [DeleteStreamTemplate] both answer "no template found". *)
Theorem DeleteStreamTemplate_then_lookup a name w t jsa :
  ExternalsKeepBooks E ->
  (forall mset w', jsa_templates (jsaAt jsa (Stream_Delete E mset w').1)
                   = jsa_templates (jsaAt jsa w')) ->
  checkForJetStream a w = inr jsa ->
  LookupStreamTemplate a name w = inr t ->
  t_jsa (tmplAt t w) = Some jsa ->
  tc_Name (t_cfg (tmplAt t w)) = name ->
  let r := DeleteStreamTemplate E a name w in
  LookupStreamTemplate a name r.1 = inl (Errorf "no template found") /\
  DeleteStreamTemplate E a name r.1 = (r.1, Some (Errorf "no template found")).
Proof.
  intros HE Hdel Hck Hlk Htj Hname r.
  assert (LookupStreamTemplate a name r.1 = inl (Errorf "no template found")) as Hgone.
  { subst r. unfold DeleteStreamTemplate. rewrite Hlk.
    pose proof (Delete_frame E sameBooks (sameBooks_frame E HE) t w) as (_ & Hk & _).
    assert (exists templates, jsa_templates (jsaAt jsa w) = Some templates /\
                              templates !! name = Some t) as (templates & Hts & Ht).
    { revert Hlk. unfold LookupStreamTemplate. rewrite Hck.
      destruct (jsa_templates (jsaAt jsa w)) as [templates|]; [|done].
      destruct (templates !! name) eqn:Ht; [|done]. intros [= ->]. by eexists. }
    pose proof (Delete_registry t jsa templates w Hdel Htj Hts) as Hreg.
    rewrite Hname in Hreg. specialize (Hreg ltac:(by eexists)).
    generalize dependent (Delete E t w).1. intros w' Hk Hreg.
    unfold LookupStreamTemplate.
    assert (checkForJetStream a w' = inr jsa) as ->.
    { rewrite <- Hck. unfold checkForJetStream. destruct (Hk a) as [-> ->]. done. }
    rewrite Hreg, lookup_delete_eq. done. }
  split; [exact Hgone|].
  unfold DeleteStreamTemplate at 1. by rewrite Hgone.
Qed.

(** X18.  [StreamTemplate.Delete] when the template store fails to
    delete the template.  The error is returned wrapped as "error
    deleting template from store: ...".  By then the template is out of
    the registry and its subscription connection is closed, while no
    stream of the template has been deleted: the only calls are the one
    to the store and the closing of the connection. *)
Theorem Delete_store_failure t jsa templates store err w :
  t_jsa (tmplAt t w) = Some jsa ->
  jsa_templates (jsaAt jsa w) = Some templates ->
  is_Some (templates !! tc_Name (t_cfg (tmplAt t w))) ->
  jsa_store (jsaAt jsa w) = Some store ->
  (TemplateStore_Delete E store (t_cfg (tmplAt t w)) (w_ext w)).2 = Some err ->
  let tname := tc_Name (t_cfg (tmplAt t w)) in
  let r := Delete E t w in
  r.2 = Some (ErrorfErr "error deleting template from store: %v" err) /\
  w_calls r.1 = w_calls w ++ [CallStoreDelete store tname (Some err)]
                ++ (if t_tc (tmplAt t w) then [CallCloseConnection tname] else []) /\
  jsa_templates (jsaAt jsa r.1) = Some (delete tname templates) /\
  jsa_streams (jsaAt jsa r.1) = jsa_streams (jsaAt jsa w) /\
  t_tc (tmplAt t r.1) = false.
Proof.
  intros Htj Hts [t' Ht'] Hst Herr tname r.
  set (w2 := updJsa jsa (jsa_set_templates (Some (delete tname templates)))
               (updTmpl t (t_set_tc false) w)).
  set (w3 := set_calls (w_calls w ++ [CallStoreDelete store tname (Some err)])
               (set_ext (TemplateStore_Delete E store (t_cfg (tmplAt t w)) (w_ext w)).1 w2)).
  assert (Hr : r = (if t_tc (tmplAt t w)
                    then set_calls (w_calls w3 ++ [CallCloseConnection tname]) w3
                    else w3,
                    Some (ErrorfErr "error deleting template from store: %v" err))).
  { subst r. unfold Delete. rewrite Htj. cbv zeta.
    change (jsaAt jsa (updTmpl t (t_set_tc false) w)) with (jsaAt jsa w).
    rewrite Hts. fold tname. change (templates !! tname = Some t') in Ht'. rewrite Ht'.
    fold w2.
    assert (H2 : jsa_store (jsaAt jsa w2) = Some store).
    { subst w2. rewrite jsaAt_updJsa. exact Hst. }
    rewrite H2. unfold bind, invoke, onExt. subst w3.
    change (w_ext w2) with (w_ext w). change (w_calls w2) with (w_calls w).
    destruct (TemplateStore_Delete E store (t_cfg (tmplAt t w)) (w_ext w)) as [ext e].
    cbn [snd fst] in *. subst e.
    by destruct (t_tc (tmplAt t w)). }
  assert (H2 : jsaAt jsa w3
               = jsa_set_templates (Some (delete tname templates)) (jsaAt jsa w)).
  { subst w3 w2. change (jsaAt jsa (set_calls ?x (set_ext ?y ?w0))) with (jsaAt jsa w0).
    by rewrite jsaAt_updJsa. }
  assert (H3 : t_tc (tmplAt t w3) = false).
  { subst w3 w2. change (tmplAt t (set_calls ?x (set_ext ?y (updJsa ?l ?f ?w0))))
      with (tmplAt t w0).
    by rewrite tmplAt_updTmpl. }
  assert (H4 : w_calls w3 = w_calls w ++ [CallStoreDelete store tname (Some err)])
    by reflexivity.
  clearbody w3. rewrite Hr. cbn [fst snd].
  destruct (t_tc (tmplAt t w)).
  - change (jsaAt jsa (set_calls ?x w3)) with (jsaAt jsa w3).
    change (tmplAt t (set_calls ?x w3)) with (tmplAt t w3).
    rewrite H2, H3. cbn [w_calls set_calls]. rewrite H4, <- app_assoc. done.
  - rewrite H2, H3, H4, app_nil_r. done.
Qed.

End TemplateRegistry.

(** ** Valid names, and the stream scan of recovery *)

Section Names.

Lemma ContainsAny_occurs s chars :
  ContainsAny s chars = true <-> exists c, c ∈ chars /\ occurs c s = true.
Proof.
  induction s as [|c' s IH]; cbn [ContainsAny occurs].
  - split; [done|]. by intros (c & _ & ?).
  - rewrite orb_true_iff, IH, bool_decide_eq_true. split.
    + intros [Hc|(c & Hc & Ho)].
      * exists c'. split; [done|]. by rewrite Ascii.eqb_refl.
      * exists c. split; [done|]. by rewrite Ho, orb_true_r.
    + intros (c & Hc & Ho). apply orb_true_iff in Ho as [Ho|Ho].
      * apply Ascii.eqb_eq in Ho as ->. by left.
      * right. by exists c.
Qed.

Lemma occurs_CanonicalName c s :
  occurs c (CanonicalName s)
  = if Ascii.eqb c dot then false
    else if Ascii.eqb c underscore then occurs underscore s || occurs dot s
    else occurs c s.
Proof.
  induction s as [|c' s IH]; cbn [CanonicalName occurs].
  - by repeat case_match.
  - rewrite IH. clear IH.
    destruct (Ascii.eqb_spec c' dot) as [->|Hc'].
    + destruct (Ascii.eqb_spec c dot) as [->|Hc]; [done|].
      destruct (Ascii.eqb_spec c underscore) as [->|Hc2].
      * cbn. by rewrite orb_true_r.
      * cbn. done.
    + destruct (Ascii.eqb_spec c dot) as [->|Hc].
      * destruct (Ascii.eqb_spec dot c'); [congruence|done].
      * destruct (Ascii.eqb_spec c underscore) as [->|Hc2]; [|done].
        destruct (Ascii.eqb_spec dot c'); [congruence|]. cbn [orb].
        destruct (Ascii.eqb_spec underscore c'); cbn [orb]; [done|].
        reflexivity.
Qed.

(** X7.  [isValidName] on canonical names.  The canonical name of a
    subject is a valid stream name exactly when the subject is not empty
    and holds no wildcard [*] or [>].  [CanonicalName] applied twice is
    [CanonicalName], and it leaves a string without a dot as it is. *)
Theorem isValidName_CanonicalName s :
  (isValidName (CanonicalName s) = true <->
   s <> "" /\ occurs "*" s = false /\ occurs ">" s = false) /\
  CanonicalName (CanonicalName s) = CanonicalName s /\
  (occurs dot s = false -> CanonicalName s = s).
Proof.
  split_and!.
  - unfold isValidName.
    destruct (decide (CanonicalName s = "")) as [He|He].
    + split; [done|]. intros [Hs _]. destruct s; [done|discriminate].
    + assert (s <> "") as Hs by (intros ->; done).
      rewrite negb_true_iff. split.
      * intros Hc. split; [done|].
        split; apply not_true_is_false; intros Ho; apply not_true_iff_false in Hc;
          apply Hc, ContainsAny_occurs.
        -- exists "*"%char. split; [set_solver|]. by rewrite occurs_CanonicalName.
        -- exists ">"%char. split; [set_solver|]. by rewrite occurs_CanonicalName.
      * intros (_ & H1 & H2). apply not_true_is_false. intros Hc.
        apply ContainsAny_occurs in Hc as (c & Hin & Ho).
        rewrite occurs_CanonicalName in Ho.
        repeat (apply elem_of_cons in Hin as [->|Hin]); [| | |by apply elem_of_nil in Hin].
        -- done.
        -- cbn in Ho. congruence.
        -- cbn in Ho. congruence.
  - apply CanonicalName_idempotent.
  - induction s as [|c s IH]; [done|]. cbn [occurs CanonicalName].
    rewrite Ascii.eqb_sym. intros [H1 H2]%orb_false_iff. by rewrite H1, IH.
Qed.

End Names.

Section RecoveryScan.
Context {Ext : Type} (E : Externals Ext).
Implicit Types (w : World Ext).

(** X17.  The stream scan of recovery skips a stream whose metadata
    no longer matches its checksum file and goes on.  When the checksum
    file holds the hash of other bytes than the metadata file now holds,
    the scan logs "Stream metafile checksums do not match", adds no
    stream and no consumer for this directory, and continues with the
    remaining directories from a world that differs by this one log
    line only. *)
Theorem recovery_skips_altered_stream a jsa sdir fi rest written buf w :
  let mdir := path_Join [sdir; fi] in
  let hh := highwayhash_Sum64 E (sha256_Sum256 E (path_Join [mdir; msgDir])) in
  os_Stat E (path_Join [mdir; JetStreamMetaFile]) (w_ext w) <> StatNotExist ->
  ioutil_ReadFile E (path_Join [mdir; JetStreamMetaFile]) (w_ext w) = inr buf ->
  os_Stat E (path_Join [mdir; JetStreamMetaFileSum]) (w_ext w) <> StatNotExist ->
  ioutil_ReadFile E (path_Join [mdir; JetStreamMetaFileSum]) (w_ext w)
    = inr (hex_EncodeToString (hh written)) ->
  hh buf <> hh written ->
  forEachErr (recoverStream E a jsa sdir) (fi :: rest) w
  = forEachErr (recoverStream E a jsa sdir) rest
      (set_log (w_log w ++ [(LWarn, "  Stream metafile checksums do not match %q vs %q")]) w).
Proof.
  intros mdir hh Hst Hbuf Hss Hsum Hne.
  rewrite recoverStreams_cons. f_equal.
  unfold recoverStream. fold mdir. rewrite highwayhash_New64_sha256. cbv zeta.
  fold hh. rewrite Hbuf, Hsum.
  rewrite bool_decide_eq_false_2
    by (intros Heq; by apply hex_EncodeToString_inj in Heq).
  cbn [negb].
  destruct (os_Stat E (path_Join [mdir; JetStreamMetaFile]) (w_ext w)); [done|..];
    destruct (os_Stat E (path_Join [mdir; JetStreamMetaFileSum]) (w_ext w));
    try done.
Qed.

End RecoveryScan.

(** ** The statements on concrete runs *)

Section Witnesses.

Import Demo.

Lemma demo_keeps_ledger : ExternalsKeepLedger externals.
Proof.
  split; simpl; intros; try apply sameLedger_refl.
  - unfold addStream. repeat case_match; simpl;
      try apply sameLedger_refl. by apply sameLedger_updJsa.
  - unfold streamDelete. simpl. by apply sameLedger_updJsa.
Qed.

Lemma demo_keeps_templates : ExternalsKeepTemplates externals.
Proof.
  split; simpl; intros; try reflexivity.
  unfold addStream. repeat case_match; reflexivity.
Qed.

Lemma UpdateJetStreamLimits_protocol_witness :
  let less := mkLimits 30 0 (-1) (-1) in
  let more := mkLimits 110 0 (-1) (-1) in
  let r := UpdateJetStreamLimits "A" (Some less) enabledA40 in
  let r' := UpdateJetStreamLimits "A" (Some more) enabledA40 in
  (acc_srv (getAccount "A" enabledA40) = true /\
   w_js enabledA40 = Some (ledger enabledA40) /\
   js_accounts (ledger enabledA40) !! "A" = Some 1%positive /\
   jsa_limits (jsaAt 1%positive enabledA40) = mkLimits 40 0 (-1) (-1) /\
   cfg_MaxMemory (js_config (ledger enabledA40)) = 100 /\
   js_memReserved (ledger enabledA40) = 40) /\
  (r.2 = None /\
   js_memReserved <$> w_js r.1 = Some 30 /\
   jsa_limits (jsaAt 1%positive r.1) = less) /\
  r' = (enabledA40, Some (Errorf "insufficient memory resources available")).
Proof.
  cbv zeta.
  assert (H1 : acc_srv (getAccount "A" enabledA40) = true) by (vm_compute; reflexivity).
  assert (H2 : w_js enabledA40 = Some (ledger enabledA40)) by (vm_compute; reflexivity).
  assert (H3 : js_accounts (ledger enabledA40) !! "A" = Some 1%positive)
    by (vm_compute; reflexivity).
  assert (H4 : jsa_limits (jsaAt 1%positive enabledA40) = mkLimits 40 0 (-1) (-1))
    by (vm_compute; reflexivity).
  assert (H5 : cfg_MaxMemory (js_config (ledger enabledA40)) = 100)
    by (vm_compute; reflexivity).
  assert (H6 : js_memReserved (ledger enabledA40) = 40) by (vm_compute; reflexivity).
  split; [by split_and!|]. split.
  - destruct (UpdateJetStreamLimits_protocol enabledA40 "A" (ledger enabledA40) 1%positive
                (mkLimits 30 0 (-1) (-1)) H1 H2 H3) as (_ & _ & _ & _ & _ & H).
    apply H.
    + by rewrite H4.
    + exact H6.
    + reflexivity.
    + rewrite H5. lia.
    + vm_compute. discriminate.
  - destruct (UpdateJetStreamLimits_protocol enabledA40 "A" (ledger enabledA40) 1%positive
                (mkLimits 110 0 (-1) (-1)) H1 H2 H3) as (H & _).
    apply H. rewrite H4, H5, H6. vm_compute. reflexivity.
Defined.

Lemma DisableJetStream_not_enabled_still_clears_witness :
  let r := DisableJetStream externals "C" withImport in
  let r' := DisableJetStream externals "B" enabledA in
  (acc_srv (getAccount "C" withImport) = true /\
   js_accounts (ledger withImport) !! "C" = None /\
   JetStreamInfo ∈ acc_imports (getAccount "C" withImport)) /\
  (acc_srv (getAccount "B" enabledA) = true /\
   js_accounts (ledger enabledA) !! "B" = None /\
   getAccount "B" enabledA = mkAccount true None ∅) /\
  (r.2 = Some (Errorf "jetstream not enabled for account") /\
   getAccount "C" r.1 <> getAccount "C" withImport) /\
  (r'.2 = Some (Errorf "jetstream not enabled for account") /\
   r'.1 = enabledA).
Proof.
  cbv zeta.
  assert (H1 : acc_srv (getAccount "C" withImport) = true) by reflexivity.
  assert (H2 : w_js withImport = Some (ledger withImport)) by reflexivity.
  assert (H3 : js_accounts (ledger withImport) !! "C" = None) by reflexivity.
  assert (H4 : JetStreamInfo ∈ acc_imports (getAccount "C" withImport)).
  { unfold getAccount, withImport. simpl. rewrite lookup_insert_eq. simpl.
    by apply elem_of_singleton. }
  assert (H1' : acc_srv (getAccount "B" enabledA) = true) by (vm_compute; reflexivity).
  assert (H2' : w_js enabledA = Some (ledger enabledA)) by (vm_compute; reflexivity).
  assert (H3' : js_accounts (ledger enabledA) !! "B" = None) by (vm_compute; reflexivity).
  assert (H4' : getAccount "B" enabledA = mkAccount true None ∅) by (vm_compute; reflexivity).
  split; [by split_and!|]. split; [by split_and!|]. split.
  - destruct (DisableJetStream_not_enabled_still_clears externals withImport "C"
                (ledger withImport) H1 H2 H3)
      as (Hr & _ & _ & _ & _ & _ & _ & _ & _ & _ & _ & Hch & _).
    split; [exact Hr|]. intros Heq. destruct (Hch Heq) as [_ Hno].
    apply (Hno JetStreamInfo); [|exact H4].
    unfold allJsExports. apply elem_of_cons. right. apply elem_of_cons. by left.
  - destruct (DisableJetStream_not_enabled_still_clears externals enabledA "B"
                (ledger enabledA) H1' H2' H3')
      as (Hr & _ & _ & _ & _ & _ & _ & _ & _ & _ & _ & _ & Hsame).
    split; [exact Hr|]. apply Hsame. rewrite H4'. split; [reflexivity|].
    intros e _. cbn [acc_imports]. apply not_elem_of_empty.
Defined.

Lemma enable_disable_nonpositive_limits_witness :
  let w := server 100 1000 emptyDisk in
  let l := mkLimits (-1) (-1) (-1) (-1) in
  let r1 := EnableJetStream externals "A" (Some l) w in
  let r2 := DisableJetStream externals "A" r1.1 in
  (r1.2 = Returns None /\ r2.2 = None) /\
  reservations r1.1 = reservations w /\
  reservations r2.1 = reservations w.
Proof.
  cbv zeta. split; [split; vm_compute; reflexivity|].
  set (w := server 100 1000 emptyDisk).
  set (l := mkLimits (-1) (-1) (-1) (-1)).
  assert (He : EnableJetStream externals "A" (Some l) w
               = ((EnableJetStream externals "A" (Some l) w).1, Returns None))
    by (vm_compute; reflexivity).
  assert (Hd : DisableJetStream externals "A" (EnableJetStream externals "A" (Some l) w).1
               = ((DisableJetStream externals "A"
                     (EnableJetStream externals "A" (Some l) w).1).1, None))
    by (vm_compute; reflexivity).
  destruct (enable_disable_nonpositive_limits externals demo_keeps_ledger w "A" l _ _ _
              ltac:(simpl; lia) ltac:(simpl; lia) He Hd) as (_ & H1 & H2).
  split; [exact H1|exact H2].
Defined.

Lemma processInboundTemplateMsg_spec_witness :
  let prototype := mkStreamConfig "_" ["mem.*"] MemoryStorage 0 1 0 "" in
  let cfg := mkStreamConfig "mem_a" ["mem.a"] MemoryStorage 0 1 0 "MEM" in
  let bad := mkStreamConfig "mem_>" ["mem.>"] MemoryStorage 0 1 0 "MEM" in
  let r := processInboundTemplateMsg externals 1%positive "mem.a" "" "hello" withTemplate in
  let r' := processInboundTemplateMsg externals 1%positive "mem.>" "" "hello" afterMemA in
  let r'' := processInboundTemplateMsg externals 1%positive "mem.a" "" "again" afterMemA in
  (t_jsa (tmplAt 1%positive withTemplate) = Some 1%positive /\
   tc_Config (t_cfg (tmplAt 1%positive withTemplate)) = Some prototype /\
   jsa_streams (jsaAt 1%positive withTemplate) !! CanonicalName "mem.a" = None /\
   t_streams (tmplAt 1%positive withTemplate) = [] /\
   tc_MaxStreams (t_cfg (tmplAt 1%positive withTemplate)) = 4%N) /\
  (r.2 = Returns tt /\
   w_calls r.1 = w_calls withTemplate
                 ++ [CallAddStream "A" cfg None;
                     CallProcessInboundJetStreamMsg "mem_a" "mem.a"] /\
   t_streams (tmplAt 1%positive r.1) = ["mem_a"]) /\
  (r'.2 = Returns tt /\
   w_calls r'.1 = w_calls afterMemA
                  ++ [CallAddStream "A" bad (Some (Errorf "invalid name"))] /\
   t_streams (tmplAt 1%positive r'.1) = ["mem_a"] /\
   last (w_log r'.1)
     = Some (LWarn, "JetStream could not create stream for account %q on subject %q")) /\
  (is_Some (jsa_streams (jsaAt 1%positive afterMemA) !! CanonicalName "mem.a") /\
   r'' = (afterMemA, Returns tt)).
Proof.
  cbv zeta.
  assert (H1 : t_jsa (tmplAt 1%positive withTemplate) = Some 1%positive)
    by (vm_compute; reflexivity).
  assert (H2 : tc_Config (t_cfg (tmplAt 1%positive withTemplate))
               = Some (mkStreamConfig "_" ["mem.*"] MemoryStorage 0 1 0 ""))
    by (vm_compute; reflexivity).
  assert (H3 : jsa_streams (jsaAt 1%positive withTemplate) !! CanonicalName "mem.a" = None)
    by (vm_compute; reflexivity).
  assert (H4 : t_streams (tmplAt 1%positive withTemplate) = []) by (vm_compute; reflexivity).
  assert (H5 : tc_MaxStreams (t_cfg (tmplAt 1%positive withTemplate)) = 4%N)
    by (vm_compute; reflexivity).
  split; [by split_and!|]. split; [|split].
  - destruct (processInboundTemplateMsg_spec externals withTemplate 1%positive 1%positive
                "mem.a" "" "hello" _ demo_keeps_templates H1 H2) as (_ & _ & _ & H).
    specialize (H H3 ltac:(rewrite H4, H5; simpl; lia)). cbv zeta in H.
    destruct H as [Hr H].
    replace (jsa_account (jsaAt 1%positive withTemplate)) with "A" in H
      by (vm_compute; reflexivity).
    replace (tc_Name (t_cfg (tmplAt 1%positive withTemplate))) with "MEM" in H
      by (vm_compute; reflexivity).
    rewrite H4 in H.
    change (CanonicalName "mem.a") with "mem_a" in H.
    cbn [sc_Storage sc_MaxBytes sc_Replicas sc_MaxConsumers app] in H.
    match type of H with match ?x with _ => _ end =>
      replace x with (inr (A:=error)
                        (mkStream 1%positive
                           (mkStreamConfig "mem_a" ["mem.a"] MemoryStorage 0 1 (-1) "MEM")))
        in H by (vm_compute; reflexivity) end.
    destruct H as (Hc & Hl & _). split_and!; [exact Hr|exact Hc|exact Hl].
  - assert (H1' : t_jsa (tmplAt 1%positive afterMemA) = Some 1%positive)
      by (vm_compute; reflexivity).
    assert (H2' : tc_Config (t_cfg (tmplAt 1%positive afterMemA))
                  = Some (mkStreamConfig "_" ["mem.*"] MemoryStorage 0 1 0 ""))
      by (vm_compute; reflexivity).
    assert (H3' : jsa_streams (jsaAt 1%positive afterMemA) !! CanonicalName "mem.>" = None)
      by (vm_compute; reflexivity).
    assert (H4' : t_streams (tmplAt 1%positive afterMemA) = ["mem_a"])
      by (vm_compute; reflexivity).
    assert (H5' : tc_MaxStreams (t_cfg (tmplAt 1%positive afterMemA)) = 4%N)
      by (vm_compute; reflexivity).
    destruct (processInboundTemplateMsg_spec externals afterMemA 1%positive 1%positive
                "mem.>" "" "hello" _ demo_keeps_templates H1' H2') as (_ & _ & _ & H).
    specialize (H H3' ltac:(rewrite H4', H5'; simpl; lia)). cbv zeta in H.
    destruct H as [Hr H].
    replace (jsa_account (jsaAt 1%positive afterMemA)) with "A" in H
      by (vm_compute; reflexivity).
    replace (tc_Name (t_cfg (tmplAt 1%positive afterMemA))) with "MEM" in H
      by (vm_compute; reflexivity).
    rewrite H4' in H.
    change (CanonicalName "mem.>") with "mem_>" in H.
    cbn [sc_Storage sc_MaxBytes sc_Replicas sc_MaxConsumers app] in H.
    match type of H with match ?x with _ => _ end =>
      replace x with (inl (B:=Stream) (Errorf "invalid name"))
        in H by (vm_compute; reflexivity) end.
    destruct H as (Hc & Hl & Hw). split_and!; [exact Hr|exact Hc| |exact Hw].
    rewrite Hl.
    assert (Ha : hasStream
                   (processInboundTemplateMsg externals 1%positive "mem.>" "" "hello"
                      afterMemA).1 "A" "mem_a" = true) by (vm_compute; reflexivity).
    assert (Hb : hasStream
                   (processInboundTemplateMsg externals 1%positive "mem.>" "" "hello"
                      afterMemA).1 "A" "mem_>" = false) by (vm_compute; reflexivity).
    cbn [List.filter]. by rewrite Ha, Hb.
  - assert (H1' : t_jsa (tmplAt 1%positive afterMemA) = Some 1%positive)
      by (vm_compute; reflexivity).
    assert (H2' : tc_Config (t_cfg (tmplAt 1%positive afterMemA))
                  = Some (mkStreamConfig "_" ["mem.*"] MemoryStorage 0 1 0 ""))
      by (vm_compute; reflexivity).
    assert (H3' : is_Some (jsa_streams (jsaAt 1%positive afterMemA) !! CanonicalName "mem.a"))
      by (vm_compute; eexists; reflexivity).
    split; [exact H3'|].
    destruct (processInboundTemplateMsg_spec externals afterMemA 1%positive 1%positive
                "mem.a" "" "again" _ demo_keeps_templates H1' H2') as (_ & H & _).
    by apply H.
Defined.


Lemma Delete_cascade_witness :
  let r := Delete externals 1%positive stubbornStreams in
  (t_jsa (tmplAt 1%positive stubbornStreams) = Some 1%positive /\
   LookupStreamTemplate "A" "MEM" stubbornStreams = inr 1%positive /\
   t_streams (tmplAt 1%positive stubbornStreams) = ["mem_a"; "mem_b"]) /\
  (exists results,
     length results = 2%nat /\
     w_calls r.1 = w_calls stubbornStreams
                   ++ [CallStoreDelete templateMemStore "MEM" None]
                   ++ [CallStreamDelete "mem_a" (results !!! 0%nat);
                       CallStreamDelete "mem_b" (results !!! 1%nat)]
                   ++ [CallCloseConnection "MEM"] /\
     r.2 = lastError results None) /\
  r.2 = Some (ErrorfStr "could not remove stream %q" "mem_b").
Proof.
  cbv zeta.
  split; [split_and!; vm_compute; reflexivity|].
  split; [|vm_compute; reflexivity].
  assert (Htm : jsa_templates (jsaAt 1%positive stubbornStreams)
                = Some (<["MEM" := 1%positive]> ∅)) by (vm_compute; reflexivity).
  destruct (Delete_cascade externals stubbornStreams 1%positive 1%positive
              (<["MEM" := 1%positive]> ∅)
              ltac:(vm_compute; reflexivity) Htm
              ltac:(vm_compute; eexists; reflexivity)
              ltac:(intros store _; vm_compute; reflexivity))
    as (results & Hlen & Hcalls & Hres & _).
  assert (Hst : lookupStreams (jsa_account (jsaAt 1%positive stubbornStreams))
                  (t_streams (tmplAt 1%positive stubbornStreams)) stubbornStreams
                = [mkStream 1%positive
                     (mkStreamConfig "mem_a" ["mem.a"] MemoryStorage 0 1 (-1) "MEM");
                   mkStream 1%positive
                     (mkStreamConfig "mem_b" ["mem.b"] MemoryStorage 0 1 (-1) "MEM")])
    by (vm_compute; reflexivity).
  rewrite Hst in Hlen, Hcalls.
  destruct results as [|e1 [|e2 [|? ?]]]; simpl in Hlen;
    try (exfalso; clear -Hlen; lia).
  exists [e1; e2]. split; [reflexivity|]. split; [|exact Hres].
  rewrite Hcalls.
  replace (jsa_store (jsaAt 1%positive stubbornStreams)) with (Some templateMemStore)
    by (vm_compute; reflexivity).
  replace (t_tc (tmplAt 1%positive stubbornStreams)) with true by (vm_compute; reflexivity).
  replace (tc_Name (t_cfg (tmplAt 1%positive stubbornStreams))) with "MEM"
    by (vm_compute; reflexivity).
  reflexivity.
Defined.

Lemma template_cap_invariant_witness :
  (tmplInv enabledA /\ rtc (templateStep externals false) enabledA afterMemB) /\
  tmplInv afterMemB /\
  t_streams (tmplAt 1%positive afterMemB) = ["mem_a"; "mem_b"] /\
  tc_MaxStreams (t_cfg (tmplAt 1%positive afterMemB)) = 4%N.
Proof.
  assert (H0 : tmplInv enabledA).
  { assert (H : w_tmpls enabledA = ∅) by (vm_compute; reflexivity).
    intros t. unfold tmplAt. rewrite H, lookup_empty. unfold withinCap. simpl. lia. }
  assert (Hs : rtc (templateStep externals false) enabledA afterMemB).
  { eapply rtc_l; [apply (step_AddStreamTemplate externals false "A" memT)|].
    eapply rtc_l; [apply (step_processInboundTemplateMsg externals false
                            1%positive "mem.a" "" "hello")|].
    eapply rtc_l; [apply (step_processInboundTemplateMsg externals false
                            1%positive "mem.b" "" "hello")|].
    apply rtc_refl. }
  split; [by split|].
  destruct (template_cap_invariant externals demo_keeps_templates enabledA afterMemB H0 Hs)
    as [H _].
  split; [exact H|]. split; vm_compute; reflexivity.
Defined.

Lemma demo_keeps_books : ExternalsKeepBooks externals.
Proof.
  split; simpl; intros; try apply sameBooks_refl.
  - unfold addStream. repeat case_match; simpl;
      try apply sameBooks_refl. by apply sameBooks_updJsa.
  - unfold streamDelete. simpl. by apply sameBooks_updJsa.
Qed.

Lemma demo_stop_is_local : StopIsLocal externals.
Proof. intros ms w. simpl. done. Qed.

Lemma demo_Stream_Delete_templates jsa mset (w : World Disk) :
  jsa_templates (jsaAt jsa (Stream_Delete externals mset w).1)
  = jsa_templates (jsaAt jsa w).
Proof.
  simpl. unfold streamDelete. cbn [fst].
  destruct (decide (stream_jsa mset = jsa)) as [<-|Hne].
  - by rewrite jsaAt_updJsa.
  - by rewrite jsaAt_updJsa_ne.
Qed.

Lemma parse_FormatInt_round_trip_witness :
  0 <= 834142 <= Int64.max_int /\
  parseInt64 (strconv_FormatInt 834142) = 834142 /\
  parseSize (strconv_FormatInt 834142) = if 834142 <? 10 ^ 9 then 834142 else -1.
Proof.
  assert (H : 0 <= 834142 <= Int64.max_int) by (unfold Int64.max_int; lia).
  split; [exact H|]. exact (parse_FormatInt_round_trip 834142 H).
Defined.

Lemma comma_grouping_witness :
  0 <= 834142 <= Int64.max_int /\
  exists g gs,
    comma 834142 = Some (strings_Join (g :: gs) ",") /\
    (1 <= String.length g <= 3)%nat /\ allDigits g = true /\
    Forall (fun p => String.length p = 3%nat /\ allDigits p = true) gs /\
    decimalValue (g +:+ concat_strings gs) = 834142.
Proof.
  assert (H : 0 <= 834142 <= Int64.max_int) by (unfold Int64.max_int; lia).
  split; [exact H|]. exact (comma_grouping 834142 H).
Defined.

Lemma comma_parseInt64_round_trip_witness :
  0 <= 1234567 <= Int64.max_int /\
  exists s, comma 1234567 = Some s /\ parseInt64 (stripCommas s) = 1234567.
Proof.
  assert (H : 0 <= 1234567 <= Int64.max_int) by (unfold Int64.max_int; lia).
  split; [exact H|]. exact (comma_parseInt64_round_trip 1234567 H).
Defined.

Lemma comma_never_panics_witness :
  Int64.in_range (-1234567) /\
  is_Some (comma (-1234567)) /\
  (Int64.min_int < -1234567 < 0 ->
   exists s, comma (- -1234567) = Some s /\ comma (-1234567) = Some ("-" +:+ s)).
Proof.
  assert (H : Int64.in_range (-1234567))
    by (unfold Int64.in_range, Int64.min_int, Int64.max_int; lia).
  split; [exact H|]. exact (comma_never_panics (-1234567) H).
Defined.

Lemma sufficientResources_overflow_witness :
  let js := mkJetStream (mkJetStreamConfig 100 1000 "/js") ∅ 60 0 in
  let l := mkLimits Int64.max_int 0 (-1) (-1) in
  (0 < js_memReserved js <= Int64.max_int /\
   Int64.max_int - js_memReserved js < MaxMemory l <= Int64.max_int) /\
  sufficientResources js (Some l) = None /\
  js_memReserved (reserveResources js (Some l)) < 0.
Proof.
  cbv zeta.
  set (js := mkJetStream (mkJetStreamConfig 100 1000 "/js") ∅ 60 0).
  set (l := mkLimits Int64.max_int 0 (-1) (-1)).
  assert (H1 : 0 < js_memReserved js <= Int64.max_int) by (vm_compute; split; congruence).
  assert (H2 : Int64.max_int - js_memReserved js < MaxMemory l <= Int64.max_int)
    by (vm_compute; split; congruence).
  split; [by split|].
  apply (sufficientResources_overflow js l H1 H2); vm_compute; congruence.
Defined.

Lemma enable_then_disable_restores_ledger_witness :
  let w := server 100 1000 emptyDisk in
  let limits := Some (mkLimits 40 10 (-1) (-1)) in
  let w1 := fst (EnableJetStream externals "A" limits w) in
  let r := DisableJetStream externals "A" w1 in
  admitted w "A" limits /\
  reservations w1 = Some (40, 10) /\
  r.2 = None /\ w_js r.1 = w_js w /\ acc_js (getAccount "A" r.1) = None.
Proof.
  cbv zeta.
  assert (Ha : admitted (server 100 1000 emptyDisk) "A" (Some (mkLimits 40 10 (-1) (-1)))).
  { split; [reflexivity|]. eexists. split; [reflexivity|].
    split; [split; vm_compute; discriminate|reflexivity]. }
  split; [exact Ha|]. split; [vm_compute; reflexivity|].
  apply (enable_then_disable_restores_ledger externals demo_keeps_books _ _ _ Ha).
  intros js [= <-]. split; vm_compute; split; discriminate.
Defined.

Lemma ledger_balance_invariant_witness :
  let w0 := server 100 1000 emptyDisk in
  let w1 := (EnableJetStream externals "A" (Some (mkLimits 40 0 (-1) (-1))) w0).1 in
  let w2 := (EnableJetStream externals "B" (Some (mkLimits 30 500 (-1) (-1))) w1).1 in
  let w3 := (UpdateJetStreamLimits "A" (Some (mkLimits 50 100 (-1) (-1))) w2).1 in
  let w4 := (DisableJetStream externals "B" w3).1 in
  (ledgerInv w0 /\ rtc (accountStep externals) w0 w4) /\
  ledgerInv w4 /\
  reservations w3 = Some (80, 600) /\
  reservations w4 = Some (50, 100).
Proof.
  cbv zeta.
  set (w0 := server 100 1000 emptyDisk).
  assert (H0 : ledgerInv w0).
  { split.
    - intros js a l [= <-] Hl. simpl in Hl. by rewrite lookup_empty in Hl.
    - intros js [= <-]. split; reflexivity. }
  assert (Hs : rtc (accountStep externals) w0
                 (DisableJetStream externals "B"
                    (UpdateJetStreamLimits "A" (Some (mkLimits 50 100 (-1) (-1)))
                       (EnableJetStream externals "B" (Some (mkLimits 30 500 (-1) (-1)))
                          (EnableJetStream externals "A" (Some (mkLimits 40 0 (-1) (-1)))
                             w0).1).1).1).1).
  { eapply rtc_l; [apply (step_EnableJetStream externals "A" (Some (mkLimits 40 0 (-1) (-1))))|].
    eapply rtc_l; [apply (step_EnableJetStream externals "B" (Some (mkLimits 30 500 (-1) (-1))))|].
    eapply rtc_l; [apply (step_UpdateJetStreamLimits externals "A"
                            (Some (mkLimits 50 100 (-1) (-1))))|].
    eapply rtc_l; [apply (step_DisableJetStream externals "B")|].
    apply rtc_refl. }
  split; [by split|].
  destruct (ledger_balance_invariant externals demo_keeps_books w0 _ H0 Hs) as [H _].
  split; [exact H|]. split; vm_compute; reflexivity.
Defined.

Lemma jsa_delete_leaves_templates_witness :
  let r := jsa_delete externals 1%positive afterMemB in
  (jsa_account (jsaAt 1%positive afterMemB) = "A" /\
   acc_js (getAccount "A" afterMemB) = Some 1%positive /\
   is_Some (jsa_templates (jsaAt 1%positive afterMemB))) /\
  w_calls r.1 = w_calls afterMemB
                ++ stopCalls (map_to_list (jsa_streams (jsaAt 1%positive afterMemB))).*2 /\
  w_tmpls r.1 = w_tmpls afterMemB /\
  jsa_templates (jsaAt 1%positive r.1) = None.
Proof.
  cbv zeta.
  assert (H1 : jsa_account (jsaAt 1%positive afterMemB) = "A") by (vm_compute; reflexivity).
  assert (H2 : acc_js (getAccount "A" afterMemB) = Some 1%positive)
    by (vm_compute; reflexivity).
  assert (H3 : is_Some (jsa_templates (jsaAt 1%positive afterMemB)))
    by (vm_compute; eexists; reflexivity).
  split; [by split_and!|].
  apply (jsa_delete_leaves_templates externals 1%positive afterMemB demo_stop_is_local).
  intros jsa'. rewrite H1, H2. by intros [= <-].
Defined.

Lemma AddStreamTemplate_then_lookup_witness :
  let r := AddStreamTemplate externals "A" memT enabledA in
  r.2 = Returns (inr 1%positive) /\
  LookupStreamTemplate "A" "MEM" r.1 = inr 1%positive /\
  t_streams (tmplAt 1%positive r.1) = [].
Proof.
  cbv zeta.
  assert (H : (AddStreamTemplate externals "A" memT enabledA).2 = Returns (inr 1%positive))
    by (vm_compute; reflexivity).
  split; [exact H|].
  destruct (AddStreamTemplate_then_lookup externals "A" memT enabledA 1%positive H)
    as (H1 & _ & _ & _ & H2 & _).
  split; [exact H1|exact H2].
Defined.


Lemma DeleteStreamTemplate_then_lookup_witness :
  let r := DeleteStreamTemplate externals "A" "MEM" afterMemB in
  (checkForJetStream "A" afterMemB = inr 1%positive /\
   LookupStreamTemplate "A" "MEM" afterMemB = inr 1%positive) /\
  LookupStreamTemplate "A" "MEM" r.1 = inl (Errorf "no template found") /\
  DeleteStreamTemplate externals "A" "MEM" r.1 = (r.1, Some (Errorf "no template found")).
Proof.
  cbv zeta.
  assert (H1 : checkForJetStream "A" afterMemB = inr 1%positive) by (vm_compute; reflexivity).
  assert (H2 : LookupStreamTemplate "A" "MEM" afterMemB = inr 1%positive)
    by (vm_compute; reflexivity).
  assert (H3 : t_jsa (tmplAt 1%positive afterMemB) = Some 1%positive)
    by (vm_compute; reflexivity).
  assert (H4 : tc_Name (t_cfg (tmplAt 1%positive afterMemB)) = "MEM")
    by (vm_compute; reflexivity).
  split; [by split|].
  exact (DeleteStreamTemplate_then_lookup externals "A" "MEM" afterMemB 1%positive 1%positive
           demo_keeps_books (demo_Stream_Delete_templates 1%positive) H1 H2 H3 H4).
Defined.

Lemma Delete_store_failure_witness :
  let r := Delete externals 1%positive stubbornStore in
  (t_streams (tmplAt 1%positive stubbornStore) = ["mem_a"; "mem_b"] /\
   jsa_store (jsaAt 1%positive stubbornStore) = Some templateMemStore) /\
  r.2 = Some (ErrorfErr "error deleting template from store: %v"
                (Errorf "template store not writable")) /\
  w_calls r.1 = w_calls stubbornStore
                ++ [CallStoreDelete templateMemStore "MEM"
                      (Some (Errorf "template store not writable"))]
                ++ [CallCloseConnection "MEM"] /\
  jsa_streams (jsaAt 1%positive r.1) = jsa_streams (jsaAt 1%positive stubbornStore).
Proof.
  cbv zeta.
  assert (H0 : t_streams (tmplAt 1%positive stubbornStore) = ["mem_a"; "mem_b"])
    by (vm_compute; reflexivity).
  assert (H1 : t_jsa (tmplAt 1%positive stubbornStore) = Some 1%positive)
    by (vm_compute; reflexivity).
  assert (H2 : jsa_templates (jsaAt 1%positive stubbornStore)
               = Some (<["MEM" := 1%positive]> ∅)) by (vm_compute; reflexivity).
  assert (H3 : is_Some ((<["MEM" := 1%positive]> ∅ : gmap string loc)
                          !! tc_Name (t_cfg (tmplAt 1%positive stubbornStore))))
    by (vm_compute; eexists; reflexivity).
  assert (H4 : jsa_store (jsaAt 1%positive stubbornStore) = Some templateMemStore)
    by (vm_compute; reflexivity).
  assert (H5 : (TemplateStore_Delete externals templateMemStore
                  (t_cfg (tmplAt 1%positive stubbornStore)) (w_ext stubbornStore)).2
               = Some (Errorf "template store not writable")) by (vm_compute; reflexivity).
  split; [by split|].
  destruct (Delete_store_failure externals 1%positive 1%positive _ _ _ stubbornStore
              H1 H2 H3 H4 H5) as (Hr & Hc & _ & Hs & _).
  split; [exact Hr|]. split; [|exact Hs].
  rewrite Hc.
  replace (t_tc (tmplAt 1%positive stubbornStore)) with true by (vm_compute; reflexivity).
  replace (tc_Name (t_cfg (tmplAt 1%positive stubbornStore))) with "MEM"
    by (vm_compute; reflexivity).
  reflexivity.
Defined.

Lemma recovery_skips_altered_stream_witness :
  let w := set_ext diskWithAlteredStream enabledA in
  (ioutil_ReadFile externals "/js/A/streams/ORDERS/meta.inf" (w_ext w) = inr "ORDERz" /\
   ioutil_ReadFile externals "/js/A/streams/ORDERS/meta.sum" (w_ext w)
     = inr (checksum "ORDERS")) /\
  forEachErr (recoverStream externals "A" 1%positive "/js/A/streams") ["ORDERS"] w
  = (set_log (w_log w ++ [(LWarn, "  Stream metafile checksums do not match %q vs %q")]) w,
     None).
Proof.
  cbv zeta. split; [split; reflexivity|].
  rewrite (recovery_skips_altered_stream externals "A" 1%positive "/js/A/streams" "ORDERS" []
             "ORDERS" "ORDERz").
  - reflexivity.
  - vm_compute. discriminate.
  - reflexivity.
  - vm_compute. discriminate.
  - reflexivity.
  - vm_compute. discriminate.
Defined.

End Witnesses.
